(** * gnome-spotlight: a shallow embedding of [main.go] and [api/microsoft.go]

    The program fetches the URL of a wallpaper from a metadata service,
    downloads the image into a directory, points three dconf keys at it and
    prunes older downloads.  The embedding follows the two source files
    function by function.  Everything outside the repository (environment,
    network, file system, the dconf executable, the Go library) appears either
    as a small executable model or as an interface with the laws the Go
    documentation states. *)

From Stdlib Require Import ZArith Ascii String.
From stdpp Require Import gmap strings list fin_maps sorting.

#[local] Set Warnings "-register-all".

Local Open Scope string_scope.
Local Open Scope Z_scope.
Local Open Scope list_scope.

(** ** Package [strings] *)

Module strings.

(** [strings.Split(s, sep)] for a one-byte separator, which is how both
    call sites of the program use it.  The result has one more element than
    [s] has occurrences of [sep]; in particular it is never empty. *)
Fixpoint Split (s : string) (sep : ascii) : list string :=
  match s with
  | EmptyString => [EmptyString]
  | String c s' =>
      if Ascii.eqb c sep then EmptyString :: Split s' sep
      else match Split s' sep with
           | x :: xs => String c x :: xs
           | [] => [String c EmptyString]
           end
  end.

(** [strings.ReplaceAll(s, old, new)] for one-byte [old] and [new]. *)
Fixpoint ReplaceAll (s : string) (old new : ascii) : string :=
  match s with
  | EmptyString => EmptyString
  | String c s' =>
      String (if Ascii.eqb c old then new else c) (ReplaceAll s' old new)
  end.

(** [strings.HasPrefix(s, prefix)]. *)
Definition HasPrefix (s prefix : string) : bool := String.prefix prefix s.

(** [strings.Join(elems, sep)]. *)
Fixpoint Join (elems : list string) (sep : string) : string :=
  match elems with
  | [] => EmptyString
  | [x] => x
  | x :: xs => (x ++ sep ++ Join xs sep)%string
  end.

(** Does byte [c] occur in [s]? *)
Fixpoint ContainsByte (s : string) (c : ascii) : bool :=
  match s with
  | EmptyString => false
  | String d s' => Ascii.eqb d c || ContainsByte s' c
  end.

End strings.

(** ** Package [path] *)

Module path.

Definition slash : ascii := "/"%char.

(** One path element pushed on the output of [Clean].  [out] holds the
    elements written so far, last one first. *)
Definition clean_elem (rooted : bool) (out : list string) (e : string)
  : list string :=
  if String.eqb e EmptyString then out
  else if String.eqb e "." then out
  else if String.eqb e ".." then
    match out with
    | top :: rest => if String.eqb top ".." then e :: out else rest
    | [] => if rooted then [] else [e]
    end
  else e :: out.

(** [path.Clean]: drop empty and [.] elements, let [..] cancel the element
    before it (at the root it is dropped, at the start of a relative path
    it is kept), and return [.] for an empty result. *)
Definition Clean (p : string) : string :=
  match p with
  | EmptyString => "."
  | String c _ =>
      let rooted := Ascii.eqb c slash in
      let out := fold_left (clean_elem rooted) (strings.Split p slash) [] in
      let body := strings.Join (rev out) "/" in
      if rooted then String slash body
      else if String.eqb body EmptyString then "." else body
  end.

(** [path.Join]: the non-empty elements separated by slashes, cleaned;
    the empty string when every element is empty. *)
Definition Join (elem : list string) : string :=
  match filter (λ e, e ≠ EmptyString) elem with
  | [] => EmptyString
  | es => Clean (strings.Join es "/")
  end.

(** [path.Base]: the last element of the path, trailing slashes removed;
    [.] for the empty path and [/] for a path of slashes only. *)
Definition Base (p : string) : string :=
  match p with
  | EmptyString => "."
  | _ =>
      match filter (λ e, e ≠ EmptyString) (rev (strings.Split p slash)) with
      | [] => "/"
      | e :: _ => e
      end
  end.

End path.


(** ** Machine integers

    The program is compiled for a 64-bit target: [int] is a signed and [uint]
    an unsigned 64-bit integer.  Both are carried as [Z]; a conversion or an
    operation that can leave the range wraps. *)

Definition int_wrap (z : Z) : Z := (z + 2 ^ 63) mod 2 ^ 64 - 2 ^ 63.

(** ** Data of the program and of its collaborators *)

(** A JSON document as [encoding/json] sees it after scanning. *)
Inductive json : Type :=
| JNull
| JBool (b : bool)
| JNumber (literal : string)
| JString (s : string)
| JArray (elems : list json)
| JObject (members : list (string * json)).

(** An [io.Reader]: the bytes it delivers, and whether it then ends with an
    error instead of [io.EOF]. *)
Record Reader : Type := { data : string; broken : bool }.

(** [strings.NewReader] *)
Definition NewReader (s : string) : Reader := {| data := s; broken := false |}.

(** [*http.Response], as far as the program looks at it. *)
Record Response : Type := { StatusCode : Z; Body : Reader }.

Definition StatusOK : Z := 200.

(** What [exec.Cmd.Output] can report: the command's standard output, an
    [*exec.ExitError] with the captured standard error, or another error
    (the executable cannot be started). *)
Inductive CmdResult : Type :=
| CmdOk (stdout : string)
| CmdExit (stderr : string)
| CmdError (cause : string).

(** A file-system object under its cleaned path. *)
Inductive Node : Type :=
| File (mtime : Z) (content : string)
| Directory (mtime : Z).

Definition node_mtime (n : Node) : Z :=
  match n with File t _ => t | Directory t => t end.

Definition node_isDir (n : Node) : bool :=
  match n with File _ _ => false | Directory _ => true end.

(** [os.FileInfo] *)
Record FileInfo : Type := { Name : string; ModTime : Z; IsDir : bool }.

(** [os.DirEntry]: the name, and the path [Info] will stat. *)
Record DirEntry : Type := { entryName : string; entryPath : string }.

(** [slog] records. *)
Inductive Level : Type := LevelDebug | LevelInfo | LevelError.

Inductive LogVal : Type :=
| VStr (s : string)
| VInt (z : Z).

Record LogRec : Type :=
  { level : Level; message : string; attrs : list (string * LogVal) }.

(** Every [fmt.Errorf] of the program, with the values it formats. *)
Inductive error : Type :=
(* api/microsoft.go *)
| ErrParseLocale (l : list string)   (* failed to parse locale from LANG: %s *)
| ErrParseCountry (locale : string)  (* failed to parse country code from locale: %s *)
| ErrApiRequest (cause : string)     (* invalid response when querying microsoft api: %w *)
| ErrApiStatus (code : Z)            (* received non-ok response code when querying microsoft api: %d *)
| ErrDecodeBody                      (* decode microsoft api response body: %w *)
| ErrNoImages                        (* microsoft api response body contains no images *)
| ErrDecodeMetadata                  (* decode microsoft api image metadata: %w *)
(* main.go, newImage *)
| ErrGetUrl (e : error)              (* error getting image url: %w *)
| ErrFetchImage (cause : string)     (* failed to fetch image: %w *)
| ErrImageStatus (code : Z)          (* received non-ok response code when fetching image: %d *)
| ErrStatDir                         (* stat image directory: %w *)
| ErrNotDirectory                    (* dir exists but is not a directory *)
| ErrImageExists                     (* image already exists *)
| ErrCreateFile                      (* create image file: %w *)
| ErrWriteFile                       (* write image file: %w *)
(* main.go, writeToDconf *)
| ErrDconfExit (stderr : string)     (* execute dconf write: %w: %s *)
| ErrDconfExec (cause : string)      (* execute dconf write: %w *)
(* main.go, cleanImages *)
| ErrReadDir                         (* read dir: %w *)
| ErrFileInfo                        (* get file info: %w *)
| ErrDeleteImage                     (* delete image: %w *)
(* main.go, Run *)
| ErrNewImage (e : error)            (* new image: %w *)
| ErrWriteDconf (e : error)          (* write to dconf: %w *)
| ErrCleanImages (e : error).        (* clean images: %w *)

(** How a Go function ends: it returns a value, returns an error, or
    panics. *)
Inductive outcome (A : Type) : Type :=
| Ret (a : A)
| Fail (e : error)
| Panic (reason : string).

Arguments Ret {A} a.
Arguments Fail {A} e.
Arguments Panic {A} reason.

(** ** The Go library

    The parts of the library whose result is not fixed by the arguments the
    program passes, or whose algorithm is the library's own business, are an
    interface with the laws their documentation gives. *)

(** Upper-casing of the ASCII letters of a string. *)
Definition upper_byte (c : ascii) : ascii :=
  let n := nat_of_ascii c in
  if (97 <=? n)%nat && (n <=? 122)%nat then ascii_of_nat (n - 32) else c.

Fixpoint ascii_upper (s : string) : string :=
  match s with
  | EmptyString => EmptyString
  | String c s' => String (upper_byte c) (ascii_upper s')
  end.

Fixpoint is_ascii (s : string) : bool :=
  match s with
  | EmptyString => true
  | String c s' => (nat_of_ascii c <? 128)%nat && is_ascii s'
  end.

Class GoLib : Type := {
  (** [slices.SortFunc]: some sorting algorithm, not guaranteed stable. *)
  slices_SortFunc : ∀ A : Type, (A → A → comparison) → list A → list A;
  (** Capacity of a slice grown from [nil] by [n] single [append]s. *)
  append_cap : nat → nat;
  (** The scanner of [encoding/json]: the first JSON value of a stream, or
      nothing when the stream does not start with one. *)
  json_scan : Reader → option json;
  (** The case-insensitive comparison of an object key with a field name. *)
  json_foldEq : string → string → bool;
  SortFunc_Permutation : ∀ A (cmp : A → A → comparison) l,
    slices_SortFunc A cmp l ≡ₚ l;
  SortFunc_Sorted : ∀ A (key : A → Z) l,
    StronglySorted (λ a b, key a ≤ key b)
      (slices_SortFunc A (λ a b, key a ?= key b) l);
  append_cap_nil : append_cap 0 = 0%nat;
  append_cap_ge : ∀ n, (n ≤ append_cap n)%nat;
  json_foldEq_ascii : ∀ a b,
    is_ascii a = true → is_ascii b = true →
    json_foldEq a b = String.eqb (ascii_upper a) (ascii_upper b);
}.

Arguments slices_SortFunc {_ A} cmp l.

(** ** The world outside the process *)

Record World : Type := {
  (** [os.Getenv("LANG")] *)
  env_LANG : string;
  (** [http.Get]: a transport error, or a response. *)
  http_Get : string → string + Response;
  (** The clock the file system stamps files with. *)
  clock_now : Z;
  (** How many bytes the file system takes for a new file before a write
      fails; [None] when there is room for everything. *)
  disk_room : option nat;
  (** What running a command reports, given the commands run before it. *)
  exec_Output : list (list string) → list string → CmdResult;
}.

(** What the process changes: the file system, the log it writes and the
    commands it has run. *)
Record State : Type := {
  fs : gmap string Node;
  logs : list LogRec;
  calls : list (list string);
}.

Definition set_fs (f : gmap string Node → gmap string Node) (s : State) : State :=
  {| fs := f (fs s); logs := logs s; calls := calls s |}.

Definition add_log (r : LogRec) (s : State) : State :=
  {| fs := fs s; logs := logs s ++ [r]; calls := calls s |}.

Definition add_call (argv : list string) (s : State) : State :=
  {| fs := fs s; logs := logs s; calls := calls s ++ [argv] |}.

(** ** Computations: a state and error monad *)

Definition M (A : Type) : Type := State → outcome A * State.

Definition ret {A} (a : A) : M A := λ s, (Ret a, s).

Definition fail {A} (e : error) : M A := λ s, (Fail e, s).

Definition panic {A} (reason : string) : M A := λ s, (Panic reason, s).

Definition bind {A B} (m : M A) (k : A → M B) : M B :=
  λ s, match m s with
       | (Ret a, s') => k a s'
       | (Fail e, s') => (Fail e, s')
       | (Panic r, s') => (Panic r, s')
       end.

(** [fmt.Errorf("...: %w", err)] around a call. *)
Definition wrap {A} (ctx : error → error) (m : M A) : M A :=
  λ s, match m s with
       | (Fail e, s') => (Fail (ctx e), s')
       | r => r
       end.

Notation "'let*' x := m 'in' k" := (bind m (λ x, k))
  (at level 10, x binder, k at level 200, only parsing).
Notation "m >> k" := (bind m (λ _, k))
  (at level 100, right associativity, only parsing).

(** [a.log.Debug], [a.log.Info] *)
Definition log (l : Level) (msg : string) (kv : list (string * LogVal)) : M unit :=
  λ s, (Ret tt, add_log {| level := l; message := msg; attrs := kv |} s).

(** ** Package [encoding/json]: storing a scanned value into a Go value

    [Decode] stores into the value it is given.  A member whose key matches
    no field is skipped, [null] leaves a struct or string as it is and makes
    a slice [nil], and a value of the wrong kind is an
    [UnmarshalTypeError], which [Decode] returns at the end. *)

Module json_decode.

(** A slice as far as decoding can tell: its elements, and what its
    backing array holds behind them. *)
Record slice (T : Type) : Type := { elems : list T; spare : list T }.
Arguments elems {T} _.
Arguments spare {T} _.

Definition nil_slice {T} : slice T := {| elems := []; spare := [] |}.

Section with_lib.
Context `{GoLib}.

(** A key selects a field when it is the field's name, exactly or up to
    case. *)
Definition field_match (field key : string) : bool :=
  String.eqb key field || json_foldEq field key.

Definition into_string (v : json) (cur : string) : option string :=
  match v with
  | JNull => Some cur
  | JString s => Some s
  | _ => None
  end.

(** A struct with the single field [field]: [get] reads it, [mk] builds the
    struct from it.  Members are stored in the order they appear, so a
    repeated key is stored into what the earlier one left. *)
Definition into_struct {S T : Type} (field : string)
    (get : S → T) (mk : T → S) (into_field : json → T → option T)
    (v : json) (cur : S) : option S :=
  match v with
  | JNull => Some cur
  | JObject members =>
      foldl (λ acc kv,
               match acc with
               | Some c =>
                   if field_match field kv.1
                   then mk <$> into_field kv.2 (get c)
                   else Some c
               | None => None
               end)
            (Some cur) members
  | _ => None
  end.

(** Element [i] of the array is stored into slot [i] of the backing array,
    which holds an earlier element or the zero value. *)
Fixpoint into_elems {T : Type} (zero : T) (into_elem : json → T → option T)
    (vs : list json) (backing : list T) : option (list T) :=
  match vs with
  | [] => Some []
  | v :: vs' =>
      match into_elem v (hd zero backing) with
      | Some e => cons e <$> into_elems zero into_elem vs' (tl backing)
      | None => None
      end
  end.

Definition into_slice {T : Type} (zero : T) (into_elem : json → T → option T)
    (v : json) (cur : slice T) : option (slice T) :=
  match v with
  | JNull => Some nil_slice
  | JArray [] => Some nil_slice
  | JArray vs =>
      let backing := elems cur ++ spare cur in
      (λ es, {| elems := es; spare := drop (length vs) backing |})
        <$> into_elems zero into_elem vs backing
  | _ => None
  end.

End with_lib.

End json_decode.

(** ** Package [os]: the file system

    The file system is a finite map from cleaned paths to files and
    directories.  A call looks its path up cleaned; the empty path names
    nothing.  Permissions, links and concurrent processes are outside the
    model, so a call fails only for the shape of the tree: the path is
    absent, is of the wrong kind, or is a directory that still has
    entries. *)

Module os.

Definition lookup_path (tree : gmap string Node) (p : string) : option Node :=
  if String.eqb p EmptyString then None else tree !! path.Clean p.

Definition is_name (n : string) : bool :=
  negb (String.eqb n "." || String.eqb n ".." || String.eqb n "/").

(** [p] is an entry of directory [dir]: joining [dir] and the last element
    of [p] gives [p] back. *)
Definition is_child (dir p : string) : bool :=
  is_name (path.Base p)
  && String.eqb (path.Clean (path.Join [dir; path.Base p])) p.

Definition children (tree : gmap string Node) (dir : string) : list DirEntry :=
  (λ pn, {| entryName := path.Base pn.1; entryPath := pn.1 |})
    <$> filter (λ pn : string * Node, is_child dir pn.1 = true) (map_to_list tree).

Definition name_le (a b : DirEntry) : Prop :=
  String.leb (entryName a) (entryName b) = true.

#[global] Instance name_le_dec a b : Decision (name_le a b) :=
  decide (String.leb (entryName a) (entryName b) = true).

Definition info_of (name : string) (n : Node) : FileInfo :=
  {| Name := name; ModTime := node_mtime n; IsDir := node_isDir n |}.

(** [os.Stat]; [None] is an error that [errors.Is(err, os.ErrNotExist)]
    accepts. *)
Definition Stat (p : string) : M (option FileInfo) :=
  λ s, (Ret (info_of (path.Base p) <$> lookup_path (fs s) p), s).

(** [os.ReadDir]: the entries of a directory, sorted by name; [None] is an
    error. *)
Definition ReadDir (dir : string) : M (option (list DirEntry)) :=
  λ s, (Ret match lookup_path (fs s) dir with
            | Some (Directory _) => Some (merge_sort name_le (children (fs s) dir))
            | _ => None
            end, s).

(** [DirEntry.Info]: stats the entry when it is called, and fails when the
    entry is gone. *)
Definition Info (e : DirEntry) : M (option FileInfo) :=
  λ s, (Ret (info_of (entryName e) <$> fs s !! entryPath e), s).

(** [os.Remove]; [false] is an error. *)
Definition Remove (p : string) : M bool :=
  λ s, match lookup_path (fs s) p with
       | None => (Ret false, s)
       | Some (File _ _) => (Ret true, set_fs (delete (path.Clean p)) s)
       | Some (Directory _) =>
           match children (fs s) (path.Clean p) with
           | [] => (Ret true, set_fs (delete (path.Clean p)) s)
           | _ :: _ => (Ret false, s)
           end
       end.

Section with_world.
Context (w : World).

(** [os.Create]: an empty file stamped with the current time, replacing a
    file that is there; [false] is an error.  The program has checked the
    parent directory before it calls. *)
Definition Create (p : string) : M bool :=
  λ s, if String.eqb p EmptyString then (Ret false, s)
       else match fs s !! path.Clean p with
            | Some (Directory _) => (Ret false, s)
            | _ => (Ret true, set_fs <[path.Clean p := File (clock_now w) EmptyString]> s)
            end.

End with_world.

End os.

(** ** Packages [io] and [os/exec] *)

Module io.

Section with_world.
Context (w : World).

(** [io.Copy(file, src)] into the file opened at [p]: the bytes that fit are
    written; the call reports their number, and an error when the room ran
    out or the source broke. *)
Definition Copy (p : string) (src : Reader) : M (Z * bool) :=
  λ s, let written := match disk_room w with
                      | Some room => String.substring 0 room (data src)
                      | None => data src
                      end in
       let complete := (String.length written =? String.length (data src))%nat
                       && negb (broken src) in
       match fs s !! path.Clean p with
       | Some (File _ old) =>
           (Ret (Z.of_nat (String.length written), complete),
            set_fs <[path.Clean p := File (clock_now w) (old ++ written)%string]> s)
       | _ => (Ret (0, false), s)
       end.

End with_world.

End io.

Module exec.

Section with_world.
Context (w : World).

(** [exec.Command(argv...).Output()] *)
Definition Output (argv : list string) : M CmdResult :=
  λ s, (Ret (exec_Output w (calls s) argv), add_call argv s).

End with_world.

End exec.

(** ** Package [api] ([api/microsoft.go]) *)

Module api.

(** The interface [NewMicrosoft] returns. *)
Record API : Type := { Get : M string }.

(** [fmt.Sprintf(apiUrl, country, locale)] *)
Definition apiUrl (country locale : string) : string :=
  ("https://fd.api.iris.microsoft.com/v4/api/selection?&placement=88000820&bcnt=1&country="
     ++ country ++ "&locale=" ++ locale ++ "&fmt=json")%string.

(** The decoded response: [body], and [metadata] for the string in its
    first item. *)
Record item : Type := { Item : string }.
Record batchrsp : Type := { Items : json_decode.slice item }.
Record body : Type := { Batchrsp : batchrsp }.

Record landscapeImage : Type := { Asset : string }.
Record ad : Type := { LandscapeImage : landscapeImage }.
Record metadata : Type := { Ad : ad }.

Definition zero_item : item := {| Item := EmptyString |}.
Definition zero_body : body :=
  {| Batchrsp := {| Items := json_decode.nil_slice |} |}.
Definition zero_metadata : metadata :=
  {| Ad := {| LandscapeImage := {| Asset := EmptyString |} |} |}.

(** Lines 45 to 57 of [Get]: the locale and the country of a [LANG] value.
    An empty list of segments is the error; the first, respectively last,
    segment is taken otherwise. *)
Definition resolveLocale (lang : string) : error + string * string :=
  let l := strings.Split lang "."%char in
  match l with
  | [] => inl (ErrParseLocale l)
  | l0 :: _ =>
      let locale := strings.ReplaceAll l0 "_"%char "-"%char in
      let c := strings.Split locale "-"%char in
      match c with
      | [] => inl (ErrParseCountry locale)
      | c0 :: _ => inr (locale, List.last c c0)
      end
  end.

Section with_world.
Context `{GoLib} (w : World).

Import json_decode.

Definition into_item : json → item → option item :=
  into_struct "Item" Item Build_item into_string.

Definition into_body : json → body → option body :=
  into_struct "Batchrsp" Batchrsp Build_body
    (into_struct "Items" Items Build_batchrsp
       (into_slice zero_item into_item)).

Definition into_metadata : json → metadata → option metadata :=
  into_struct "Ad" Ad Build_metadata
    (into_struct "LandscapeImage" LandscapeImage Build_ad
       (into_struct "Asset" Asset Build_landscapeImage into_string)).

(** [json.NewDecoder(r).Decode(&v)] for a zero [v]. *)
Definition Decode {T : Type} (into : json → T → option T) (zero : T) (r : Reader)
  : option T :=
  match json_scan r with
  | Some v => into v zero
  | None => None
  end.

Definition microsoft_Get : M string :=
  let lang := env_LANG w in
  log LevelDebug "read LANG variable" [("value", VStr lang)] >>
  match resolveLocale lang with
  | inl e => fail e
  | inr (locale, country) =>
      log LevelDebug "determined localization"
        [("locale", VStr locale); ("country", VStr country)] >>
      let url := apiUrl country locale in
      log LevelDebug "calling api" [("url", VStr url)] >>
      match http_Get w url with
      | inl err => fail (ErrApiRequest err)
      | inr res =>
          log LevelDebug "received api response" [] >>
          if negb (StatusCode res =? StatusOK) then fail (ErrApiStatus (StatusCode res))
          else
            match Decode into_body zero_body (Body res) with
            | None => fail ErrDecodeBody
            | Some body =>
                match elems (Items (Batchrsp body)) with
                | [] => fail ErrNoImages
                | it :: _ =>
                    let item := Item it in
                    log LevelDebug "decoded image metadata" [("value", VStr item)] >>
                    match Decode into_metadata zero_metadata (NewReader item) with
                    | None => fail ErrDecodeMetadata
                    | Some metadata => ret (Asset (LandscapeImage (Ad metadata)))
                    end
                end
            end
      end
  end.

Definition NewMicrosoft : API := {| Get := microsoft_Get |}.

End with_world.

End api.

(** ** Package [main] ([main.go]) *)

(** [Application] without its logger, whose output is the [logs] of the
    state. *)
Record Application : Type := { dir : string; preserve : Z }.

Definition imagePrefix : string := "gnome-spotlight_".

(** [s[:hi]] for a slice with elements [l] and capacity [cap]: the slots
    behind the elements hold the zero value, here [None]. *)
Definition slice_to {A : Type} (l : list A) (cap : nat) (hi : Z)
  : option (list (option A)) :=
  if (0 <=? hi) && (hi <=? Z.of_nat cap)
  then Some (take (Z.to_nat hi) ((Some <$> l) ++ replicate (cap - length l) None))
  else None.

Definition dconfKeys : list string :=
  [ "/org/gnome/desktop/background/picture-uri";
    "/org/gnome/desktop/background/picture-uri-dark";
    "/org/gnome/desktop/screensaver/picture-uri" ].

(** [fmt.Sprintf("'file://%s'", imagePath)] *)
Definition dconfValue (imagePath : string) : string :=
  ("'file://" ++ imagePath ++ "'")%string.

Section with_world.
Context `{GoLib} (w : World) (a : Application).

(** The first loop of [cleanImages]: the [FileInfo] of every entry whose
    name has the prefix, appended to [files]. *)
Fixpoint collectManaged (entries : list DirEntry) (files : list FileInfo)
  : M (list FileInfo) :=
  match entries with
  | [] => ret files
  | entry :: rest =>
      if strings.HasPrefix (entryName entry) imagePrefix then
        log LevelDebug "found managed image" [("value", VStr (entryName entry))] >>
        let* info := os.Info entry in
        match info with
        | None => fail ErrFileInfo
        | Some info => collectManaged rest (files ++ [info])
        end
      else collectManaged rest files
  end.

(** The second loop of [cleanImages].  A zero [os.FileInfo] is a nil
    interface, and calling [Name] on it panics. *)
Fixpoint removeFiles (files : list (option FileInfo)) : M unit :=
  match files with
  | [] => ret tt
  | None :: _ => panic "invalid memory address or nil pointer dereference"
  | Some file :: rest =>
      log LevelInfo "deleting image" [("value", VStr (Name file))] >>
      let* removed := os.Remove (path.Join [dir a; Name file]) in
      if removed : bool then removeFiles rest else fail ErrDeleteImage
  end.

(** [cleanImages] deletes old images if current number is higher than
    preserve threshold. *)
Definition cleanImages (preserve : Z) : M unit :=
  if preserve =? 0 then ret tt
  else
    let* entries := os.ReadDir (dir a) in
    match entries with
    | None => fail ErrReadDir
    | Some entries =>
        let* files := collectManaged entries [] in
        let len := Z.of_nat (length files) in
        if len <=? int_wrap preserve then ret tt
        else
          log LevelInfo "found more images than target amount, deleting oldest"
            [("current", VInt len); ("target", VInt preserve)] >>
          let sorted := slices_SortFunc (λ a b, ModTime a ?= ModTime b) files in
          match slice_to sorted (append_cap (length files))
                  (int_wrap (len - int_wrap preserve)) with
          | None => panic "slice bounds out of range"
          | Some oldest => removeFiles oldest
          end
    end.

(** The loop of [writeToDconf]. *)
Fixpoint writeKeys (imagePath : string) (keys : list string) : M unit :=
  match keys with
  | [] => ret tt
  | key :: rest =>
      let value := dconfValue imagePath in
      log LevelInfo "writing dconf entry" [("key", VStr key); ("value", VStr value)] >>
      let* out := exec.Output w ["dconf"; "write"; key; value] in
      match out with
      | CmdOk _ => writeKeys imagePath rest
      | CmdExit stderr => fail (ErrDconfExit stderr)
      | CmdError cause => fail (ErrDconfExec cause)
      end
  end.

(** [writeToDconf] sets dconf entries for background image to
    [imagePath]. *)
Definition writeToDconf (imagePath : string) : M unit :=
  writeKeys imagePath dconfKeys.

(** [newImage] downloads a new image. *)
Definition newImage : M string :=
  let* url := wrap ErrGetUrl (api.Get (api.NewMicrosoft w)) in
  log LevelInfo "fetched new image from api" [] >>
  log LevelDebug "extraced image url from response" [("value", VStr url)] >>
  match http_Get w url with
  | inl err => fail (ErrFetchImage err)
  | inr res =>
      if negb (StatusCode res =? StatusOK) then fail (ErrImageStatus (StatusCode res))
      else
        log LevelInfo "downloaded image" [] >>
        let* info := os.Stat (dir a) in
        match info with
        | None => fail ErrStatDir
        | Some info =>
            if negb (IsDir info) then fail ErrNotDirectory
            else
              let p := path.Join [dir a; (imagePrefix ++ path.Base url)%string] in
              let* found := os.Stat p in
              match found with
              | Some _ => fail ErrImageExists
              | None =>
                  let* created := os.Create w p in
                  if negb created then fail ErrCreateFile
                  else
                    let* '(n, copied) := io.Copy w p (Body res) in
                    if negb copied then fail ErrWriteFile
                    else
                      log LevelInfo "wrote image to file"
                        [("bytes", VInt n); ("path", VStr p)] >>
                      ret p
              end
        end
  end.

(** [Run] is the main entrypoint of the application. *)
Definition Run : M unit :=
  let* p := wrap ErrNewImage newImage in
  wrap ErrWriteDconf (writeToDconf p) >>
  wrap ErrCleanImages (cleanImages (preserve a)).

End with_world.

(** ** A reference library

    An executable instance of [GoLib], used to run the program on concrete
    inputs: merge sort, capacities that double, upper-casing of ASCII
    letters, and a scanner for JSON texts without [\u] escapes. *)

Module reference.

Definition quote : ascii := "034"%char.

(** Writes a text with the single quotes of [s] as double quotes. *)
Definition dq (s : string) : string := strings.ReplaceAll s "'"%char quote.

Definition is_space (c : ascii) : bool :=
  match nat_of_ascii c with
  | 32%nat | 9%nat | 10%nat | 13%nat => true
  | _ => false
  end.

Fixpoint skip_space (s : string) : string :=
  match s with
  | String c s' => if is_space c then skip_space s' else s
  | EmptyString => s
  end.

Definition unescape (c : ascii) : option ascii :=
  match nat_of_ascii c with
  | 34%nat | 92%nat | 47%nat => Some c
  | 98%nat => Some (ascii_of_nat 8)
  | 102%nat => Some (ascii_of_nat 12)
  | 110%nat => Some (ascii_of_nat 10)
  | 114%nat => Some (ascii_of_nat 13)
  | 116%nat => Some (ascii_of_nat 9)
  | _ => None
  end.

(** The rest of a string literal after its opening quote, and what follows
    the closing quote. *)
Fixpoint scan_string (s : string) : option (string * string) :=
  match s with
  | EmptyString => None
  | String c s' =>
      if Ascii.eqb c quote then Some (EmptyString, s')
      else if Ascii.eqb c "092"%char then
        match s' with
        | String e s'' =>
            match unescape e, scan_string s'' with
            | Some u, Some (str, rest) => Some (String u str, rest)
            | _, _ => None
            end
        | EmptyString => None
        end
      else if (nat_of_ascii c <? 32)%nat then None
      else match scan_string s' with
           | Some (str, rest) => Some (String c str, rest)
           | None => None
           end
  end.

Definition is_number_byte (c : ascii) : bool :=
  let n := nat_of_ascii c in
  ((48 <=? n) && (n <=? 57))%nat
  || Ascii.eqb c "-"%char || Ascii.eqb c "+"%char || Ascii.eqb c "."%char
  || Ascii.eqb c "e"%char || Ascii.eqb c "E"%char.

Fixpoint scan_number (s : string) : string * string :=
  match s with
  | String c s' =>
      if is_number_byte c
      then let '(lit, rest) := scan_number s' in (String c lit, rest)
      else (EmptyString, s)
  | EmptyString => (EmptyString, s)
  end.

Definition scan_word (word : string) (v : json) (s : string) : option (json * string) :=
  if String.prefix word s
  then Some (v, String.substring (String.length word)
                  (String.length s - String.length word) s)
  else None.

(** One value at the start of [s]; [fuel] bounds the nesting and the number
    of members. *)
Fixpoint scan_value (fuel : nat) (s : string) : option (json * string) :=
  match fuel with
  | O => None
  | S fuel =>
      let scan_elems :=
        fix scan_elems (n : nat) (s : string) : option (list json * string) :=
          match n with
          | O => None
          | S n =>
              match scan_value fuel s with
              | Some (v, rest) =>
                  match skip_space rest with
                  | String "," rest' =>
                      match scan_elems n rest' with
                      | Some (vs, rest'') => Some (v :: vs, rest'')
                      | None => None
                      end
                  | String "]" rest' => Some ([v], rest')
                  | _ => None
                  end
              | None => None
              end
          end in
      let scan_members :=
        fix scan_members (n : nat) (s : string)
          : option (list (string * json) * string) :=
          match n with
          | O => None
          | S n =>
              match skip_space s with
              | String q s1 =>
                  if Ascii.eqb q quote then
                    match scan_string s1 with
                    | Some (key, s2) =>
                        match skip_space s2 with
                        | String ":" s3 =>
                            match scan_value fuel s3 with
                            | Some (v, rest) =>
                                match skip_space rest with
                                | String "," rest' =>
                                    match scan_members n rest' with
                                    | Some (ms, rest'') => Some ((key, v) :: ms, rest'')
                                    | None => None
                                    end
                                | String "}" rest' => Some ([(key, v)], rest')
                                | _ => None
                                end
                            | None => None
                            end
                        | _ => None
                        end
                    | None => None
                    end
                  else None
              | EmptyString => None
              end
          end in
      match skip_space s with
      | EmptyString => None
      | String c s' =>
          if Ascii.eqb c quote then
            match scan_string s' with
            | Some (str, rest) => Some (JString str, rest)
            | None => None
            end
          else if Ascii.eqb c "{"%char then
            match skip_space s' with
            | String "}" rest => Some (JObject [], rest)
            | _ =>
                match scan_members (String.length s') s' with
                | Some (ms, rest) => Some (JObject ms, rest)
                | None => None
                end
            end
          else if Ascii.eqb c "["%char then
            match skip_space s' with
            | String "]" rest => Some (JArray [], rest)
            | _ =>
                match scan_elems (String.length s') s' with
                | Some (vs, rest) => Some (JArray vs, rest)
                | None => None
                end
            end
          else if Ascii.eqb c "t"%char then scan_word "true" (JBool true) (String c s')
          else if Ascii.eqb c "f"%char then scan_word "false" (JBool false) (String c s')
          else if Ascii.eqb c "n"%char then scan_word "null" JNull (String c s')
          else if is_number_byte c then
            let '(lit, rest) := scan_number (String c s') in Some (JNumber lit, rest)
          else None
      end
  end.

Definition scan (r : Reader) : option json :=
  fst <$> scan_value (S (String.length (data r))) (data r).

Definition cmp_le {A : Type} (cmp : A → A → comparison) (x y : A) : Prop :=
  cmp x y ≠ Gt.

#[global] Instance cmp_le_dec {A} (cmp : A → A → comparison) x y
  : Decision (cmp_le cmp x y).
Proof. unfold cmp_le. solve_decision. Defined.

Definition SortFunc (A : Type) (cmp : A → A → comparison) (l : list A) : list A :=
  merge_sort (cmp_le cmp) l.

(** Capacity after [n] appends: doubled whenever the slice is full. *)
Fixpoint cap_after (n : nat) : nat :=
  match n with
  | O => O
  | S m => let c := cap_after m in
           if (S m <=? c)%nat then c else Nat.max 1 (2 * c)
  end.

Definition foldEq (a b : string) : bool :=
  String.eqb (ascii_upper a) (ascii_upper b).

Definition lib : GoLib.
Proof.
  refine {| slices_SortFunc := SortFunc; append_cap := cap_after;
            json_scan := scan; json_foldEq := foldEq |}.
  - intros A cmp l. apply merge_sort_Permutation.
  - intros A key l. unfold SortFunc.
    set (R := cmp_le (λ a b : A, key a ?= key b)).
    assert (Total R) as HT.
    { intros x y. unfold R, cmp_le. rewrite !Z.compare_gt_iff. lia. }
    assert (Transitive R) as HTr.
    { intros x y z. unfold R, cmp_le. rewrite !Z.compare_gt_iff. lia. }
    pose proof (@Sorted_StronglySorted _ R HTr _ (Sorted_merge_sort R l)) as HS.
    induction HS as [|x xs _ IH Hx]; constructor; [exact IH|].
    eapply Forall_impl; [exact Hx|].
    intros y. unfold R, cmp_le. rewrite Z.compare_gt_iff. lia.
  - reflexivity.
  - induction n as [|n IH]; [simpl; lia|].
    cbn [cap_after]. cbv zeta.
    destruct (Nat.leb_spec (S n) (cap_after n)); lia.
  - reflexivity.
Defined.

End reference.

(** ** Concrete worlds

    A service that answers the request for locale [en-US] with one envelope
    and serves one image, a background directory, and a dconf that accepts
    every write. *)

Module example.

Definition metadataText : string :=
  reference.dq "{'ad':{'landscapeImage':{'asset':'http://x/img.jpg'}}}".

(** The envelope, with [metadataText] escaped inside a string. *)
Definition envelope : string :=
  reference.dq
    "{'batchrsp':{'ver':'1.0','items':[{'item':'{\'ad\':{\'landscapeImage\':{\'asset\':\'http://x/img.jpg\'}}}'}]}}".

Definition emptyEnvelope : string :=
  reference.dq "{'batchrsp':{'ver':'1.0','items':[]}}".

Definition ok (text : string) : string + Response :=
  inr {| StatusCode := StatusOK; Body := NewReader text |}.

Definition world (lang envelope image : string) (room : option nat)
    (run : list (list string) → list string → CmdResult) : World :=
  {| env_LANG := lang;
     http_Get := λ url,
       if String.eqb url (api.apiUrl "US" "en-US") then ok envelope
       else if String.eqb url "http://x/img.jpg" then ok image
       else inl "no such host";
     clock_now := 100;
     disk_room := room;
     exec_Output := run |}.

Definition accept : list (list string) → list string → CmdResult :=
  λ _ _, CmdOk EmptyString.

(** A dconf that fails from its second invocation on. *)
Definition rejectSecond : list (list string) → list string → CmdResult :=
  λ before _,
    match before with
    | [] => CmdOk EmptyString
    | _ :: _ => CmdExit "error: Could not connect"
    end.

Definition usual : World := world "en_US.UTF-8" envelope "JPEGDATA" None accept.

Definition app : Application := {| dir := "/bg"; preserve := 3 |}.

Definition state (tree : list (string * Node)) : State :=
  {| fs := list_to_map tree; logs := []; calls := [] |}.

Definition emptyDir : State := state [("/bg", Directory 0)].

(** Four managed files with different times, and a file that is not
    managed. *)
Definition fourImages : State :=
  state [ ("/bg", Directory 0);
          ("/bg/gnome-spotlight_a.jpg", File 10 "a");
          ("/bg/gnome-spotlight_b.jpg", File 40 "b");
          ("/bg/gnome-spotlight_c.jpg", File 20 "c");
          ("/bg/gnome-spotlight_d.jpg", File 30 "d");
          ("/bg/notes.txt", File 5 "n") ].

Definition threeImages : State :=
  state [ ("/bg", Directory 0);
          ("/bg/gnome-spotlight_a.jpg", File 10 "a");
          ("/bg/gnome-spotlight_b.jpg", File 40 "b");
          ("/bg/gnome-spotlight_c.jpg", File 20 "c") ].

Definition withImage : State :=
  state [ ("/bg", Directory 0);
          ("/bg/gnome-spotlight_img.jpg", File 7 "yesterday") ].

(** The example service with a file system that takes three bytes. *)
Definition smallDisk : World := world "en_US.UTF-8" envelope "JPEGDATA" (Some 3%nat) accept.

(** The example service serving a shorter image under the same URL. *)
Definition shortImage : World := world "en_US.UTF-8" envelope "JPEG" None accept.

(** Envelopes that are well-formed JSON but not what [Get] expects: the ad
    has no image, there is no batch at all, the asset is a number, and the
    second item is a number. *)
Definition noAssetEnvelope : string :=
  reference.dq "{'batchrsp':{'items':[{'item':'{\'ad\':{\'title\':\'x\'}}'}]}}".

Definition noItemsEnvelope : string := reference.dq "{'ver':'1.0'}".

Definition numberAssetEnvelope : string :=
  reference.dq
    "{'batchrsp':{'items':[{'item':'{\'ad\':{\'landscapeImage\':{\'asset\':7}}}'}]}}".

Definition badItemEnvelope : string :=
  reference.dq "{'batchrsp':{'items':[{'item':'{}'},7]}}".

Definition serving (envelope : string) : World :=
  world "en_US.UTF-8" envelope "JPEGDATA" None accept.

(** A file system without the background directory, and one where a file
    stands in its place. *)
Definition noDir : State := state [("/home", Directory 0)].

Definition dirIsFile : State := state [("/bg", File 1 "not a directory")].

(** Two managed images written at the same time, and an older one. *)
Definition twins : State :=
  state [ ("/bg", Directory 0);
          ("/bg/gnome-spotlight_a.jpg", File 10 "a");
          ("/bg/gnome-spotlight_b.jpg", File 10 "b");
          ("/bg/gnome-spotlight_c.jpg", File 5 "c") ].

(** The application with cleanup switched off. *)
Definition keepAll : Application := {| dir := "/bg"; preserve := 0 |}.

(** The example service with a dconf that fails at its second write. *)
Definition dconfDown : World :=
  world "en_US.UTF-8" envelope "JPEGDATA" None rejectSecond.

(** Three managed images stamped later than the clock of the example
    worlds. *)
Definition futureImages : State :=
  state [ ("/bg", Directory 0);
          ("/bg/gnome-spotlight_a.jpg", File 200 "a");
          ("/bg/gnome-spotlight_b.jpg", File 300 "b");
          ("/bg/gnome-spotlight_c.jpg", File 400 "c") ].

End example.

(** ** Vocabulary of the properties *)

(** The command line of one dconf write. *)
Definition dconfWrite (imagePath key : string) : list string :=
  ["dconf"; "write"; key; dconfValue imagePath].

Definition cmdFailed (r : CmdResult) : Prop :=
  match r with CmdOk _ => False | _ => True end.

(** The path [newImage] stores the image of [url] at. *)
Definition imagePath (a : Application) (url : string) : string :=
  path.Join [dir a; (imagePrefix ++ path.Base url)%string].

(** The copy of [src] into a new file cannot complete: the source breaks,
    or the file system has less room than the source has bytes. *)
Definition copyFails (w : World) (src : Reader) : Prop :=
  broken src = true
  ∨ ∃ room, disk_room w = Some room ∧ (room < String.length (data src))%nat.

(** The state in which [newImage] looks at the target path. *)
Definition beforeStat (url : string) (s1 : State) : State :=
  add_log {| level := LevelInfo; message := "downloaded image"; attrs := [] |}
    (add_log {| level := LevelDebug; message := "extraced image url from response";
                attrs := [("value", VStr url)] |}
       (add_log {| level := LevelInfo; message := "fetched new image from api";
                   attrs := [] |} s1)).

(** What [io.Copy] writes of [src], and whether that is all of it. *)
Definition written (w : World) (src : Reader) : string :=
  match disk_room w with
  | Some room => String.substring 0 room (data src)
  | None => data src
  end.

Definition copyComplete (w : World) (src : Reader) : bool :=
  (String.length (written w src) =? String.length (data src))%nat
  && negb (broken src).

(** The last record [newImage] logs. *)
Definition wroteImage (n : Z) (p : string) : LogRec :=
  {| level := LevelInfo; message := "wrote image to file";
     attrs := [("bytes", VInt n); ("path", VStr p)] |}.

(** [p] is a managed image of [dir]: an entry of the directory whose name
    starts with the prefix. *)
Definition isManaged (dir p : string) : bool :=
  os.is_child dir p && strings.HasPrefix (path.Base p) imagePrefix.

(** The managed images of [dir], each with its path. *)
Definition managed (tree : gmap string Node) (dir : string) : list (string * Node) :=
  filter (λ pn : string * Node, isManaged dir pn.1 = true) (map_to_list tree).

Definition modTimes (l : list (string * Node)) : list Z :=
  (λ pn, node_mtime pn.2) <$> l.

(** How many managed images of [dir] were modified after time [t]. *)
Definition newer (tree : gmap string Node) (dir : string) (t : Z) : nat :=
  length (filter (λ pn : string * Node, t < node_mtime pn.2) (managed tree dir)).

(** The [FileInfo] the cleanup holds for a managed image. *)
Definition fileOf (pn : string * Node) : FileInfo :=
  os.info_of (path.Base pn.1) pn.2.

(** The path the cleanup removes for a [FileInfo]. *)
Definition keyOf (dir : string) (f : FileInfo) : string :=
  path.Clean (path.Join [dir; Name f]).

(** What [Info] returns for an entry in a given tree. *)
Definition infoAt (tree : gmap string Node) (e : DirEntry) : option FileInfo :=
  os.info_of (entryName e) <$> tree !! entryPath e.

(** The test of the first loop of [cleanImages]. *)
Definition hasPrefix (e : DirEntry) : Prop :=
  strings.HasPrefix (entryName e) imagePrefix = true.

#[global] Instance hasPrefix_dec e : Decision (hasPrefix e) :=
  decide (strings.HasPrefix (entryName e) imagePrefix = true).

(** Among the members [ms] of an object, exactly one has a key that matches
    [field], and its value is [v]. *)
Definition selects `{GoLib} (field : string) (ms : list (string * json)) (v : json)
  : Prop :=
  ∃ pre k post,
    ms = pre ++ (k, v) :: post
    ∧ json_decode.field_match field k = true
    ∧ Forall (λ kv : string * json, json_decode.field_match field kv.1 = false)
        (pre ++ post).

(** No member of [ms] has a key that matches [field]. *)
Definition lacks `{GoLib} (field : string) (ms : list (string * json)) : Prop :=
  Forall (λ kv : string * json, json_decode.field_match field kv.1 = false) ms.

(** The value at the end of the chain of [fields] below [v] is missing:
    somewhere along the chain there is [null], or an object without the next
    member. *)
Fixpoint absent `{GoLib} (fields : list string) (v : json) : Prop :=
  match fields with
  | [] => v = JNull
  | f :: fields' =>
      v = JNull
      ∨ ∃ ms, v = JObject ms
              ∧ (lacks f ms ∨ ∃ x, selects f ms x ∧ absent fields' x)
  end.

(** [v] cannot be stored into a struct, respectively into a string. *)
Definition notObject (v : json) : Prop :=
  match v with JNull | JObject _ => False | _ => True end.

Definition notString (v : json) : Prop :=
  match v with JNull | JString _ => False | _ => True end.

(** The state after [cleanImages] has logged that it will delete. *)
Definition deletingLogged (k : Z) (files : list FileInfo) (s : State) : State :=
  add_log {| level := LevelInfo;
             message := "found more images than target amount, deleting oldest";
             attrs := [("current", VInt (Z.of_nat (length files))); ("target", VInt k)] |}
    s.

(** An element [path.Clean] keeps as a name: not empty, not a dot or two,
    and without a slash. *)
Definition pathElem (e : string) : Prop :=
  e ≠ EmptyString ∧ e ≠ "." ∧ e ≠ ".."
  ∧ strings.ContainsByte e path.slash = false.

(** The output of [path.Clean] while it works, last element first: names
    above the [..] elements that could not be cancelled, of which a rooted
    path has none. *)
Definition cleanStack (rooted : bool) (out : list string) : Prop :=
  ∃ names n,
    out = names ++ replicate n ".."
    ∧ Forall pathElem names
    ∧ (rooted = true → n = 0%nat).

(** The three steps of [path.Clean] on a path that is not empty: whether
    it is rooted, the stack of its elements, and the text of a stack. *)
Definition isRooted (p : string) : bool :=
  match p with
  | String c _ => Ascii.eqb c path.slash
  | EmptyString => false
  end.

Definition cleanOut (p : string) : list string :=
  fold_left (path.clean_elem (isRooted p)) (strings.Split p path.slash) [].

Definition render (rooted : bool) (out : list string) : string :=
  let body := strings.Join (rev out) "/" in
  if rooted then String path.slash body
  else if String.eqb body EmptyString then "." else body.

(** The name of the file [newImage] writes for [url]: the prefix and the
    last element of the URL; for a URL of slashes only, whose last element
    is a slash, the prefix alone. *)
Definition imageName (url : string) : string :=
  if String.eqb (path.Base url) "/" then imagePrefix
  else (imagePrefix ++ path.Base url)%string.

(** Where [path.Join] starts from for a directory: nothing for the empty
    one, which it leaves out. *)
Definition dirRooted (d : string) : bool :=
  if String.eqb d EmptyString then false else isRooted d.

Definition dirOut (d : string) : list string :=
  if String.eqb d EmptyString then [] else cleanOut d.

(** An item of a well-formed envelope: an object with one [item] member,
    which is a string. *)
Definition itemObject `{GoLib} (v : json) : Prop :=
  ∃ ms item, v = JObject ms ∧ selects "Item" ms (JString item).

(** * Properties *)

#[local] Arguments String.append !_ _ / : simpl nomatch.
#[local] Arguments imagePrefix : simpl never.
#[local] Arguments path.Join : simpl never.
#[local] Arguments path.Clean : simpl never.
#[local] Arguments path.Base : simpl never.

(** ** The library models on concrete inputs *)

Example Split_LANG : strings.Split "en_US.UTF-8" "."%char = ["en_US"; "UTF-8"].
Proof. reflexivity. Qed.

Example Split_empty : strings.Split EmptyString "."%char = [EmptyString].
Proof. reflexivity. Qed.

Example Clean_examples :
  map path.Clean ["a//b/./c/.."; "/../a"; "../../x"; "a/.."; "/"; "a/b/"; EmptyString]
  = ["a/b"; "/a"; "../../x"; "."; "/"; "a/b"; "."].
Proof. reflexivity. Qed.

Example Join_examples :
  map path.Join [["/home/u"; "img.jpg"]; [EmptyString; "x"]; ["."; "x"]; ["d"; "p_/"]]
  = ["/home/u/img.jpg"; "x"; "x"; "d/p_"].
Proof. reflexivity. Qed.

Example Base_examples :
  map path.Base ["http://x/img.jpg"; "///"; "a/b/"; "img"; EmptyString]
  = ["img.jpg"; "/"; "b"; "img"; "."].
Proof. reflexivity. Qed.

Example int_wrap_examples :
  map int_wrap [0; 3; 2 ^ 63 - 1; 2 ^ 63; 2 ^ 64 - 1] = [0; 3; 2 ^ 63 - 1; - 2 ^ 63; -1].
Proof. reflexivity. Qed.

(** ** Strings *)

Section string_facts.

Lemma Split_nonempty s sep : strings.Split s sep ≠ [].
Proof.
  destruct s as [|c s]; simpl; [discriminate|].
  destruct (Ascii.eqb c sep); [discriminate|].
  destruct (strings.Split s sep); discriminate.
Qed.

(** A separator between two strings separates their segments. *)
Lemma Split_app s t sep :
  strings.Split (s ++ String sep t) sep = strings.Split s sep ++ strings.Split t sep.
Proof.
  induction s as [|c s IH]; simpl.
  - rewrite Ascii.eqb_refl. reflexivity.
  - destruct (Ascii.eqb c sep); [by rewrite IH|].
    rewrite IH.
    pose proof (Split_nonempty s sep) as Hne.
    destruct (strings.Split s sep); [done|reflexivity].
Qed.

Lemma Split_absent s sep :
  strings.ContainsByte s sep = false → strings.Split s sep = [s].
Proof.
  induction s as [|c s IH]; simpl; [done|].
  intros [Hc Hs]%orb_false_iff.
  rewrite Hc, (IH Hs). reflexivity.
Qed.

Lemma ReplaceAll_app s t old new :
  strings.ReplaceAll (s ++ t) old new
  = (strings.ReplaceAll s old new ++ strings.ReplaceAll t old new)%string.
Proof. induction s as [|c s IH]; simpl; [done|by rewrite IH]. Qed.

Lemma ReplaceAll_absent s old new :
  strings.ContainsByte s old = false → strings.ReplaceAll s old new = s.
Proof.
  induction s as [|c s IH]; simpl; [done|].
  intros [Hc Hs]%orb_false_iff. by rewrite Hc, (IH Hs).
Qed.

Lemma last_snoc {A} (l : list A) (x d : A) : List.last (l ++ [x]) d = x.
Proof. apply List.last_last. Qed.

End string_facts.

(** ** The locale of a [LANG] value *)

Section locale.

Lemma append_assoc (s t u : string) :
  ((s ++ t) ++ u)%string = (s ++ t ++ u)%string.
Proof. induction s as [|d s IH]; cbn; [done|by rewrite IH]. Qed.

Lemma ContainsByte_app s t c :
  strings.ContainsByte (s ++ t) c
  = strings.ContainsByte s c || strings.ContainsByte t c.
Proof.
  induction s as [|d s IH]; cbn; [done|].
  rewrite IH. by rewrite orb_assoc.
Qed.

(** The segment lists are never empty, so neither error of
    [resolveLocale] can be returned. *)
Lemma resolveLocale_total lang :
  ∃ locale country, api.resolveLocale lang = inr (locale, country).
Proof.
  unfold api.resolveLocale.
  pose proof (Split_nonempty lang "."%char) as Hl.
  destruct (strings.Split lang "."%char) as [|l0 l]; [done|].
  cbv zeta.
  pose proof (Split_nonempty (strings.ReplaceAll l0 "_"%char "-"%char) "-"%char) as Hc.
  destruct (strings.Split _ "-"%char) as [|c0 c]; [done|].
  eauto.
Qed.

End locale.

(** C3: a [LANG] value of the form lang_REGION.enc, where lang has no dot
    and no underscore and REGION has no dot, underscore or hyphen, resolves
    to the locale lang-REGION and the country REGION. *)
Theorem C3_resolveLocale_conventional (lang region enc : string) :
  strings.ContainsByte lang "."%char = false →
  strings.ContainsByte lang "_"%char = false →
  strings.ContainsByte region "."%char = false →
  strings.ContainsByte region "_"%char = false →
  strings.ContainsByte region "-"%char = false →
  api.resolveLocale (lang ++ "_" ++ region ++ "." ++ enc)
  = inr ((lang ++ "-" ++ region)%string, region).
Proof.
  intros Hl1 Hl2 Hr1 Hr2 Hr3.
  unfold api.resolveLocale.
  replace (lang ++ "_" ++ region ++ "." ++ enc)%string
    with ((lang ++ "_" ++ region) ++ String "."%char enc)%string.
  2:{ by rewrite !append_assoc. }
  rewrite Split_app.
  rewrite (Split_absent (lang ++ "_" ++ region)).
  2:{ rewrite ContainsByte_app. cbn. by rewrite Hl1, Hr1. }
  cbn [app]. cbv zeta.
  rewrite ReplaceAll_app. cbn [strings.ReplaceAll append].
  rewrite (ReplaceAll_absent lang) by done.
  change (strings.ReplaceAll (String "_"%char region) "_"%char "-"%char)
    with (String "-"%char (strings.ReplaceAll region "_"%char "-"%char)).
  rewrite (ReplaceAll_absent region) by done.
  rewrite Split_app, (Split_absent region) by done.
  pose proof (Split_nonempty lang "-"%char) as Hne.
  destruct (strings.Split lang "-"%char ++ [region]) as [|c0 cs] eqn:E.
  { by destruct (strings.Split lang "-"%char). }
  rewrite <- E, last_snoc. reflexivity.
Qed.

(** C3, at the example of the specification: [en_US.UTF-8]. *)
Lemma C3_resolveLocale_conventional_witness :
  api.resolveLocale "en_US.UTF-8" = inr ("en-US", "US").
Proof.
  exact (C3_resolveLocale_conventional "en" "US" "UTF-8"
           eq_refl eq_refl eq_refl eq_refl eq_refl).
Defined.

(** C4: no [LANG] value makes the locale step fail.  A value without a
    first segment, such as the empty one, goes on with an empty locale and
    an empty country, and one that ends in an underscore with an empty
    country. *)
Theorem C4_resolveLocale_accepts_empty_segments :
  (∀ lang, ∃ locale country, api.resolveLocale lang = inr (locale, country))
  ∧ api.resolveLocale EmptyString = inr (EmptyString, EmptyString)
  ∧ api.resolveLocale ".UTF-8" = inr (EmptyString, EmptyString)
  ∧ api.resolveLocale "en_" = inr ("en-", EmptyString).
Proof.
  split; [exact resolveLocale_total|].
  repeat split; reflexivity.
Qed.

(** ** Running computations *)

Ltac run_step :=
  unfold bind, ret, fail, panic, log, wrap; cbn beta iota zeta.

(** ** The cleanup with retention count zero *)

(** C2: with retention count 0 the cleanup returns at once: it reads no
    directory, writes no log and deletes nothing; the state after it is the
    state before it. *)
Theorem C2_cleanImages_zero_keeps_all `{GoLib} (a : Application) (s : State) :
  cleanImages a 0 s = (Ret tt, s).
Proof. reflexivity. Qed.

(** ** The metadata client *)

Section metadata.
Context `{GoLib}.

Lemma field_match_fold (field key : string) :
  is_ascii field = true → is_ascii key = true →
  ascii_upper field = ascii_upper key →
  json_decode.field_match field key = true.
Proof.
  intros Hf Hk Hu. unfold json_decode.field_match.
  rewrite (json_foldEq_ascii _ _ Hf Hk), Hu, String.eqb_refl.
  apply orb_true_r.
Qed.

(** Storing the metadata object of the service into a zero [metadata]. *)
Lemma into_metadata_asset (U : string) (m : api.metadata) :
  api.into_metadata
    (JObject [("ad", JObject [("landscapeImage", JObject [("asset", JString U)])])])
    m
  = Some {| api.Ad := {| api.LandscapeImage := {| api.Asset := U |} |} |}.
Proof.
  unfold api.into_metadata, json_decode.into_struct. cbn [foldl fst snd].
  rewrite !field_match_fold by reflexivity.
  reflexivity.
Qed.

(** What [Get] does once the response has arrived with status 200. *)
Lemma Get_after_response (w : World) (s : State) locale country res :
  api.resolveLocale (env_LANG w) = inr (locale, country) →
  http_Get w (api.apiUrl country locale) = inr res →
  StatusCode res = StatusOK →
  (api.microsoft_Get w s).1 =
    match api.Decode api.into_body api.zero_body (Body res) with
    | None => Fail ErrDecodeBody
    | Some body =>
        match json_decode.elems (api.Items (api.Batchrsp body)) with
        | [] => Fail ErrNoImages
        | it :: _ =>
            match api.Decode api.into_metadata api.zero_metadata
                    (NewReader (api.Item it)) with
            | None => Fail ErrDecodeMetadata
            | Some metadata =>
                Ret (api.Asset (api.LandscapeImage (api.Ad metadata)))
            end
        end
    end.
Proof.
  intros Hloc Hget Hok. unfold api.microsoft_Get. run_step.
  rewrite Hloc. cbn beta iota zeta. rewrite Hget. cbn beta iota zeta.
  rewrite Hok. cbn.
  destruct (api.Decode api.into_body _ _) as [b|]; [|done].
  destruct (json_decode.elems _) as [|it ?]; [done|].
  destruct (api.Decode api.into_metadata _ _); done.
Qed.

Lemma foldl_skip {S T : Type} (field : string) (get : S → T) (mk : T → S)
    (into_field : json → T → option T) (ms : list (string * json)) (acc : option S) :
  lacks field ms →
  foldl (λ acc kv,
           match acc with
           | Some c =>
               if json_decode.field_match field kv.1
               then mk <$> into_field kv.2 (get c)
               else Some c
           | None => None
           end) acc ms = acc.
Proof.
  unfold lacks. revert acc. induction ms as [|[k v] ms IH]; intros acc Hno; [done|].
  apply Forall_cons in Hno as [Hk Hms]. cbn [foldl fst snd] in Hk |- *.
  destruct acc as [c|]; [rewrite Hk|]; by apply IH.
Qed.

(** An object without a matching member leaves the struct as it is. *)
Lemma into_struct_lacks {S T : Type} (field : string) (get : S → T) (mk : T → S)
    (into_field : json → T → option T) (ms : list (string * json)) (cur : S) :
  lacks field ms →
  json_decode.into_struct field get mk into_field (JObject ms) cur = Some cur.
Proof. intros Hno. unfold json_decode.into_struct. by apply foldl_skip. Qed.

(** An object with one matching member stores that member; the other
    members and the case of the key do not matter. *)
Lemma into_struct_selects {S T : Type} (field : string) (get : S → T) (mk : T → S)
    (into_field : json → T → option T) (ms : list (string * json)) (v : json)
    (cur : S) :
  selects field ms v →
  json_decode.into_struct field get mk into_field (JObject ms) cur
  = mk <$> into_field v (get cur).
Proof.
  intros (pre & k & post & -> & Hk & Hno).
  apply Forall_app in Hno as [Hpre Hpost].
  unfold json_decode.into_struct. rewrite foldl_app. cbn [foldl fst snd].
  rewrite (foldl_skip field get mk into_field pre (Some cur) Hpre), Hk.
  by apply foldl_skip.
Qed.

Lemma into_item_selects (first : list (string * json)) (item : string) (cur : api.item) :
  selects "Item" first (JString item) →
  api.into_item (JObject first) cur = Some {| api.Item := item |}.
Proof.
  intros Hsel. unfold api.into_item.
  by rewrite (into_struct_selects _ _ _ _ _ _ _ Hsel).
Qed.

(** The items of a well-formed envelope can all be stored. *)
Lemma into_elems_items (others : list json) (backing : list api.item) :
  Forall itemObject others →
  is_Some (json_decode.into_elems api.zero_item api.into_item others backing).
Proof.
  intros Hall. revert backing.
  induction Hall as [|v vs (ms & item & -> & Hsel) _ IH]; intros backing; [by eexists|].
  cbn [json_decode.into_elems]. rewrite (into_item_selects ms item _ Hsel).
  destruct (IH (tl backing)) as [es ->]. by eexists.
Qed.

(** C5: for an envelope that is a JSON object with a [batchrsp] object, in
    it a list of [items] that is not empty, each item an object with an
    [item] string, where the string in the first item is the JSON text
    [{"ad":{"landscapeImage":{"asset":U}}}], [Get] returns [U].  Other
    members of the envelope and the case of its keys do not matter. *)
Theorem C5_Get_returns_asset (w : World) (s : State)
    locale country res env rsp first others item (U : string) :
  api.resolveLocale (env_LANG w) = inr (locale, country) →
  http_Get w (api.apiUrl country locale) = inr res →
  StatusCode res = StatusOK →
  json_scan (Body res) = Some (JObject env) →
  selects "Batchrsp" env (JObject rsp) →
  selects "Items" rsp (JArray (JObject first :: others)) →
  selects "Item" first (JString item) →
  Forall itemObject others →
  json_scan (NewReader item)
  = Some (JObject [("ad", JObject [("landscapeImage", JObject [("asset", JString U)])])]) →
  (api.microsoft_Get w s).1 = Ret U.
Proof.
  intros Hloc Hget Hok Henv Hrsp Hitems Hitem Hothers Hmeta.
  rewrite (Get_after_response w s _ _ _ Hloc Hget Hok).
  unfold api.Decode at 1. rewrite Henv. unfold api.into_body.
  rewrite (into_struct_selects _ _ _ _ _ _ _ Hrsp).
  rewrite (into_struct_selects _ _ _ _ _ _ _ Hitems).
  cbn [json_decode.into_slice json_decode.into_elems api.Batchrsp api.Items
       api.zero_body json_decode.elems json_decode.spare json_decode.nil_slice
       app hd tl].
  rewrite (into_item_selects first item _ Hitem).
  destruct (into_elems_items others [] Hothers) as [es ->].
  cbn [fmap option_fmap option_map json_decode.elems api.Items api.Batchrsp api.Item].
  unfold api.Decode. rewrite Hmeta, into_metadata_asset. reflexivity.
Qed.

(** C6: when the envelope decodes and its list of items is empty, [Get]
    fails with the error that the response contains no images, and returns
    no URL. *)
Theorem C6_Get_empty_items (w : World) (s : State) locale country res body :
  api.resolveLocale (env_LANG w) = inr (locale, country) →
  http_Get w (api.apiUrl country locale) = inr res →
  StatusCode res = StatusOK →
  api.Decode api.into_body api.zero_body (Body res) = Some body →
  json_decode.elems (api.Items (api.Batchrsp body)) = [] →
  (api.microsoft_Get w s).1 = Fail ErrNoImages.
Proof.
  intros Hloc Hget Hok Hbody Hitems.
  by rewrite (Get_after_response w s _ _ _ Hloc Hget Hok), Hbody, Hitems.
Qed.

End metadata.

Ltac pick_member pre k post :=
  exists pre, k, post; split; [reflexivity|split; [reflexivity|repeat constructor]].

(** C5, run with the reference library on the envelope of the example
    service, whose inner text names [http://x/img.jpg]. *)
Lemma C5_Get_returns_asset_witness :
  (api.microsoft_Get (H := reference.lib) example.usual example.emptyDir).1
  = Ret "http://x/img.jpg".
Proof.
  eapply (C5_Get_returns_asset (H := reference.lib) example.usual example.emptyDir
            "en-US" "US").
  - reflexivity.
  - reflexivity.
  - reflexivity.
  - reflexivity.
  - pick_member (@nil (string * json)) "batchrsp" (@nil (string * json)).
  - pick_member [("ver", JString "1.0")] "items" (@nil (string * json)).
  - pick_member (@nil (string * json)) "item" (@nil (string * json)).
  - constructor.
  - reflexivity.
Defined.

(** C6, run with the reference library on an envelope without items. *)
Lemma C6_Get_empty_items_witness :
  (api.microsoft_Get (H := reference.lib)
     (example.world "en_US.UTF-8" example.emptyEnvelope "JPEGDATA" None example.accept)
     example.emptyDir).1
  = Fail ErrNoImages.
Proof.
  eapply (C6_Get_empty_items (H := reference.lib) _ example.emptyDir "en-US" "US");
    reflexivity.
Defined.

(** ** The setting writer *)

Section dconf.
Context (w : World).

Lemma writeKeys_calls (imagePath : string) (keys : list string) (s : State) :
  let r := writeKeys w imagePath keys s in
  fs r.2 = fs s ∧
  match r.1 with
  | Ret _ => calls r.2 = calls s ++ (dconfWrite imagePath <$> keys)
  | Fail _ =>
      ∃ n key,
        keys !! n = Some key
        ∧ calls r.2 = calls s ++ (dconfWrite imagePath <$> take (S n) keys)
        ∧ cmdFailed (exec_Output w (calls s ++ (dconfWrite imagePath <$> take n keys))
                       (dconfWrite imagePath key))
  | Panic _ => False
  end.
Proof.
  revert s. induction keys as [|key rest IH]; intros s.
  - cbn. by rewrite app_nil_r.
  - cbn [writeKeys]. run_step. unfold exec.Output. cbn [calls add_log].
    fold (dconfWrite imagePath key).
    destruct (exec_Output w (calls s) (dconfWrite imagePath key)) as [out|err|cause] eqn:E.
    + specialize (IH (add_call (dconfWrite imagePath key)
                        (add_log {| level := LevelInfo;
                                    message := "writing dconf entry";
                                    attrs := [("key", VStr key);
                                              ("value", VStr (dconfValue imagePath))] |} s))).
      cbn zeta in IH. destruct IH as [Hfs IH]. split; [exact Hfs|].
      destruct (writeKeys w imagePath rest _) as [[u|e|r] s'];
        cbn [fst snd] in *; [| |done].
      * rewrite IH. cbn [calls add_call add_log fmap list_fmap].
        by rewrite <- app_assoc.
      * destruct IH as (n & k & Hk & Hcalls & Hfail).
        exists (S n), k. split; [exact Hk|].
        cbn [calls add_call add_log] in Hcalls, Hfail.
        rewrite Hcalls. rewrite <- app_assoc in Hfail |- *.
        split; [reflexivity|exact Hfail].
    + cbn [fst snd]. split; [reflexivity|].
      exists 0%nat, key. cbn. rewrite app_nil_r, E. done.
    + cbn [fst snd]. split; [reflexivity|].
      exists 0%nat, key. cbn. rewrite app_nil_r, E. done.
Qed.

(** The loop stops at the first write that fails, with the error of that
    write, and returns only when every write has succeeded. *)
Lemma writeKeys_stops (imagePath : string) (keys : list string) (s : State) :
  let r := writeKeys w imagePath keys s in
  match r.1 with
  | Ret _ =>
      ∀ n key, keys !! n = Some key →
        ∃ out, exec_Output w (calls s ++ (dconfWrite imagePath <$> take n keys))
                 (dconfWrite imagePath key) = CmdOk out
  | Fail e =>
      ∃ n key,
        keys !! n = Some key
        ∧ calls r.2 = calls s ++ (dconfWrite imagePath <$> take (S n) keys)
        ∧ (∀ m k, (m < n)%nat → keys !! m = Some k →
             ∃ out, exec_Output w (calls s ++ (dconfWrite imagePath <$> take m keys))
                      (dconfWrite imagePath k) = CmdOk out)
        ∧ match exec_Output w (calls s ++ (dconfWrite imagePath <$> take n keys))
                  (dconfWrite imagePath key) with
          | CmdOk _ => False
          | CmdExit stderr => e = ErrDconfExit stderr
          | CmdError cause => e = ErrDconfExec cause
          end
  | Panic _ => False
  end.
Proof.
  revert s. induction keys as [|key rest IH]; intros s.
  - cbn. intros n key Hk. by rewrite lookup_nil in Hk.
  - cbn [writeKeys]. run_step. unfold exec.Output. cbn [calls add_log].
    fold (dconfWrite imagePath key).
    destruct (exec_Output w (calls s) (dconfWrite imagePath key)) as [out|err|cause] eqn:E.
    + specialize (IH (add_call (dconfWrite imagePath key)
                        (add_log {| level := LevelInfo;
                                    message := "writing dconf entry";
                                    attrs := [("key", VStr key);
                                              ("value", VStr (dconfValue imagePath))] |} s))).
      cbn zeta in IH.
      destruct (writeKeys w imagePath rest _) as [[u|e|r] s'];
        cbn [fst snd calls add_call add_log] in *; [| |done].
      * intros [|n] k Hk; cbn [lookup list_lookup] in Hk.
        -- injection Hk as <-. cbn [firstn fmap list_fmap]. rewrite app_nil_r. by exists out.
        -- destruct (IH n k Hk) as [o Ho]. exists o.
           cbn [firstn fmap list_fmap]. by rewrite <- app_assoc in Ho.
      * destruct IH as (n & k & Hk & Hcalls & Hbefore & Hfail).
        exists (S n), k. split; [exact Hk|].
        rewrite <- app_assoc in Hcalls, Hfail. split; [exact Hcalls|]. split; [|exact Hfail].
        intros [|m] k' Hm Hk'; cbn [lookup list_lookup] in Hk'.
        -- injection Hk' as <-. cbn [firstn fmap list_fmap]. rewrite app_nil_r. by exists out.
        -- destruct (Hbefore m k') as [o Ho]; [lia|exact Hk'|]. exists o.
           cbn [firstn fmap list_fmap]. by rewrite <- app_assoc in Ho.
    + cbn [fst snd calls add_call add_log]. exists 0%nat, key.
      split; [reflexivity|]. split; [reflexivity|]. split; [intros m k Hm; lia|].
      cbn [firstn fmap list_fmap]. by rewrite app_nil_r, E.
    + cbn [fst snd calls add_call add_log]. exists 0%nat, key.
      split; [reflexivity|]. split; [reflexivity|]. split; [intros m k Hm; lia|].
      cbn [firstn fmap list_fmap]. by rewrite app_nil_r, E.
Qed.

(** C9: a run of [writeToDconf] that returns has run exactly the three
    writes, in the order background picture, dark variant, screensaver, each
    with the value ['file://P'], and each of them has succeeded.  A run in
    which a write fails stops there: it returns the error of that write, it
    has run the writes up to and including the one that failed, and no other
    command, so the writes before it stand (each of them succeeded) and no
    later key is written.  The file system is not touched. *)
Theorem C9_writeToDconf_writes (imagePath : string) (s : State) :
  let r := writeToDconf w imagePath s in
  let before n := calls s ++ (dconfWrite imagePath <$> take n dconfKeys) in
  fs r.2 = fs s ∧
  match r.1 with
  | Ret _ =>
      calls r.2 = calls s ++
        [ ["dconf"; "write"; "/org/gnome/desktop/background/picture-uri";
           ("'file://" ++ imagePath ++ "'")%string];
          ["dconf"; "write"; "/org/gnome/desktop/background/picture-uri-dark";
           ("'file://" ++ imagePath ++ "'")%string];
          ["dconf"; "write"; "/org/gnome/desktop/screensaver/picture-uri";
           ("'file://" ++ imagePath ++ "'")%string] ]
      ∧ ∀ n key, dconfKeys !! n = Some key →
          ∃ out, exec_Output w (before n) (dconfWrite imagePath key) = CmdOk out
  | Fail e =>
      ∃ n key,
        (n < 3)%nat
        ∧ dconfKeys !! n = Some key
        ∧ calls r.2 = before (S n)
        ∧ (∀ m k, (m < n)%nat → dconfKeys !! m = Some k →
             ∃ out, exec_Output w (before m) (dconfWrite imagePath k) = CmdOk out)
        ∧ cmdFailed (exec_Output w (before n) (dconfWrite imagePath key))
        ∧ match exec_Output w (before n) (dconfWrite imagePath key) with
          | CmdOk _ => False
          | CmdExit stderr => e = ErrDconfExit stderr
          | CmdError cause => e = ErrDconfExec cause
          end
  | Panic _ => False
  end.
Proof.
  pose proof (writeKeys_calls imagePath dconfKeys s) as Hw.
  pose proof (writeKeys_stops imagePath dconfKeys s) as Hs.
  unfold writeToDconf. cbv zeta in *. destruct Hw as [Hfs Hw]. split; [exact Hfs|].
  destruct (writeKeys w imagePath dconfKeys s) as [[u|e|r] s']; cbn [fst snd] in *.
  - split; [exact Hw|exact Hs].
  - destruct Hs as (n & key & Hk & Hcalls & Hbefore & Hfail). exists n, key.
    split; [by apply lookup_lt_Some in Hk|].
    split; [exact Hk|]. split; [exact Hcalls|]. split; [exact Hbefore|].
    split; [|exact Hfail].
    by destruct (exec_Output w _ (dconfWrite imagePath key)).
  - exact Hw.
Qed.

End dconf.

(** A dconf that fails at the second write: the first write stands, the
    third is never run. *)
Example writeToDconf_second_fails :
  let r := writeToDconf
             (example.world "en_US.UTF-8" example.envelope "JPEGDATA" None
                example.rejectSecond)
             "/bg/x.jpg" example.emptyDir in
  r.1 = Fail (ErrDconfExit "error: Could not connect")
  ∧ calls r.2 =
      [ ["dconf"; "write"; "/org/gnome/desktop/background/picture-uri";
         "'file:///bg/x.jpg'"];
        ["dconf"; "write"; "/org/gnome/desktop/background/picture-uri-dark";
         "'file:///bg/x.jpg'"] ].
Proof. split; reflexivity. Qed.

(** ** The image acquirer *)

Section acquire.
Context `{GoLib}.

(** [Get] only writes to the log. *)
Lemma Get_frame (w : World) (s : State) :
  fs (api.microsoft_Get w s).2 = fs s ∧ calls (api.microsoft_Get w s).2 = calls s.
Proof.
  unfold api.microsoft_Get. run_step.
  destruct (api.resolveLocale (env_LANG w)) as [e|[locale country]]; [done|].
  cbn beta iota zeta.
  destruct (http_Get w _) as [err|res]; [done|]. cbn beta iota zeta.
  destruct (negb _); [done|].
  destruct (api.Decode api.into_body _ _) as [b|]; [|done].
  destruct (json_decode.elems _) as [|it ?]; [done|]. cbn beta iota zeta.
  destruct (api.Decode api.into_metadata _ _); done.
Qed.

Lemma Clean_nonempty (p : string) : path.Clean p ≠ EmptyString.
Proof.
  unfold path.Clean. destruct p as [|c p]; [done|]. cbv zeta.
  destruct (Ascii.eqb c path.slash); [done|].
  destruct (String.eqb _ EmptyString) eqn:E; [done|].
  by apply String.eqb_neq in E.
Qed.

Lemma imagePath_nonempty (a : Application) (url : string) :
  imagePath a url ≠ EmptyString.
Proof.
  assert ((imagePrefix ++ path.Base url)%string ≠ EmptyString) as Hp by done.
  unfold imagePath, path.Join.
  rewrite !filter_cons, filter_nil.
  destruct (decide (dir a ≠ EmptyString));
    destruct (decide ((imagePrefix ++ path.Base url)%string ≠ EmptyString));
    try apply Clean_nonempty; done.
Qed.

Lemma lookup_imagePath (tree : gmap string Node) (a : Application) (url : string) :
  os.lookup_path tree (imagePath a url) = tree !! path.Clean (imagePath a url).
Proof.
  unfold os.lookup_path.
  destruct (String.eqb _ EmptyString) eqn:E; [|done].
  apply String.eqb_eq in E. by destruct (imagePath_nonempty a url).
Qed.

(** [newImage] up to the test of the target path. *)
Lemma newImage_to_stat (w : World) (a : Application) (s s1 : State) url res t :
  api.microsoft_Get w s = (Ret url, s1) →
  http_Get w url = inr res →
  StatusCode res = StatusOK →
  os.lookup_path (fs s) (dir a) = Some (Directory t) →
  newImage w a s =
    match fs s !! path.Clean (imagePath a url) with
    | Some _ => (Fail ErrImageExists, beforeStat url s1)
    | None =>
        bind (io.Copy w (imagePath a url) (Body res))
          (λ '(n, copied),
             if negb copied then fail ErrWriteFile
             else
               log LevelInfo "wrote image to file"
                 [("bytes", VInt n); ("path", VStr (imagePath a url))] >>
               ret (imagePath a url))
          (set_fs <[path.Clean (imagePath a url) := File (clock_now w) EmptyString]>
             (beforeStat url s1))
    end.
Proof.
  intros HGet Hhttp Hok Hdir.
  pose proof (Get_frame w s) as [Hfs _]. rewrite HGet in Hfs. cbn [snd] in Hfs.
  unfold newImage, wrap, bind at 1. cbn [api.Get api.NewMicrosoft].
  rewrite HGet. run_step. rewrite Hhttp, Hok. cbn [Z.eqb StatusOK negb Pos.eqb].
  unfold os.Stat at 1. cbn [fs add_log]. rewrite Hfs, Hdir. cbn.
  fold (imagePath a url). unfold os.Stat. cbn [fs add_log].
  rewrite Hfs, lookup_imagePath. fold (beforeStat url s1).
  destruct (fs s !! path.Clean (imagePath a url)) as [n|] eqn:E; cbn; [done|].
  unfold os.Create.
  destruct (String.eqb (imagePath a url) EmptyString) eqn:E0.
  { apply String.eqb_eq in E0. by destruct (imagePath_nonempty a url). }
  cbn [fs beforeStat add_log]. rewrite Hfs, E. cbn. reflexivity.
Qed.

(** [newImage] when the target path is taken. *)
Lemma newImage_exists (w : World) (a : Application) (s s1 : State) url res t node :
  api.microsoft_Get w s = (Ret url, s1) →
  http_Get w url = inr res →
  StatusCode res = StatusOK →
  os.lookup_path (fs s) (dir a) = Some (Directory t) →
  os.lookup_path (fs s) (imagePath a url) = Some node →
  newImage w a s = (Fail ErrImageExists, beforeStat url s1).
Proof.
  intros HGet Hhttp Hok Hdir Hnode.
  rewrite (newImage_to_stat w a s s1 url res t HGet Hhttp Hok Hdir).
  rewrite lookup_imagePath in Hnode. by rewrite Hnode.
Qed.

(** [newImage] when the target path is free: the file is created and holds
    what the copy wrote, whether or not the copy completed. *)
Lemma newImage_copy (w : World) (a : Application) (s s1 : State) url res t :
  api.microsoft_Get w s = (Ret url, s1) →
  http_Get w url = inr res →
  StatusCode res = StatusOK →
  os.lookup_path (fs s) (dir a) = Some (Directory t) →
  os.lookup_path (fs s) (imagePath a url) = None →
  let p := imagePath a url in
  let s3 := set_fs <[path.Clean p := File (clock_now w) (written w (Body res))]>
              (beforeStat url s1) in
  newImage w a s =
    if copyComplete w (Body res)
    then (Ret p, add_log (wroteImage (Z.of_nat (String.length (written w (Body res)))) p) s3)
    else (Fail ErrWriteFile, s3).
Proof.
  intros HGet Hhttp Hok Hdir Hnone p s3.
  rewrite (newImage_to_stat w a s s1 url res t HGet Hhttp Hok Hdir).
  rewrite lookup_imagePath in Hnone. rewrite Hnone.
  unfold bind, io.Copy. cbn [fs set_fs beforeStat add_log].
  rewrite lookup_insert_eq. fold (written w (Body res)).
  fold (copyComplete w (Body res)). cbn [String.append].
  unfold set_fs at 1. cbn [fs logs calls beforeStat add_log set_fs].
  rewrite insert_insert_eq.
  destruct (copyComplete w (Body res)); reflexivity.
Qed.

End acquire.

Section copy_facts.

Lemma substring_prefix (n : nat) (d : string) :
  String.prefix (String.substring 0 n d) d = true.
Proof.
  revert n. induction d as [|c d IH]; intros [|n]; cbn; try done.
  destruct (ascii_dec c c); [apply IH|done].
Qed.

Lemma substring_length (n : nat) (d : string) :
  String.length (String.substring 0 n d) = Nat.min n (String.length d).
Proof.
  revert n. induction d as [|c d IH]; intros [|n]; cbn; try done.
  by rewrite IH.
Qed.

Lemma substring_all (n : nat) (d : string) :
  (String.length d ≤ n)%nat → String.substring 0 n d = d.
Proof.
  revert n. induction d as [|c d IH]; intros [|n]; cbn; try done; [lia|].
  intros Hn. rewrite IH; [done|lia].
Qed.

Lemma written_prefix (w : World) (src : Reader) :
  String.prefix (written w src) (data src) = true.
Proof.
  unfold written. destruct (disk_room w); [apply substring_prefix|].
  apply String.prefix_correct. by rewrite substring_all.
Qed.

Lemma copyFails_incomplete (w : World) (src : Reader) :
  copyFails w src → copyComplete w src = false.
Proof.
  unfold copyFails, copyComplete, written.
  intros [Hb|(room & -> & Hroom)].
  - rewrite Hb. apply andb_false_r.
  - rewrite substring_length.
    destruct (Nat.eqb_spec (Nat.min room (String.length (data src)))
                (String.length (data src))); [lia|done].
Qed.

Lemma copyComplete_written (w : World) (src : Reader) :
  copyComplete w src = true → written w src = data src.
Proof.
  unfold copyComplete, written.
  intros [Hlen _]%andb_true_iff. apply Nat.eqb_eq in Hlen.
  destruct (disk_room w) as [room|]; [|done].
  rewrite substring_length in Hlen. apply substring_all. lia.
Qed.

End copy_facts.

Section acquire_properties.
Context `{GoLib}.

(** A run of [newImage] that returns has passed every check before the
    copy. *)
Lemma newImage_Ret_inv (w : World) (a : Application) (s s' : State) (p : string) :
  newImage w a s = (Ret p, s') →
  ∃ url s1 res t,
    api.microsoft_Get w s = (Ret url, s1)
    ∧ http_Get w url = inr res
    ∧ StatusCode res = StatusOK
    ∧ os.lookup_path (fs s) (dir a) = Some (Directory t).
Proof.
  intros Hrun.
  pose proof (Get_frame w s) as [Hfs _].
  unfold newImage, wrap, bind at 1 in Hrun. cbn [api.Get api.NewMicrosoft] in Hrun.
  destruct (api.microsoft_Get w s) as [[url|e|r] s1] eqn:HGet; [|done..].
  cbn [snd] in Hfs.
  unfold bind, log, ret, fail in Hrun. cbn beta iota zeta in Hrun.
  destruct (http_Get w url) as [err|res] eqn:Hhttp; [done|].
  destruct (StatusCode res =? StatusOK) eqn:Hok; cbn [negb] in Hrun; [|done].
  apply Z.eqb_eq in Hok.
  unfold os.Stat at 1 in Hrun. cbn [fs add_log] in Hrun. rewrite Hfs in Hrun.
  destruct (os.lookup_path (fs s) (dir a)) as [[t c|t]|] eqn:Hdir;
    cbn in Hrun; try done.
  by exists url, s1, res, t.
Qed.

(** C7: when the URL has been resolved and fetched, the target directory
    exists, and the path for the URL's base name is taken, [newImage] fails
    with the error that the image already exists; it has created and written
    nothing, so the file system, and with it the file that is there, is as
    before, and no command has been run. *)
Theorem C7_newImage_refuses_overwrite
    (w : World) (a : Application) (s : State) url res t node :
  (api.microsoft_Get w s).1 = Ret url →
  http_Get w url = inr res →
  StatusCode res = StatusOK →
  os.lookup_path (fs s) (dir a) = Some (Directory t) →
  os.lookup_path (fs s)
    (path.Join [dir a; (imagePrefix ++ path.Base url)%string]) = Some node →
  (newImage w a s).1 = Fail ErrImageExists
  ∧ fs (newImage w a s).2 = fs s
  ∧ calls (newImage w a s).2 = calls s.
Proof.
  intros HGet Hhttp Hok Hdir Hnode.
  pose proof (Get_frame w s) as [Hfs Hcalls].
  destruct (api.microsoft_Get w s) as [o s1] eqn:E. cbn [fst snd] in *. subst o.
  rewrite (newImage_exists w a s s1 url res t node E Hhttp Hok Hdir Hnode).
  cbn [fst snd fs calls beforeStat add_log]. by rewrite Hfs, Hcalls.
Qed.

(** C8: [newImage] returns one value, the path.  On a run that
    returns, the path is the directory joined with the prefix and the base
    name of the URL, the file at that path holds the whole response body,
    and the number of bytes written is the last record of the log. *)
Theorem C8_newImage_returns_path
    (w : World) (a : Application) (s s' : State) (p : string) :
  newImage w a s = (Ret p, s') →
  ∃ url s1 res,
    api.microsoft_Get w s = (Ret url, s1)
    ∧ http_Get w url = inr res
    ∧ p = path.Join [dir a; (imagePrefix ++ path.Base url)%string]
    ∧ fs s' = <[path.Clean p := File (clock_now w) (data (Body res))]> (fs s)
    ∧ logs s' = logs (beforeStat url s1)
                ++ [wroteImage (Z.of_nat (String.length (data (Body res)))) p].
Proof.
  intros Hrun.
  destruct (newImage_Ret_inv w a s s' p Hrun) as (url & s1 & res & t & HGet & Hhttp & Hok & Hdir).
  pose proof (Get_frame w s) as [Hfs _]. rewrite HGet in Hfs. cbn [snd] in Hfs.
  exists url, s1, res. split; [exact HGet|]. split; [exact Hhttp|].
  destruct (os.lookup_path (fs s) (imagePath a url)) as [node|] eqn:Hp.
  { rewrite (newImage_exists w a s s1 url res t node HGet Hhttp Hok Hdir Hp) in Hrun.
    done. }
  rewrite (newImage_copy w a s s1 url res t HGet Hhttp Hok Hdir Hp) in Hrun.
  destruct (copyComplete w (Body res)) eqn:Hc; [|done].
  rewrite (copyComplete_written _ _ Hc) in Hrun.
  injection Hrun as <- <-.
  split; [reflexivity|].
  cbn [fs logs set_fs add_log beforeStat]. by rewrite Hfs.
Qed.

(** C10: when the copy into the new file cannot complete, [newImage] fails
    with the write error and leaves the file it created, holding the bytes
    that were written, a prefix of the body; nothing else in the file system
    has changed.  A later run, from that file system, that resolves a URL
    with the same base name fails with the error that the image already
    exists. *)
Theorem C10_partial_file_stays
    (w : World) (a : Application) (s : State) url res t :
  (api.microsoft_Get w s).1 = Ret url →
  http_Get w url = inr res →
  StatusCode res = StatusOK →
  os.lookup_path (fs s) (dir a) = Some (Directory t) →
  os.lookup_path (fs s) (imagePath a url) = None →
  copyFails w (Body res) →
  (newImage w a s).1 = Fail ErrWriteFile
  ∧ os.lookup_path (fs (newImage w a s).2) (imagePath a url)
    = Some (File (clock_now w) (written w (Body res)))
  ∧ String.prefix (written w (Body res)) (data (Body res)) = true
  ∧ (∀ q, q ≠ path.Clean (imagePath a url) →
          fs (newImage w a s).2 !! q = fs s !! q)
  ∧ ∀ (w' : World) (s' : State) url' res',
      fs s' = fs (newImage w a s).2 →
      (api.microsoft_Get w' s').1 = Ret url' →
      path.Base url' = path.Base url →
      http_Get w' url' = inr res' →
      StatusCode res' = StatusOK →
      (newImage w' a s').1 = Fail ErrImageExists ∧ fs (newImage w' a s').2 = fs s'.
Proof.
  intros HGet Hhttp Hok Hdir Hnone Hcopy.
  pose proof (Get_frame w s) as [Hfs _].
  destruct (api.microsoft_Get w s) as [o s1] eqn:E. cbn [fst snd] in *. subst o.
  rewrite (newImage_copy w a s s1 url res t E Hhttp Hok Hdir Hnone).
  cbv zeta. rewrite (copyFails_incomplete _ _ Hcopy).
  cbn [fst snd fs set_fs beforeStat add_log]. rewrite Hfs.
  assert (os.lookup_path
            (<[path.Clean (imagePath a url) := File (clock_now w) (written w (Body res))]>
               (fs s)) (imagePath a url)
          = Some (File (clock_now w) (written w (Body res)))) as Hfile.
  { by rewrite lookup_imagePath, lookup_insert_eq. }
  split; [reflexivity|]. split; [exact Hfile|].
  split; [apply written_prefix|].
  split; [by intros q Hq; rewrite lookup_insert_ne|].
  intros w' s' url' res' Hs' HGet' Hbase Hhttp' Hok'.
  pose proof (Get_frame w' s') as [Hfs' _].
  destruct (api.microsoft_Get w' s') as [o' s1'] eqn:E'. cbn [fst snd] in *. subst o'.
  assert (imagePath a url' = imagePath a url) as Hpath.
  { unfold imagePath. by rewrite Hbase. }
  assert (os.lookup_path (fs s') (dir a) = Some (Directory t)) as Hdir'.
  { rewrite Hs'. unfold os.lookup_path in Hdir |- *.
    destruct (String.eqb (dir a) EmptyString); [done|].
    rewrite lookup_insert_ne; [exact Hdir|].
    intros Heq. rewrite lookup_imagePath, Heq, Hdir in Hnone. done. }
  rewrite (newImage_exists w' a s' s1' url' res' t
             (File (clock_now w) (written w (Body res))) E' Hhttp' Hok' Hdir').
  - cbn [fst snd fs beforeStat add_log]. by rewrite Hfs'.
  - by rewrite Hpath, Hs'.
Qed.

End acquire_properties.

(** C7, run on a directory that holds yesterday's image under the same
    name. *)
Lemma C7_newImage_refuses_overwrite_witness :
  (newImage (H := reference.lib) example.usual example.app example.withImage).1
  = Fail ErrImageExists
  ∧ fs (newImage (H := reference.lib) example.usual example.app example.withImage).2
    = fs example.withImage
  ∧ calls (newImage (H := reference.lib) example.usual example.app example.withImage).2
    = calls example.withImage.
Proof.
  eapply (C7_newImage_refuses_overwrite (H := reference.lib)
            example.usual example.app example.withImage "http://x/img.jpg");
    reflexivity.
Defined.

(** C8, the number of bytes is not returned: two runs return the same
    value although one wrote eight bytes and the other four.  The value
    returned is the path alone; the number of bytes is in the log. *)
Lemma C8_byte_count_not_returned :
  let r1 := newImage (H := reference.lib) example.usual example.app example.emptyDir in
  let r2 := newImage (H := reference.lib) example.shortImage example.app example.emptyDir in
  r1.1 = Ret "/bg/gnome-spotlight_img.jpg"
  ∧ r2.1 = r1.1
  ∧ fs r1.2 !! "/bg/gnome-spotlight_img.jpg" = Some (File 100 "JPEGDATA")
  ∧ fs r2.2 !! "/bg/gnome-spotlight_img.jpg" = Some (File 100 "JPEG")
  ∧ List.last (logs r1.2) (wroteImage 0 EmptyString)
    = wroteImage 8 "/bg/gnome-spotlight_img.jpg"
  ∧ List.last (logs r2.2) (wroteImage 0 EmptyString)
    = wroteImage 4 "/bg/gnome-spotlight_img.jpg".
Proof. vm_compute. repeat split; reflexivity. Qed.

(** C8, run on the example service and an empty directory. *)
Lemma C8_newImage_returns_path_witness :
  ∃ url s1 res,
    api.microsoft_Get (H := reference.lib) example.usual example.emptyDir = (Ret url, s1)
    ∧ http_Get example.usual url = inr res
    ∧ "/bg/gnome-spotlight_img.jpg"
      = path.Join [dir example.app; (imagePrefix ++ path.Base url)%string]
    ∧ fs (newImage (H := reference.lib) example.usual example.app example.emptyDir).2
      = <[path.Clean "/bg/gnome-spotlight_img.jpg" :=
            File (clock_now example.usual) (data (Body res))]> (fs example.emptyDir)
    ∧ logs (newImage (H := reference.lib) example.usual example.app example.emptyDir).2
      = logs (beforeStat url s1)
        ++ [wroteImage (Z.of_nat (String.length (data (Body res))))
              "/bg/gnome-spotlight_img.jpg"].
Proof.
  apply (C8_newImage_returns_path (H := reference.lib)
           example.usual example.app example.emptyDir).
  reflexivity.
Defined.

(** C10, run on a file system with room for three of the eight bytes. *)
Lemma C10_partial_file_stays_witness :
  (newImage (H := reference.lib) example.smallDisk example.app example.emptyDir).1
  = Fail ErrWriteFile
  ∧ os.lookup_path
      (fs (newImage (H := reference.lib) example.smallDisk example.app example.emptyDir).2)
      (imagePath example.app "http://x/img.jpg")
    = Some (File 100 "JPE").
Proof.
  assert (copyFails example.smallDisk (NewReader "JPEGDATA")) as Hcopy.
  { right. exists 3%nat. split; [reflexivity|cbn; lia]. }
  pose proof (C10_partial_file_stays (H := reference.lib)
                example.smallDisk example.app example.emptyDir
                "http://x/img.jpg" {| StatusCode := StatusOK; Body := NewReader "JPEGDATA" |} 0
                eq_refl eq_refl eq_refl eq_refl eq_refl Hcopy) as (Hfail & Hfile & _).
  split; [exact Hfail|exact Hfile].
Defined.

(** ** Sorted lists without repeated keys *)

Section sorted_split.
Context {A : Type} (key : A → Z).

Lemma filter_all (P : A → Prop) `{∀ x, Decision (P x)} (l : list A) :
  (∀ x, x ∈ l → P x) → filter P l = l.
Proof.
  induction l as [|x l IH]; intros Hall; [done|].
  rewrite filter_cons_True by (apply Hall; left).
  f_equal. apply IH. intros y Hy. apply Hall. by right.
Qed.

Lemma filter_none (P : A → Prop) `{∀ x, Decision (P x)} (l : list A) :
  (∀ x, x ∈ l → ¬ P x) → filter P l = [].
Proof.
  induction l as [|x l IH]; intros Hall; [done|].
  rewrite filter_cons_False by (apply Hall; left).
  apply IH. intros y Hy. apply Hall. by right.
Qed.

Lemma StronglySorted_of_fmap {B : Type} (f : B → A) (l : list B) :
  StronglySorted (λ a b, key a ≤ key b) (f <$> l) →
  StronglySorted (λ a b, key (f a) ≤ key (f b)) l.
Proof.
  induction l as [|x l IH]; intros HS; [constructor|].
  rewrite fmap_cons in HS.
  apply StronglySorted_cons in HS as [Hx HS].
  constructor; [by apply IH|].
  rewrite Forall_forall in Hx. apply Forall_forall. intros y Hy.
  apply Hx. by apply list_elem_of_fmap_2.
Qed.

(** In a sorted list without repeated keys, an element of the front part
    has all of the back part after it. *)
Lemma later_of_front (front back : list A) (x : A) :
  StronglySorted (λ a b, key a ≤ key b) (front ++ back) →
  NoDup (key <$> (front ++ back)) →
  x ∈ front →
  (length back ≤ length (filter (λ y, (key x < key y)%Z) (front ++ back)))%nat.
Proof.
  intros HS HN Hx.
  rewrite filter_app, length_app.
  rewrite (filter_all _ back); [lia|].
  intros y Hy.
  pose proof (StronglySorted_app_1_elem_of _ _ _ _ _ HS Hx Hy) as Hle.
  cbn beta in Hle.
  rewrite fmap_app in HN. apply NoDup_app in HN as (_ & Hne & _).
  assert (key x ≠ key y); [|lia].
  intros Heq. apply (Hne (key x)); [by apply list_elem_of_fmap_2|].
  rewrite Heq. by apply list_elem_of_fmap_2.
Qed.

(** An element of the back part has fewer elements after it than the back
    part has elements. *)
Lemma later_of_back (front back : list A) (x : A) :
  StronglySorted (λ a b, key a ≤ key b) (front ++ back) →
  x ∈ back →
  (length (filter (λ y, (key x < key y)%Z) (front ++ back)) < length back)%nat.
Proof.
  intros HS Hx.
  rewrite filter_app, length_app.
  rewrite (filter_none _ front).
  - cbn. apply (length_filter_lt _ _ x); [exact Hx|lia].
  - intros y Hy.
    pose proof (StronglySorted_app_1_elem_of _ _ _ _ _ HS Hy Hx) as Hle.
    cbn beta in Hle. lia.
Qed.

End sorted_split.

(** ** The retention manager *)

Section cleanup.
Context `{GoLib} (a : Application).

Lemma Remove_inv (p : string) (s s2 : State) (o : outcome bool) :
  os.Remove p s = (o, s2) →
  (o = Ret true ∧ s2 = set_fs (delete (path.Clean p)) s
   ∧ is_Some (fs s !! path.Clean p))
  ∨ (o = Ret false ∧ s2 = s).
Proof.
  unfold os.Remove, os.lookup_path.
  destruct (String.eqb p EmptyString).
  { intros [= <- <-]. by right. }
  destruct (fs s !! path.Clean p) as [[t c|t]|] eqn:E.
  - intros [= <- <-]. left. eauto.
  - destruct (os.children (fs s) (path.Clean p)); intros [= <- <-]; [left|right]; eauto.
  - intros [= <- <-]. by right.
Qed.

(** A second loop that returns has deleted exactly the paths of its
    files. *)
Lemma removeFiles_Ret (l : list FileInfo) (s s' : State) :
  removeFiles a (Some <$> l) s = (Ret tt, s') →
  (∀ j, fs s' !! j
        = if decide (j ∈ keyOf (dir a) <$> l) then None else fs s !! j)
  ∧ size (fs s) = (size (fs s') + length l)%nat.
Proof.
  revert s. induction l as [|f l IH]; intros s.
  - cbn. intros [= <-]. split; [|lia].
    intros j. rewrite decide_False; [done|]. apply not_elem_of_nil.
  - rewrite fmap_cons. cbn [removeFiles]. run_step.
    destruct (os.Remove (path.Join [dir a; Name f]) _) as [o s2] eqn:E.
    apply Remove_inv in E as [(-> & -> & Hin)|(-> & ->)]; [|done].
    intros Hrest. apply IH in Hrest as [Hlook Hsize].
    cbn [fs set_fs add_log] in *. fold (keyOf (dir a) f) in *.
    split.
    + intros j. rewrite Hlook, fmap_cons.
      destruct (decide (j = keyOf (dir a) f)) as [->|Hne].
      * rewrite lookup_delete_eq. rewrite (decide_True (P := _ ∈ _ :: _)); [|by left].
        by destruct (decide _).
      * rewrite lookup_delete_ne by done.
        destruct (decide (j ∈ keyOf (dir a) <$> l)) as [Hj|Hj].
        -- rewrite decide_True; [done|by right].
        -- rewrite decide_False; [done|]. by intros [?|?]%elem_of_cons.
    + rewrite map_size_delete_Some in Hsize by done.
      destruct Hin as [n Hn].
      assert (size (fs s) ≠ 0%nat).
      { intros H0. apply map_size_empty_inv in H0. by rewrite H0 in Hn. }
      cbn [length]. lia.
Qed.

(** A second loop that reaches a zero [FileInfo] does not return. *)
Lemma removeFiles_nil (l : list FileInfo) (rest : list (option FileInfo))
    (s s' : State) :
  removeFiles a ((Some <$> l) ++ None :: rest) s ≠ (Ret tt, s').
Proof.
  revert s. induction l as [|f l IH]; intros s.
  - cbn. unfold panic. done.
  - rewrite fmap_cons. cbn [removeFiles app]. run_step.
    destruct (os.Remove (path.Join [dir a; Name f]) _) as [o s2] eqn:E.
    apply Remove_inv in E as [(-> & -> & Hin)|(-> & ->)]; [apply IH|done].
Qed.

End cleanup.

Section listing.

(** The first loop collects the [FileInfo] of every entry with the prefix
    and changes nothing but the log. *)
Lemma collectManaged_ok (entries : list DirEntry) (acc : list FileInfo) (s : State) :
  (∀ e, e ∈ entries → is_Some (fs s !! entryPath e)) →
  ∃ s1,
    collectManaged entries acc s
    = (Ret (acc ++ omap (infoAt (fs s)) (filter hasPrefix entries)), s1)
    ∧ fs s1 = fs s.
Proof.
  revert acc s. induction entries as [|e entries IH]; intros acc s Hin.
  - exists s. cbn. by rewrite app_nil_r.
  - cbn [collectManaged]. rewrite filter_cons.
    unfold decide, hasPrefix_dec, hasPrefix.
    destruct (strings.HasPrefix (entryName e) imagePrefix) eqn:E.
    + rewrite decide_True by done.
      destruct (Hin e) as [n Hn]; [by left|].
      run_step. unfold os.Info. cbn [fs add_log]. rewrite Hn. cbn [fmap option_fmap option_map].
      edestruct (IH (acc ++ [os.info_of (entryName e) n])) as (s1 & Hrun & Hfs).
      2:{ exists s1. rewrite Hrun. split; [|exact Hfs].
          cbn [fs add_log omap list_omap]. unfold infoAt at 2. rewrite Hn.
          cbn. by rewrite <- app_assoc. }
      intros e' He'. cbn [fs add_log]. apply Hin. by right.
    + rewrite decide_False by done.
      apply IH. intros e' He'. apply Hin. by right.
Qed.

Lemma files_of_pairs (tree : gmap string Node) (dir : string)
    (L : list (string * Node)) :
  (∀ pn, pn ∈ L → tree !! pn.1 = Some pn.2) →
  omap (infoAt tree)
    (filter hasPrefix
       ((λ pn, {| entryName := path.Base pn.1; entryPath := pn.1 |})
          <$> filter (λ pn : string * Node, os.is_child dir pn.1 = true) L))
  = fileOf <$> filter (λ pn : string * Node, isManaged dir pn.1 = true) L.
Proof.
  induction L as [|[p n] L IH]; intros Hin; [done|].
  assert (∀ pn, pn ∈ L → tree !! pn.1 = Some pn.2) as Hin'.
  { intros pn Hpn. apply Hin. by right. }
  rewrite !filter_cons. cbn [fst snd].
  destruct (decide (os.is_child dir p = true)) as [Hc|Hc];
    destruct (decide (isManaged dir p = true)) as [Hm|Hm];
    unfold isManaged in Hm.
  - rewrite Hc in Hm. cbn [andb] in Hm.
    rewrite fmap_cons, filter_cons, decide_True by exact Hm.
    cbn [omap list_omap]. unfold infoAt at 1. cbn [entryName entryPath fst snd].
    pose proof (Hin (p, n) ltac:(by left)) as Hp. cbn [fst snd] in Hp.
    rewrite Hp. cbn. by rewrite (IH Hin').
  - rewrite Hc in Hm. cbn [andb] in Hm.
    rewrite fmap_cons, filter_cons, decide_False by exact Hm.
    by apply IH.
  - apply andb_true_iff in Hm as [? _]. done.
  - by apply IH.
Qed.

(** The files the first loop collects from a listing of [dir] are the
    managed images, in some order. *)
Lemma files_of_listing (tree : gmap string Node) (dir : string) :
  omap (infoAt tree) (filter hasPrefix (merge_sort os.name_le (os.children tree dir)))
  ≡ₚ fileOf <$> managed tree dir.
Proof.
  rewrite merge_sort_Permutation. unfold os.children, managed.
  rewrite files_of_pairs; [done|].
  intros [p n] Hpn. by apply elem_of_map_to_list.
Qed.

Lemma listing_in_tree (tree : gmap string Node) (dir : string) (e : DirEntry) :
  e ∈ merge_sort os.name_le (os.children tree dir) → is_Some (tree !! entryPath e).
Proof.
  rewrite merge_sort_Permutation. unfold os.children.
  intros ([p n] & -> & Hpn%list_elem_of_filter)%list_elem_of_fmap.
  destruct Hpn as [_ Hpn]. apply elem_of_map_to_list in Hpn. cbn. eauto.
Qed.

(** The cleanup removes a managed image under the path it has in the
    tree. *)
Lemma keyOf_fileOf (tree : gmap string Node) (dir : string) (pn : string * Node) :
  pn ∈ managed tree dir → keyOf dir (fileOf pn) = pn.1.
Proof.
  unfold managed, isManaged, os.is_child.
  intros [Hm _]%list_elem_of_filter.
  apply andb_true_iff in Hm as [[_ Heq]%andb_true_iff _].
  by apply String.eqb_eq in Heq.
Qed.

End listing.

Section int_facts.

Lemma int_wrap_small (z : Z) : 0 ≤ z < 2 ^ 63 → int_wrap z = z.
Proof.
  intros Hz. unfold int_wrap.
  rewrite Z.mod_small; lia.
Qed.

Lemma int_wrap_big (z : Z) : 2 ^ 63 ≤ z < 2 ^ 64 → int_wrap z = z - 2 ^ 64.
Proof.
  intros Hz. unfold int_wrap.
  replace (z + 2 ^ 63) with ((z - 2 ^ 63) + 1 * 2 ^ 64) by lia.
  rewrite Z.mod_add by lia. rewrite Z.mod_small; lia.
Qed.

End int_facts.

Section cleanup_run.
Context `{GoLib} (a : Application).

(** What a cleanup that returns has done: nothing, when the retention
    count covers the managed images, and otherwise the second loop over the
    front of the images sorted by time. *)
Lemma cleanImages_Ret_inv (k : Z) (s s' : State) :
  let N := length (managed (fs s) (dir a)) in
  1 ≤ k < 2 ^ 64 →
  Z.of_nat N < 2 ^ 63 →
  cleanImages a k s = (Ret tt, s') →
  (Z.of_nat N ≤ k ∧ fs s' = fs s)
  ∨ (k < Z.of_nat N
     ∧ ∃ sorted s1,
         sorted ≡ₚ fileOf <$> managed (fs s) (dir a)
         ∧ StronglySorted (λ f g, ModTime f ≤ ModTime g) sorted
         ∧ fs s1 = fs s
         ∧ removeFiles a (Some <$> take (N - Z.to_nat k) sorted) s1 = (Ret tt, s')).
Proof.
  intros N Hk HN. unfold cleanImages.
  destruct (Z.eqb_spec k 0) as [?|_]; [lia|].
  unfold bind at 1, os.ReadDir.
  destruct (os.lookup_path (fs s) (dir a)) as [[t c|t]|]; [done| |done].
  set (entries := merge_sort os.name_le (os.children (fs s) (dir a))).
  destruct (collectManaged_ok entries [] s) as (s1 & Hrun & Hfs).
  { intros e He. by apply listing_in_tree in He. }
  unfold bind at 1. rewrite Hrun. cbn [app].
  set (files := omap (infoAt (fs s)) (filter hasPrefix entries)).
  assert (files ≡ₚ fileOf <$> managed (fs s) (dir a)) as Hfiles
    by apply files_of_listing.
  assert (length files = N) as Hlen.
  { by rewrite Hfiles, length_fmap. }
  rewrite Hlen.
  destruct (Z.leb_spec (Z.of_nat N) (int_wrap k)) as [Hle|Hgt].
  { intros [= <-]. left. split; [|exact Hfs].
    destruct (Z.lt_ge_cases k (2 ^ 63)) as [Hs|Hb].
    - rewrite int_wrap_small in Hle; lia.
    - rewrite int_wrap_big in Hle; lia. }
  run_step.
  set (sorted := slices_SortFunc _ files).
  assert (sorted ≡ₚ files) as Hperm by apply SortFunc_Permutation.
  assert (length sorted = N) as Hlens by (by rewrite Hperm).
  unfold slice_to. rewrite Hlens.
  pose proof (append_cap_ge N) as Hcap.
  destruct (Z.lt_ge_cases k (2 ^ 63)) as [Hs|Hb].
  - rewrite (int_wrap_small k) in Hgt |- * by lia.
    rewrite (int_wrap_small (_ - _)) by lia.
    destruct (Z.leb_spec 0 (Z.of_nat N - k)) as [_|?]; [|lia].
    destruct (Z.leb_spec (Z.of_nat N - k) (Z.of_nat (append_cap N))) as [_|?]; [|lia].
    cbn [andb]. rewrite take_app_le by (rewrite length_fmap; lia).
    rewrite <- fmap_take.
    replace (Z.to_nat (Z.of_nat N - k)) with (N - Z.to_nat k)%nat by lia.
    intros Hrm. right. split; [lia|].
    exists sorted, (add_log
      {| level := LevelInfo;
         message := "found more images than target amount, deleting oldest";
         attrs := [("current", VInt (Z.of_nat N)); ("target", VInt k)] |} s1).
    split; [by rewrite Hperm|]. split; [apply (SortFunc_Sorted _ ModTime)|].
    split; [exact Hfs|exact Hrm].
  - rewrite (int_wrap_big k) by lia.
    destruct (Z.lt_ge_cases (Z.of_nat N - (k - 2 ^ 64)) (2 ^ 63)) as [Hs|Hb'].
    + rewrite (int_wrap_small (_ - _)) by lia.
      destruct (Z.leb_spec 0 (Z.of_nat N - (k - 2 ^ 64))) as [_|?]; [|lia].
      destruct (Z.leb_spec (Z.of_nat N - (k - 2 ^ 64)) (Z.of_nat (append_cap N)));
        cbn [andb]; [|done].
      rewrite take_app_ge by (rewrite length_fmap; lia).
      rewrite length_fmap, Hlens.
      destruct (append_cap N - N)%nat as [|room] eqn:Hroom; [lia|].
      destruct (Z.to_nat (Z.of_nat N - (k - 2 ^ 64)) - N)%nat as [|more] eqn:Hmore; [lia|].
      cbn [replicate take]. intros Hrm. by apply removeFiles_nil in Hrm.
    + rewrite (int_wrap_big (_ - _)) by lia.
      destruct (Z.leb_spec 0 (Z.of_nat N - (k - 2 ^ 64) - 2 ^ 64)) as [?|_]; [lia|].
      done.
Qed.

End cleanup_run.

Section cleanup_property.
Context `{GoLib} (a : Application).

Lemma managed_spec (tree : gmap string Node) (p : string) (n : Node) :
  (p, n) ∈ managed tree (dir a) ↔ isManaged (dir a) p = true ∧ tree !! p = Some n.
Proof.
  unfold managed. rewrite list_elem_of_filter, elem_of_map_to_list. done.
Qed.

Lemma newer_lt (tree : gmap string Node) (p : string) (n : Node) :
  (p, n) ∈ managed tree (dir a) →
  (newer tree (dir a) (node_mtime n) < length (managed tree (dir a)))%nat.
Proof.
  intros Hin. unfold newer.
  apply (length_filter_lt _ _ (p, n)); [exact Hin|]. cbn. lia.
Qed.

(** C1: for a retention count k of at least 1, a directory whose managed
    images have pairwise different modification times, and a cleanup that
    returns: a managed image is deleted exactly when at least k managed
    images are newer than it, and every other path keeps what it held; so
    min(N, k) managed images remain, the most recent ones, and N - k paths
    (none when N is at most k) are gone.  The count of entries is taken to
    fit Go's [int]. *)
Theorem C1_cleanImages_keeps_most_recent (k : Z) (s s' : State) :
  let N := length (managed (fs s) (dir a)) in
  1 ≤ k < 2 ^ 64 →
  Z.of_nat N < 2 ^ 63 →
  NoDup (modTimes (managed (fs s) (dir a))) →
  cleanImages a k s = (Ret tt, s') →
  (∀ p n, fs s !! p = Some n →
     fs s' !! p =
       if isManaged (dir a) p
          && (k <=? Z.of_nat (newer (fs s) (dir a) (node_mtime n)))
       then None else Some n)
  ∧ (∀ p, fs s !! p = None → fs s' !! p = None)
  ∧ length (managed (fs s') (dir a)) = Nat.min N (Z.to_nat k)
  ∧ size (fs s) = (size (fs s') + (N - Z.to_nat k))%nat.
Proof.
  intros N Hk HN Htimes Hrun.
  destruct (cleanImages_Ret_inv a k s s' Hk HN Hrun)
    as [[Hle Hfs]|(Hlt & sorted & s1 & Hperm & Hsorted & Hfs & Hrm)].
  { (* nothing to delete *)
    rewrite Hfs. fold N. repeat split.
    - intros p n Hp. destruct (isManaged (dir a) p) eqn:Hm; [|done].
      pose proof (newer_lt (fs s) p n (proj2 (managed_spec _ _ _) (conj Hm Hp))).
      fold N in H0. cbn [andb].
      destruct (Z.leb_spec k (Z.of_nat (newer (fs s) (dir a) (node_mtime n)))); [lia|done].
    - done.
    - lia.
    - lia. }
  set (ML := managed (fs s) (dir a)) in *.
  set (tkey := λ pn : string * Node, node_mtime pn.2).
  destruct (Permutation_map_inv fileOf ML Hperm) as (SP & Hsp & HML).
  change (map fileOf SP) with (fileOf <$> SP) in Hsp. subst sorted.
  apply (StronglySorted_of_fmap ModTime fileOf) in Hsorted.
  change (StronglySorted (λ x y, tkey x ≤ tkey y) SP) in Hsorted.
  assert (NoDup (tkey <$> SP)) as Hnd.
  { rewrite <- HML. exact Htimes. }
  assert (length SP = N) as HlenSP by (by rewrite <- HML).
  assert (NoDup SP) as HndSP.
  { rewrite <- HML. apply NoDup_filter, NoDup_map_to_list. }
  set (hi := (N - Z.to_nat k)%nat) in *.
  set (front := take hi SP). set (back := drop hi SP).
  assert (SP = front ++ back) as Hsplit by (symmetry; apply take_drop).
  assert (length back = Z.to_nat k) as Hback.
  { unfold back. rewrite length_drop, HlenSP. unfold hi. lia. }
  rewrite <- fmap_take in Hrm. fold front in Hrm.
  apply removeFiles_Ret in Hrm as [Hlook0 Hsize].
  assert (∀ j, fs s' !! j
               = if decide (j ∈ keyOf (dir a) <$> (fileOf <$> front))
                 then None else fs s1 !! j) as Hlook
    by exact Hlook0.
  clear Hlook0.
  rewrite length_fmap in Hsize.
  assert (length front = hi) as Hfront.
  { unfold front. rewrite length_take, HlenSP. unfold hi. lia. }
  assert (size (fs s) = (size (fs s') + hi)%nat) as Hsize'
    by (rewrite <- Hfs, <- Hfront; exact Hsize).
  assert (∀ p n, (p, n) ∈ SP ↔ isManaged (dir a) p = true ∧ fs s !! p = Some n) as HSP.
  { intros p n. rewrite <- HML. apply managed_spec. }
  assert (∀ p, p ∈ keyOf (dir a) <$> (fileOf <$> front) ↔ ∃ n, (p, n) ∈ front) as Hkeys.
  { intros p. rewrite <- list_fmap_compose, list_elem_of_fmap. split.
    - intros ([q n] & -> & Hq). exists n. cbn.
      rewrite (keyOf_fileOf (fs s) (dir a) (q, n)); [done|].
      fold ML. rewrite HML, Hsplit. apply elem_of_app. by left.
    - intros [n Hn]. exists (p, n). split; [|done]. cbn.
      rewrite (keyOf_fileOf (fs s) (dir a) (p, n)); [done|].
      fold ML. rewrite HML, Hsplit. apply elem_of_app. by left. }
  assert (∀ t, newer (fs s) (dir a) t
               = length (filter (λ pn, t < tkey pn) (front ++ back))) as Hnewer.
  { intros t. unfold newer. fold ML. by rewrite HML, Hsplit. }
  assert (∀ p n, fs s !! p = Some n →
            (∃ n', (p, n') ∈ front)
            ↔ isManaged (dir a) p = true
              ∧ k ≤ Z.of_nat (newer (fs s) (dir a) (node_mtime n))) as Hdel.
  { intros p n Hp. split.
    - intros [n' Hn'].
      assert ((p, n') ∈ SP) as Hin by (rewrite Hsplit; apply elem_of_app; by left).
      apply HSP in Hin as [Hm Hp']. assert (n' = n) as -> by congruence.
      split; [exact Hm|]. rewrite Hnewer.
      rewrite Hsplit in Hsorted, Hnd.
      pose proof (later_of_front tkey front back (p, n) Hsorted Hnd Hn') as Hl.
      unfold tkey in Hl |- *. cbn [snd] in Hl |- *. lia.
    - intros [Hm Hnew].
      assert ((p, n) ∈ SP) as Hin by (by apply HSP).
      rewrite Hsplit in Hin. apply elem_of_app in Hin as [Hf|Hb]; [eauto|].
      rewrite Hsplit in Hsorted.
      pose proof (later_of_back tkey front back (p, n) Hsorted Hb) as Hl.
      rewrite Hnewer in Hnew. unfold tkey in Hl, Hnew. cbn [snd] in Hl, Hnew. lia. }
  assert (∀ p n, fs s' !! p = Some n ↔ fs s !! p = Some n ∧ ¬ ∃ n', (p, n') ∈ front)
    as Hkept.
  { intros p n. rewrite Hlook, Hfs.
    destruct (decide (p ∈ keyOf (dir a) <$> (fileOf <$> front))) as [Hd|Hd];
      rewrite Hkeys in Hd.
    - split; [done|]. by intros [_ Hnot].
    - split; [by intros Hp|by intros [Hp _]]. }
  split; [|split; [|split]].
  - intros p n Hp. rewrite Hlook, Hfs, Hp.
    destruct (decide (p ∈ keyOf (dir a) <$> (fileOf <$> front))) as [Hd|Hd];
      rewrite Hkeys, (Hdel p n Hp) in Hd.
    + destruct Hd as [-> Hnew]. cbn [andb].
      by destruct (Z.leb_spec k (Z.of_nat (newer (fs s) (dir a) (node_mtime n)))); [|lia].
    + destruct (isManaged (dir a) p); [|done]. cbn [andb].
      destruct (Z.leb_spec k (Z.of_nat (newer (fs s) (dir a) (node_mtime n)))); [|done].
      destruct Hd. by split.
  - intros p Hp. rewrite Hlook, Hfs, Hp. by destruct (decide _).
  - assert (managed (fs s') (dir a) ≡ₚ back) as ->.
    { apply NoDup_Permutation.
      - apply NoDup_filter, NoDup_map_to_list.
      - rewrite Hsplit in HndSP. by apply NoDup_app in HndSP as (_ & _ & ?).
      - intros [p n]. rewrite managed_spec, Hkept. split.
        + intros (Hm & Hp & Hnot).
          assert ((p, n) ∈ SP) as Hin by (by apply HSP).
          rewrite Hsplit in Hin. apply elem_of_app in Hin as [Hf|Hb]; [|done].
          destruct Hnot. eauto.
        + intros Hb.
          assert ((p, n) ∈ SP) as Hin by (rewrite Hsplit; apply elem_of_app; by right).
          apply HSP in Hin as [Hm Hp]. split; [done|]. split; [done|].
          intros [n' Hn'].
          assert ((p, n') ∈ SP) as Hin' by (rewrite Hsplit; apply elem_of_app; by left).
          apply HSP in Hin' as [_ Hp']. assert (n' = n) as -> by congruence.
          rewrite Hsplit in HndSP. apply NoDup_app in HndSP as (_ & Hdisj & _).
          by apply (Hdisj (p, n)). }
    rewrite Hback. lia.
  - exact Hsize'.
Qed.

End cleanup_property.

(** C1, run with retention count 2 on a directory with four managed images
    and one other file: the two oldest images go. *)
Lemma C1_cleanImages_keeps_most_recent_witness :
  let s := example.fourImages in
  let s' := (cleanImages (H := reference.lib) example.app 2 s).2 in
  let N := length (managed (fs s) "/bg") in
  (∀ p n, fs s !! p = Some n →
     fs s' !! p =
       if isManaged "/bg" p && (2 <=? Z.of_nat (newer (fs s) "/bg" (node_mtime n)))
       then None else Some n)
  ∧ (∀ p, fs s !! p = None → fs s' !! p = None)
  ∧ length (managed (fs s') "/bg") = Nat.min N 2
  ∧ size (fs s) = (size (fs s') + (N - 2))%nat.
Proof.
  intros s s' N.
  apply (C1_cleanImages_keeps_most_recent (H := reference.lib) example.app 2 s s').
  - lia.
  - vm_compute. reflexivity.
  - apply (bool_decide_unpack (NoDup (modTimes (managed (fs s) (dir example.app))))).
    vm_compute. exact I.
  - assert ((cleanImages (H := reference.lib) example.app 2 s).1 = Ret tt) as E
      by (vm_compute; reflexivity).
    unfold s'. destruct (cleanImages (H := reference.lib) example.app 2 s) as [o s2].
    cbn [fst snd] in *. by subst o.
Defined.

Example cleanImages_fourImages :
  let r := cleanImages (H := reference.lib) example.app 2 example.fourImages in
  r.1 = Ret tt
  ∧ fs r.2 !! "/bg/gnome-spotlight_a.jpg" = None
  ∧ fs r.2 !! "/bg/gnome-spotlight_c.jpg" = None
  ∧ fs r.2 !! "/bg/gnome-spotlight_d.jpg" = Some (File 30 "d")
  ∧ fs r.2 !! "/bg/gnome-spotlight_b.jpg" = Some (File 40 "b")
  ∧ fs r.2 !! "/bg/notes.txt" = Some (File 5 "n").
Proof. vm_compute. repeat split; reflexivity. Qed.

(** With a retention count of 2^64 - 1 the conversion to [int] gives -1
    and the slice expression reaches one slot behind the images.  With four
    images in a slice of capacity four that is out of bounds; with three
    images the slot exists, and the loop deletes every managed image before
    it panics on the empty slot. *)
Example cleanImages_huge_count :
  let r4 := cleanImages (H := reference.lib) example.app (2 ^ 64 - 1) example.fourImages in
  let r3 := cleanImages (H := reference.lib) example.app (2 ^ 64 - 1) example.threeImages in
  r4.1 = Panic "slice bounds out of range"
  ∧ fs r4.2 = fs example.fourImages
  ∧ r3.1 = Panic "invalid memory address or nil pointer dereference"
  ∧ managed (fs r3.2) "/bg" = [].
Proof. vm_compute. repeat split; reflexivity. Qed.

(** * Further properties of the code *)

(** ** More on the locale step *)

Section locale_more.

Lemma Split_segment_free (s : string) (sep : ascii) (x : string) :
  x ∈ strings.Split s sep → strings.ContainsByte x sep = false.
Proof.
  revert x. induction s as [|c s IH]; intros x; cbn.
  - intros ->%list_elem_of_singleton. done.
  - destruct (Ascii.eqb c sep) eqn:E.
    + intros [->|Hx]%elem_of_cons; [done|by apply IH].
    + pose proof (Split_nonempty s sep) as Hne.
      destruct (strings.Split s sep) as [|y ys]; [done|].
      intros [->|Hx]%elem_of_cons.
      * cbn. rewrite E. apply IH. by left.
      * apply IH. by right.
Qed.

Lemma ReplaceAll_removes (s : string) (old new : ascii) :
  old ≠ new → strings.ContainsByte (strings.ReplaceAll s old new) old = false.
Proof.
  intros Hne. induction s as [|c s IH]; cbn; [done|].
  rewrite IH, orb_false_r.
  destruct (Ascii.eqb c old) eqn:E; [|exact E].
  apply Ascii.eqb_neq. congruence.
Qed.

Lemma ReplaceAll_keeps_absent (s : string) (old new c : ascii) :
  c ≠ new → strings.ContainsByte s c = false →
  strings.ContainsByte (strings.ReplaceAll s old new) c = false.
Proof.
  intros Hne. induction s as [|d s IH]; cbn; [done|].
  intros [Hd Hs]%orb_false_iff. rewrite (IH Hs), orb_false_r.
  destruct (Ascii.eqb d old); [|exact Hd].
  apply Ascii.eqb_neq. congruence.
Qed.

Lemma Join_cons2 (x y : string) (l : list string) (sep : string) :
  strings.Join (x :: y :: l) sep = (x ++ sep ++ strings.Join (y :: l) sep)%string.
Proof. reflexivity. Qed.

(** Joining the segments with the separator gives the string back. *)
Lemma Join_Split (s : string) (sep : ascii) :
  strings.Join (strings.Split s sep) (String sep EmptyString) = s.
Proof.
  induction s as [|c s IH]; cbn [strings.Split]; [done|].
  pose proof (Split_nonempty s sep) as Hne.
  destruct (strings.Split s sep) as [|y ys]; [done|].
  destruct (Ascii.eqb_spec c sep) as [->|_].
  - rewrite Join_cons2, IH. reflexivity.
  - destruct ys as [|z zs].
    + cbn in *. by rewrite IH.
    + rewrite Join_cons2 in *. by rewrite <- IH.
Qed.

Lemma Join_last_suffix (l : list string) (sep d : string) :
  l ≠ [] → ∃ pre, strings.Join l sep = (pre ++ List.last l d)%string.
Proof.
  induction l as [|x l IH]; [done|]. intros _.
  destruct l as [|y l].
  - by exists EmptyString.
  - destruct IH as [pre Hpre]; [done|].
    exists (x ++ sep ++ pre)%string.
    rewrite Join_cons2.
    change (List.last (x :: y :: l) d) with (List.last (y :: l) d).
    by rewrite Hpre, !append_assoc.
Qed.

(** The last segment of a string is what follows its last separator. *)
Lemma Split_last_suffix (s : string) (sep : ascii) (d : string) :
  ∃ pre, s = (pre ++ List.last (strings.Split s sep) d)%string.
Proof.
  destruct (Join_last_suffix (strings.Split s sep) (String sep EmptyString) d)
    as [pre Hpre]; [apply Split_nonempty|].
  exists pre. by rewrite <- Hpre, Join_Split.
Qed.

Lemma Join_last_cases (l : list string) (sep d : string) :
  l ≠ [] →
  strings.Join l sep = List.last l d
  ∨ ∃ pre, strings.Join l sep = (pre ++ sep ++ List.last l d)%string.
Proof.
  induction l as [|x l IH]; [done|]. intros _.
  destruct l as [|y l]; [by left|]. right.
  rewrite Join_cons2.
  change (List.last (x :: y :: l) d) with (List.last (y :: l) d).
  destruct IH as [->|[pre ->]]; [done|by exists x|].
  exists (x ++ sep ++ pre)%string. by rewrite !append_assoc.
Qed.

(** A string is its last segment, or ends with a separator followed by its
    last segment. *)
Lemma Split_last_cases (s : string) (sep : ascii) (d : string) :
  s = List.last (strings.Split s sep) d
  ∨ ∃ pre, s = (pre ++ String sep (List.last (strings.Split s sep) d))%string.
Proof.
  pose proof (Join_last_cases (strings.Split s sep) (String sep EmptyString) d
                (Split_nonempty s sep)) as Hj.
  rewrite Join_Split in Hj. exact Hj.
Qed.

(** The first segment of a string is what stands before its first
    separator. *)
Lemma Split_head_cases (s : string) (sep : ascii) :
  ∃ h t,
    strings.Split s sep = h :: t
    ∧ strings.ContainsByte h sep = false
    ∧ (s = h ∨ ∃ tail, s = (h ++ String sep tail)%string).
Proof.
  induction s as [|c s (h & t & Hsplit & Hfree & Hs)]; cbn [strings.Split].
  - exists EmptyString, []. split; [done|]. split; [done|]. by left.
  - destruct (Ascii.eqb_spec c sep) as [->|Hne].
    + exists EmptyString, (strings.Split s sep).
      split; [done|]. split; [done|]. right. by exists s.
    + rewrite Hsplit. exists (String c h), t. split; [done|]. split.
      * cbn. rewrite Hfree, orb_false_r. by apply Ascii.eqb_neq.
      * destruct Hs as [->|[tail ->]]; [by left|right; by exists tail].
Qed.

Lemma ReplaceAll_length (s : string) (old new : ascii) :
  String.length (strings.ReplaceAll s old new) = String.length s.
Proof. induction s as [|c s IH]; cbn; [done|by rewrite IH]. Qed.

Lemma ReplaceAll_get (s : string) (old new : ascii) (i : nat) :
  String.get i (strings.ReplaceAll s old new)
  = (λ c, if Ascii.eqb c old then new else c) <$> String.get i s.
Proof.
  revert i. induction s as [|c s IH]; intros i; cbn; [done|].
  destruct i as [|i]; [done|apply IH].
Qed.

End locale_more.

(** X1: a [LANG] value whose first dot-segment has no underscore and no
    hyphen, such as [C] or [POSIX.UTF-8], gives that segment as the locale
    and as the country. *)
Theorem X1_resolveLocale_without_region (seg enc : string) :
  strings.ContainsByte seg "."%char = false →
  strings.ContainsByte seg "_"%char = false →
  strings.ContainsByte seg "-"%char = false →
  api.resolveLocale seg = inr (seg, seg)
  ∧ api.resolveLocale (seg ++ "." ++ enc) = inr (seg, seg).
Proof.
  intros Hdot Hus Hhy. unfold api.resolveLocale. split.
  - rewrite (Split_absent seg "."%char Hdot). cbv zeta.
    rewrite (ReplaceAll_absent seg _ _ Hus), (Split_absent seg "-"%char Hhy).
    reflexivity.
  - change (seg ++ "." ++ enc)%string with (seg ++ String "."%char enc)%string.
    rewrite Split_app, (Split_absent seg "."%char Hdot). cbn [app]. cbv zeta.
    rewrite (ReplaceAll_absent seg _ _ Hus), (Split_absent seg "-"%char Hhy).
    reflexivity.
Qed.

(** X1, at [LANG=C] and [LANG=C.UTF-8]. *)
Lemma X1_resolveLocale_without_region_witness :
  api.resolveLocale "C" = inr ("C", "C")
  ∧ api.resolveLocale "C.UTF-8" = inr ("C", "C").
Proof.
  exact (X1_resolveLocale_without_region "C" "UTF-8" eq_refl eq_refl eq_refl).
Defined.

(** X2: whatever [LANG] holds, the locale step succeeds, and its result is
    this.  The locale is the part of [LANG] before its first dot, byte for
    byte, with every underscore turned into a hyphen; so it has no dot and
    no underscore.  The country is the part of the locale after its last
    hyphen: it has no hyphen, and the locale is the country itself or ends
    with a hyphen followed by the country. *)
Theorem X2_resolveLocale_shape (lang : string) :
  ∃ head locale country,
    api.resolveLocale lang = inr (locale, country)
    ∧ strings.ContainsByte head "."%char = false
    ∧ (lang = head ∨ ∃ enc, lang = (head ++ "." ++ enc)%string)
    ∧ String.length locale = String.length head
    ∧ (∀ i, String.get i locale
            = (λ c, if Ascii.eqb c "_" then "-"%char else c) <$> String.get i head)
    ∧ strings.ContainsByte locale "."%char = false
    ∧ strings.ContainsByte locale "_"%char = false
    ∧ strings.ContainsByte country "-"%char = false
    ∧ (locale = country ∨ ∃ pre, locale = (pre ++ "-" ++ country)%string).
Proof.
  unfold api.resolveLocale.
  destruct (Split_head_cases lang "."%char) as (l0 & l & -> & Hfree & Hhead).
  cbv zeta.
  set (locale := strings.ReplaceAll l0 "_"%char "-"%char).
  pose proof (Split_nonempty locale "-"%char) as Hc.
  pose proof (Split_segment_free locale "-"%char) as Hcfree.
  pose proof (Split_last_cases locale "-"%char) as Hsuf.
  destruct (strings.Split locale "-"%char) as [|c0 c] eqn:E; [done|].
  exists l0, locale, (List.last (c0 :: c) c0).
  split; [reflexivity|]. split; [exact Hfree|]. split; [exact Hhead|].
  split; [apply ReplaceAll_length|]. split; [intros i; apply ReplaceAll_get|].
  split; [by apply ReplaceAll_keeps_absent|].
  split; [by apply ReplaceAll_removes|].
  split; [|apply Hsuf].
  apply Hcfree. apply list_elem_of_In.
  destruct (List.exists_last (l := c0 :: c)) as (l' & x & Hx); [done|].
  rewrite Hx, List.last_last. apply in_or_app. right. by left.
Qed.

(** For [LANG=zh_Hans_CN.UTF-8] the country is what follows the last
    hyphen of the locale. *)
Example resolveLocale_two_hyphens :
  api.resolveLocale "zh_Hans_CN.UTF-8" = inr ("zh-Hans-CN", "CN").
Proof. reflexivity. Qed.

(** ** More on the metadata client *)

Section metadata_more.
Context `{GoLib}.

(** X3: [Get] changes nothing but the log and never panics.  A transport
    error is returned as such; a response with any status other than 200
    fails with that status whatever its body; after a 200 the only failures
    are the two decode errors and the empty result.  The two parse errors
    cannot come out. *)
Theorem X3_Get_outcomes (w : World) (s : State) :
  ∃ locale country,
    api.resolveLocale (env_LANG w) = inr (locale, country)
    ∧ fs (api.microsoft_Get w s).2 = fs s
    ∧ calls (api.microsoft_Get w s).2 = calls s
    ∧ match http_Get w (api.apiUrl country locale) with
      | inl cause => (api.microsoft_Get w s).1 = Fail (ErrApiRequest cause)
      | inr res =>
          if StatusCode res =? StatusOK
          then match (api.microsoft_Get w s).1 with
               | Ret _ => True
               | Fail e => e = ErrDecodeBody ∨ e = ErrNoImages ∨ e = ErrDecodeMetadata
               | Panic _ => False
               end
          else (api.microsoft_Get w s).1 = Fail (ErrApiStatus (StatusCode res))
      end.
Proof.
  destruct (resolveLocale_total (env_LANG w)) as (locale & country & Hloc).
  exists locale, country. split; [exact Hloc|].
  destruct (Get_frame w s) as [Hfs Hcalls]. split; [exact Hfs|]. split; [exact Hcalls|].
  destruct (http_Get w (api.apiUrl country locale)) as [cause|res] eqn:Hget.
  - unfold api.microsoft_Get. run_step. rewrite Hloc. cbn beta iota zeta.
    by rewrite Hget.
  - destruct (Z.eqb_spec (StatusCode res) StatusOK) as [Hok|Hno].
    + rewrite (Get_after_response w s _ _ _ Hloc Hget Hok).
      destruct (api.Decode api.into_body _ _) as [b|]; [|by left].
      destruct (json_decode.elems _) as [|it ?]; [by right; left|].
      destruct (api.Decode api.into_metadata _ _); [done|by right; right].
    + unfold api.microsoft_Get. run_step. rewrite Hloc. cbn beta iota zeta.
      rewrite Hget. cbn beta iota zeta.
      destruct (Z.eqb_spec (StatusCode res) StatusOK); [done|]. reflexivity.
Qed.

Lemma into_string_notString (v : json) (cur : string) :
  notString v → json_decode.into_string v cur = None.
Proof. by destruct v. Qed.

Lemma into_struct_notObject {S T : Type} (field : string) (get : S → T) (mk : T → S)
    (into_field : json → T → option T) (v : json) (cur : S) :
  notObject v → json_decode.into_struct field get mk into_field v cur = None.
Proof. by destruct v. Qed.

Lemma into_struct_null {S T : Type} (field : string) (get : S → T) (mk : T → S)
    (into_field : json → T → option T) (cur : S) :
  json_decode.into_struct field get mk into_field JNull cur = Some cur.
Proof. reflexivity. Qed.

(** Storing an array fails as soon as one element cannot be stored. *)
Lemma into_elems_fails {T : Type} (zero : T) (into_elem : json → T → option T)
    (vs : list json) (backing : list T) (v : json) :
  v ∈ vs → (∀ cur, into_elem v cur = None) →
  json_decode.into_elems zero into_elem vs backing = None.
Proof.
  intros Hin Hv. revert backing.
  induction vs as [|x vs IH]; intros backing; [by apply elem_of_nil in Hin|].
  cbn [json_decode.into_elems].
  apply elem_of_cons in Hin as [<-|Hin]; [by rewrite Hv|].
  destruct (into_elem x _); [|done]. by rewrite (IH Hin).
Qed.

(** The metadata of an item whose asset is missing is the zero value. *)
Lemma into_metadata_absent (v : json) :
  absent ["Ad"; "LandscapeImage"; "Asset"] v →
  api.into_metadata v api.zero_metadata = Some api.zero_metadata.
Proof.
  unfold api.into_metadata.
  intros [->|(ms & -> & [Hno|(x & Hx & Habs)])]; [done|by apply into_struct_lacks|].
  rewrite (into_struct_selects _ _ _ _ _ _ _ Hx). cbn [api.Ad api.zero_metadata].
  destruct Habs as [->|(ms1 & -> & [Hno|(x1 & Hx1 & Habs)])];
    [done|by rewrite into_struct_lacks|].
  rewrite (into_struct_selects _ _ _ _ _ _ _ Hx1). cbn [api.LandscapeImage].
  destruct Habs as [->|(ms2 & -> & [Hno|(x2 & Hx2 & Habs)])];
    [done|by rewrite into_struct_lacks|].
  rewrite (into_struct_selects _ _ _ _ _ _ _ Hx2). cbn in Habs. by subst x2.
Qed.

(** The body of an envelope without items is the zero value. *)
Lemma into_body_absent (v : json) :
  absent ["Batchrsp"; "Items"] v →
  ∃ b, api.into_body v api.zero_body = Some b
       ∧ json_decode.elems (api.Items (api.Batchrsp b)) = [].
Proof.
  unfold api.into_body.
  intros [->|(ms & -> & [Hno|(x & Hx & Habs)])].
  - by exists api.zero_body.
  - exists api.zero_body. by rewrite into_struct_lacks.
  - rewrite (into_struct_selects _ _ _ _ _ _ _ Hx). cbn [api.Batchrsp api.zero_body].
    destruct Habs as [->|(ms1 & -> & [Hno|(x1 & Hx1 & Habs)])].
    + by exists api.zero_body.
    + exists api.zero_body. by rewrite into_struct_lacks.
    + rewrite (into_struct_selects _ _ _ _ _ _ _ Hx1). cbn in Habs. subst x1.
      by exists api.zero_body.
Qed.

End metadata_more.

Section metadata_json.
Context `{GoLib}.

(** X4: [Get] finds the asset by the member names alone.  At every level of
    the envelope and of the metadata the member is found whatever the case
    of its key and whatever other members stand beside it, provided no
    second key matches the same field and the items after the first can be
    stored too. *)
Theorem X4_Get_ignores_other_members (w : World) (s : State)
    locale country res env rsp first others item meta adv li (U : string) :
  api.resolveLocale (env_LANG w) = inr (locale, country) →
  http_Get w (api.apiUrl country locale) = inr res →
  StatusCode res = StatusOK →
  json_scan (Body res) = Some (JObject env) →
  selects "Batchrsp" env (JObject rsp) →
  selects "Items" rsp (JArray (JObject first :: others)) →
  selects "Item" first (JString item) →
  is_Some (json_decode.into_elems api.zero_item api.into_item others []) →
  json_scan (NewReader item) = Some (JObject meta) →
  selects "Ad" meta (JObject adv) →
  selects "LandscapeImage" adv (JObject li) →
  selects "Asset" li (JString U) →
  (api.microsoft_Get w s).1 = Ret U.
Proof.
  intros Hloc Hget Hok Henv Hrsp Hitems Hitem [es Hes] Hmeta Had Hli Hasset.
  rewrite (Get_after_response w s _ _ _ Hloc Hget Hok).
  unfold api.Decode at 1. rewrite Henv. unfold api.into_body.
  rewrite (into_struct_selects _ _ _ _ _ _ _ Hrsp).
  rewrite (into_struct_selects _ _ _ _ _ _ _ Hitems).
  cbn [json_decode.into_slice json_decode.into_elems api.Batchrsp api.Items
       api.zero_body json_decode.elems json_decode.spare json_decode.nil_slice
       app hd tl].
  rewrite (into_item_selects first item _ Hitem), Hes.
  cbn [fmap option_fmap option_map json_decode.elems api.Items api.Batchrsp api.Item].
  unfold api.Decode. rewrite Hmeta. unfold api.into_metadata.
  rewrite (into_struct_selects _ _ _ _ _ _ _ Had).
  rewrite (into_struct_selects _ _ _ _ _ _ _ Hli).
  rewrite (into_struct_selects _ _ _ _ _ _ _ Hasset).
  reflexivity.
Qed.

(** X5: when the metadata of the first item has no asset (a member on the
    way to it is missing or [null]), [Get] returns the empty string as the
    URL, and no error. *)
Theorem X5_Get_missing_asset (w : World) (s : State)
    locale country res body it rest meta :
  api.resolveLocale (env_LANG w) = inr (locale, country) →
  http_Get w (api.apiUrl country locale) = inr res →
  StatusCode res = StatusOK →
  api.Decode api.into_body api.zero_body (Body res) = Some body →
  json_decode.elems (api.Items (api.Batchrsp body)) = it :: rest →
  json_scan (NewReader (api.Item it)) = Some meta →
  absent ["Ad"; "LandscapeImage"; "Asset"] meta →
  (api.microsoft_Get w s).1 = Ret EmptyString.
Proof.
  intros Hloc Hget Hok Hbody Hitems Hmeta Habs.
  rewrite (Get_after_response w s _ _ _ Hloc Hget Hok), Hbody, Hitems.
  unfold api.Decode. by rewrite Hmeta, (into_metadata_absent _ Habs).
Qed.

(** X6: an envelope without a list of items (the member, or the one above
    it, is missing or [null]) is not a decode error: [Get] fails with the
    error that the response contains no images. *)
Theorem X6_Get_missing_items (w : World) (s : State) locale country res env :
  api.resolveLocale (env_LANG w) = inr (locale, country) →
  http_Get w (api.apiUrl country locale) = inr res →
  StatusCode res = StatusOK →
  json_scan (Body res) = Some env →
  absent ["Batchrsp"; "Items"] env →
  (api.microsoft_Get w s).1 = Fail ErrNoImages.
Proof.
  intros Hloc Hget Hok Henv Habs.
  rewrite (Get_after_response w s _ _ _ Hloc Hget Hok).
  unfold api.Decode at 1. rewrite Henv.
  destruct (into_body_absent _ Habs) as (b & -> & ->). reflexivity.
Qed.

(** X7: metadata of the wrong kind is a decode error: the text in the first
    item is JSON but neither an object nor [null], or its asset is neither a
    string nor [null]. *)
Theorem X7_Get_metadata_of_wrong_kind (w : World) (s : State)
    locale country res body it rest meta :
  api.resolveLocale (env_LANG w) = inr (locale, country) →
  http_Get w (api.apiUrl country locale) = inr res →
  StatusCode res = StatusOK →
  api.Decode api.into_body api.zero_body (Body res) = Some body →
  json_decode.elems (api.Items (api.Batchrsp body)) = it :: rest →
  json_scan (NewReader (api.Item it)) = Some meta →
  (notObject meta
   ∨ ∃ ms adv li v,
       meta = JObject ms
       ∧ selects "Ad" ms (JObject adv)
       ∧ selects "LandscapeImage" adv (JObject li)
       ∧ selects "Asset" li v
       ∧ notString v) →
  (api.microsoft_Get w s).1 = Fail ErrDecodeMetadata.
Proof.
  intros Hloc Hget Hok Hbody Hitems Hmeta Hbad.
  rewrite (Get_after_response w s _ _ _ Hloc Hget Hok), Hbody, Hitems.
  unfold api.Decode. rewrite Hmeta. unfold api.into_metadata.
  destruct Hbad as [Hno|(ms & adv & li & v & -> & Had & Hli & Hasset & Hv)].
  - by rewrite into_struct_notObject.
  - rewrite (into_struct_selects _ _ _ _ _ _ _ Had).
    rewrite (into_struct_selects _ _ _ _ _ _ _ Hli).
    rewrite (into_struct_selects _ _ _ _ _ _ _ Hasset).
    by rewrite (into_string_notString _ _ Hv).
Qed.

(** X8: every item of the envelope is stored, although only the first is
    used: one item that is neither an object nor [null], anywhere in the
    list, makes [Get] fail with the decode error of the body. *)
Theorem X8_Get_bad_later_item (w : World) (s : State)
    locale country res env rsp items bad :
  api.resolveLocale (env_LANG w) = inr (locale, country) →
  http_Get w (api.apiUrl country locale) = inr res →
  StatusCode res = StatusOK →
  json_scan (Body res) = Some (JObject env) →
  selects "Batchrsp" env (JObject rsp) →
  selects "Items" rsp (JArray items) →
  bad ∈ items →
  notObject bad →
  (api.microsoft_Get w s).1 = Fail ErrDecodeBody.
Proof.
  intros Hloc Hget Hok Henv Hrsp Hitems Hin Hbad.
  rewrite (Get_after_response w s _ _ _ Hloc Hget Hok).
  unfold api.Decode at 1. rewrite Henv. unfold api.into_body.
  rewrite (into_struct_selects _ _ _ _ _ _ _ Hrsp).
  rewrite (into_struct_selects _ _ _ _ _ _ _ Hitems).
  destruct items as [|v vs]; [by apply elem_of_nil in Hin|].
  cbn [json_decode.into_slice].
  rewrite (into_elems_fails _ _ _ _ bad Hin); [done|].
  intros cur. by apply into_struct_notObject.
Qed.

End metadata_json.

(** X4, on the envelope of the example service: its keys are in lower case
    and the batch has a [ver] member beside the items. *)
Lemma X4_Get_ignores_other_members_witness :
  (api.microsoft_Get (H := reference.lib) example.usual example.emptyDir).1
  = Ret "http://x/img.jpg".
Proof.
  eapply (X4_Get_ignores_other_members (H := reference.lib)
            example.usual example.emptyDir "en-US" "US").
  - reflexivity.
  - reflexivity.
  - reflexivity.
  - reflexivity.
  - pick_member (@nil (string * json)) "batchrsp" (@nil (string * json)).
  - pick_member [("ver", JString "1.0")] "items" (@nil (string * json)).
  - pick_member (@nil (string * json)) "item" (@nil (string * json)).
  - by eexists.
  - reflexivity.
  - pick_member (@nil (string * json)) "ad" (@nil (string * json)).
  - pick_member (@nil (string * json)) "landscapeImage" (@nil (string * json)).
  - pick_member (@nil (string * json)) "asset" (@nil (string * json)).
Defined.

(** X5, on an item whose ad has a title but no image. *)
Lemma X5_Get_missing_asset_witness :
  (api.microsoft_Get (H := reference.lib)
     (example.serving example.noAssetEnvelope) example.emptyDir).1
  = Ret EmptyString.
Proof.
  eapply (X5_Get_missing_asset (H := reference.lib) _ example.emptyDir "en-US" "US").
  - reflexivity.
  - reflexivity.
  - reflexivity.
  - reflexivity.
  - reflexivity.
  - reflexivity.
  - right. eexists. split; [reflexivity|]. right.
    exists (JObject [("title", JString "x")]). split.
    + pick_member (@nil (string * json)) "ad" (@nil (string * json)).
    + right. eexists. split; [reflexivity|]. left. repeat constructor.
Defined.

(** X6, on an envelope that only has a version. *)
Lemma X6_Get_missing_items_witness :
  (api.microsoft_Get (H := reference.lib)
     (example.serving example.noItemsEnvelope) example.emptyDir).1
  = Fail ErrNoImages.
Proof.
  eapply (X6_Get_missing_items (H := reference.lib) _ example.emptyDir "en-US" "US").
  - reflexivity.
  - reflexivity.
  - reflexivity.
  - reflexivity.
  - right. eexists. split; [reflexivity|]. left. repeat constructor.
Defined.

(** X7, on an item whose asset is the number 7. *)
Lemma X7_Get_metadata_of_wrong_kind_witness :
  (api.microsoft_Get (H := reference.lib)
     (example.serving example.numberAssetEnvelope) example.emptyDir).1
  = Fail ErrDecodeMetadata.
Proof.
  eapply (X7_Get_metadata_of_wrong_kind (H := reference.lib) _ example.emptyDir
            "en-US" "US").
  - reflexivity.
  - reflexivity.
  - reflexivity.
  - reflexivity.
  - reflexivity.
  - reflexivity.
  - right.
    exists [("ad", JObject [("landscapeImage", JObject [("asset", JNumber "7")])])],
           [("landscapeImage", JObject [("asset", JNumber "7")])],
           [("asset", JNumber "7")], (JNumber "7").
    split; [reflexivity|]. split.
    { pick_member (@nil (string * json)) "ad" (@nil (string * json)). }
    split.
    { pick_member (@nil (string * json)) "landscapeImage" (@nil (string * json)). }
    split; [|exact I].
    pick_member (@nil (string * json)) "asset" (@nil (string * json)).
Defined.

(** X8, on a list of items whose second element is the number 7. *)
Lemma X8_Get_bad_later_item_witness :
  (api.microsoft_Get (H := reference.lib)
     (example.serving example.badItemEnvelope) example.emptyDir).1
  = Fail ErrDecodeBody.
Proof.
  eapply (X8_Get_bad_later_item (H := reference.lib) _ example.emptyDir "en-US" "US"
            _ _ _ _ (JNumber "7")).
  - reflexivity.
  - reflexivity.
  - reflexivity.
  - reflexivity.
  - pick_member (@nil (string * json)) "batchrsp" (@nil (string * json)).
  - pick_member (@nil (string * json)) "items" (@nil (string * json)).
  - right. left.
  - exact I.
Defined.

(** ** More on the image acquirer *)

Section acquire_more.
Context `{GoLib}.

Lemma Get_no_panic (w : World) (s : State) (r : string) :
  (api.microsoft_Get w s).1 ≠ Panic r.
Proof.
  unfold api.microsoft_Get. run_step.
  destruct (api.resolveLocale (env_LANG w)) as [e|[locale country]]; [done|].
  cbn beta iota zeta.
  destruct (http_Get w _) as [err|res]; [done|]. cbn beta iota zeta.
  destruct (negb _); [done|].
  destruct (api.Decode api.into_body _ _) as [b|]; [|done].
  destruct (json_decode.elems _) as [|it ?]; [done|]. cbn beta iota zeta.
  destruct (api.Decode api.into_metadata _ _); done.
Qed.

(** Every way [newImage] can end, by the checks in the order of the
    source. *)
Lemma newImage_cases (w : World) (a : Application) (s : State) :
  (∃ e s1, api.microsoft_Get w s = (Fail e, s1)
           ∧ newImage w a s = (Fail (ErrGetUrl e), s1))
  ∨ (∃ r s1, api.microsoft_Get w s = (Panic r, s1)
             ∧ newImage w a s = (Panic r, s1))
  ∨ ∃ url s1, api.microsoft_Get w s = (Ret url, s1) ∧
      ((∃ cause s2, http_Get w url = inl cause
                    ∧ newImage w a s = (Fail (ErrFetchImage cause), s2)
                    ∧ fs s2 = fs s ∧ calls s2 = calls s)
       ∨ ∃ res, http_Get w url = inr res ∧
           ((∃ s2, StatusCode res ≠ StatusOK
                   ∧ newImage w a s = (Fail (ErrImageStatus (StatusCode res)), s2)
                   ∧ fs s2 = fs s ∧ calls s2 = calls s)
            ∨ StatusCode res = StatusOK ∧
                ((∃ s2, os.lookup_path (fs s) (dir a) = None
                        ∧ newImage w a s = (Fail ErrStatDir, s2)
                        ∧ fs s2 = fs s ∧ calls s2 = calls s)
                 ∨ (∃ t c s2, os.lookup_path (fs s) (dir a) = Some (File t c)
                              ∧ newImage w a s = (Fail ErrNotDirectory, s2)
                              ∧ fs s2 = fs s ∧ calls s2 = calls s)
                 ∨ ∃ t, os.lookup_path (fs s) (dir a) = Some (Directory t)))).
Proof.
  pose proof (Get_frame w s) as [Hfs Hcalls].
  remember (newImage w a s) as R eqn:HR.
  unfold newImage, wrap, bind at 1 in HR. cbn [api.Get api.NewMicrosoft] in HR.
  destruct (api.microsoft_Get w s) as [[url|e|r] s1] eqn:HGet; cbn [snd] in Hfs, Hcalls.
  2:{ left. by exists e, s1. }
  2:{ right. left. by exists r, s1. }
  right. right. exists url, s1. split; [done|].
  unfold bind, log, ret, fail in HR. cbn beta iota zeta in HR.
  destruct (http_Get w url) as [cause|res] eqn:Hhttp.
  { left. subst R. eexists _, _. split; [done|]. split; [reflexivity|]. by cbn. }
  right. exists res. split; [done|].
  destruct (Z.eqb_spec (StatusCode res) StatusOK) as [Hok|Hno]; cbn [negb] in HR.
  2:{ left. subst R. eexists. split; [done|]. split; [reflexivity|]. by cbn. }
  right. split; [done|].
  unfold os.Stat at 1 in HR. cbn [fs add_log] in HR. rewrite Hfs in HR.
  destruct (os.lookup_path (fs s) (dir a)) as [[t c|t]|] eqn:Hdir; cbn in HR.
  - right. left. subst R. eexists _, _, _. split; [done|]. split; [reflexivity|]. by cbn.
  - right. right. by exists t.
  - left. subst R. eexists. split; [done|]. split; [reflexivity|]. by cbn.
Qed.

(** However [newImage] ends: no command, no panic, at most one new file. *)
Lemma newImage_touch (w : World) (a : Application) (s : State) :
  let r := newImage w a s in
  calls r.2 = calls s
  ∧ (∀ q n, fs s !! q = Some n → fs r.2 !! q = Some n)
  ∧ (fs r.2 = fs s
     ∨ ∃ url content,
         fs s !! path.Clean (imagePath a url) = None
         ∧ fs r.2 = <[path.Clean (imagePath a url) := File (clock_now w) content]> (fs s))
  ∧ match r.1 with
    | Ret _ => True
    | Fail e => e ≠ ErrWriteFile → fs r.2 = fs s
    | Panic _ => False
    end.
Proof.
  cbv zeta.
  assert (∀ s', fs s' = fs s →
            (∀ q n, fs s !! q = Some n → fs s' !! q = Some n)
            ∧ (fs s' = fs s
               ∨ ∃ url content,
                   fs s !! path.Clean (imagePath a url) = None
                   ∧ fs s' = <[path.Clean (imagePath a url) := File (clock_now w) content]>
                               (fs s))) as Hsame.
  { intros s' Hs'. split; [by rewrite Hs'|by left]. }
  pose proof (Get_frame w s) as [Hfs Hcalls].
  destruct (newImage_cases w a s)
    as [(e & s1 & HGet & ->)|[(r & s1 & HGet & ->)|(url & s1 & HGet & Hrest)]].
  - rewrite HGet in Hfs, Hcalls. cbn [fst snd] in *.
    split; [done|]. destruct (Hsame s1 Hfs). done.
  - exfalso. apply (Get_no_panic w s r). by rewrite HGet.
  - rewrite HGet in Hfs, Hcalls. cbn [snd] in Hfs, Hcalls.
    destruct Hrest as [(cause & s2 & _ & -> & Hfs2 & Hc2)
                      |(res & Hhttp & [(s2 & _ & -> & Hfs2 & Hc2)
                                      |(Hok & [(s2 & _ & -> & Hfs2 & Hc2)
                                              |[(t & c & s2 & _ & -> & Hfs2 & Hc2)
                                               |(t & Hdir)]])])];
      cbn [fst snd]; try (split; [done|]; destruct (Hsame s2 Hfs2); done).
    destruct (os.lookup_path (fs s) (imagePath a url)) as [node|] eqn:Hp.
    + rewrite (newImage_exists w a s s1 url res t node HGet Hhttp Hok Hdir Hp).
      cbn [fst snd calls fs beforeStat add_log].
      split; [done|]. destruct (Hsame s1 Hfs). done.
    + rewrite (newImage_copy w a s s1 url res t HGet Hhttp Hok Hdir Hp). cbv zeta.
      rewrite lookup_imagePath in Hp.
      assert (∀ q n, fs s !! q = Some n →
                <[path.Clean (imagePath a url) :=
                    File (clock_now w) (written w (Body res))]> (fs s) !! q = Some n)
        as Hkeep.
      { intros q n Hq. rewrite lookup_insert_ne; [done|]. congruence. }
      destruct (copyComplete w (Body res));
        cbn [fst snd calls fs set_fs beforeStat add_log]; rewrite Hfs;
        (split; [done|]); (split; [exact Hkeep|]); (split; [right; eauto|]); done.
Qed.

(** X9: however [newImage] ends, it has run no command, it has not
    panicked, and the file system is as before except possibly for one new
    file; an entry that was there is still there, unchanged.  The one
    failure that leaves the new file behind is the write error. *)
Theorem X9_newImage_frame (w : World) (a : Application) (s : State) :
  let r := newImage w a s in
  calls r.2 = calls s
  ∧ (∀ q n, fs s !! q = Some n → fs r.2 !! q = Some n)
  ∧ (fs r.2 = fs s
     ∨ ∃ url content,
         fs s !! path.Clean (imagePath a url) = None
         ∧ fs r.2 = <[path.Clean (imagePath a url) := File (clock_now w) content]> (fs s))
  ∧ match r.1 with
    | Ret _ => True
    | Fail e => e ≠ ErrWriteFile → fs r.2 = fs s
    | Panic _ => False
    end.
Proof. exact (newImage_touch w a s). Qed.

(** X10: the target directory is looked at only after the image has been
    fetched.  When it is missing, [newImage] fails with the error of the
    stat call, and when it is a file, with the error that it is not a
    directory; in both cases nothing has been written. *)
Theorem X10_newImage_directory_check
    (w : World) (a : Application) (s : State) url res :
  (api.microsoft_Get w s).1 = Ret url →
  http_Get w url = inr res →
  StatusCode res = StatusOK →
  (os.lookup_path (fs s) (dir a) = None →
     (newImage w a s).1 = Fail ErrStatDir ∧ fs (newImage w a s).2 = fs s)
  ∧ (∀ t c, os.lookup_path (fs s) (dir a) = Some (File t c) →
       (newImage w a s).1 = Fail ErrNotDirectory ∧ fs (newImage w a s).2 = fs s).
Proof.
  intros HGet Hhttp Hok.
  destruct (newImage_cases w a s)
    as [(e & s1 & HGet' & _)|[(r & s1 & HGet' & _)|(url' & s1 & HGet' & Hrest)]];
    rewrite HGet' in HGet; cbn [fst] in HGet; try done.
  injection HGet as ->.
  destruct Hrest as [(cause & s2 & Hh & _)|(res' & Hhttp' & Hrest)]; [congruence|].
  assert (res' = res) as -> by congruence.
  destruct Hrest as [(s2 & Hno & _)|(_ & [(s2 & Hdir & -> & Hfs2 & _)
                                          |[(t & c & s2 & Hdir & -> & Hfs2 & _)
                                           |(t & Hdir)]])]; [done|..];
    split; try (intros; congruence); try (intros ? ? ?; congruence); done.
Qed.

End acquire_more.

(** X10, without the directory and with a file in its place. *)
Lemma X10_newImage_directory_check_witness :
  (newImage (H := reference.lib) example.usual example.app example.noDir).1
  = Fail ErrStatDir
  ∧ (newImage (H := reference.lib) example.usual example.app example.dirIsFile).1
    = Fail ErrNotDirectory.
Proof.
  split.
  - apply (X10_newImage_directory_check (H := reference.lib)
             example.usual example.app example.noDir "http://x/img.jpg"
             {| StatusCode := StatusOK; Body := NewReader "JPEGDATA" |}
             eq_refl eq_refl eq_refl).
    reflexivity.
  - apply (proj2 (X10_newImage_directory_check (H := reference.lib)
                    example.usual example.app example.dirIsFile "http://x/img.jpg"
                    {| StatusCode := StatusOK; Body := NewReader "JPEGDATA" |}
                    eq_refl eq_refl eq_refl) 1 "not a directory").
    reflexivity.
Defined.

(** ** More on the retention manager *)

Section cleanup_more.
Context `{GoLib} (a : Application).

(** However the second loop ends, it has run no command, and a path either
    holds what it held or is the path of one of the files and is gone. *)
Lemma removeFiles_frame (l : list (option FileInfo)) (s : State) :
  calls (removeFiles a l s).2 = calls s
  ∧ ∀ j, fs (removeFiles a l s).2 !! j = fs s !! j
         ∨ (fs (removeFiles a l s).2 !! j = None
            ∧ ∃ f, Some f ∈ l ∧ j = keyOf (dir a) f).
Proof.
  revert s. induction l as [|[f|] l IH]; intros s.
  - cbn. split; [done|]. by left.
  - cbn [removeFiles]. run_step.
    destruct (os.Remove (path.Join [dir a; Name f]) _) as [o s2] eqn:E.
    apply Remove_inv in E as [(-> & -> & Hin)|(-> & ->)].
    + destruct (IH (set_fs (delete (path.Clean (path.Join [dir a; Name f])))
                      (add_log {| level := LevelInfo; message := "deleting image";
                                  attrs := [("value", VStr (Name f))] |} s)))
        as [Hcalls Hfs].
      split; [exact Hcalls|]. intros j.
      destruct (Hfs j) as [Hj|(Hj & g & Hg & ->)].
      * rewrite Hj. cbn [fs set_fs add_log]. fold (keyOf (dir a) f).
        destruct (decide (j = keyOf (dir a) f)) as [->|Hne].
        -- right. rewrite lookup_delete_eq. split; [done|]. exists f. split; [by left|done].
        -- left. by rewrite lookup_delete_ne.
      * right. split; [exact Hj|]. exists g. split; [by right|done].
    + cbn. split; [done|]. by left.
  - cbn. split; [done|]. by left.
Qed.

Lemma collectManaged_calls (entries : list DirEntry) (acc : list FileInfo) (s : State) :
  calls (collectManaged entries acc s).2 = calls s.
Proof.
  revert acc s. induction entries as [|e entries IH]; intros acc s; [done|].
  cbn [collectManaged].
  destruct (strings.HasPrefix (entryName e) imagePrefix); [|apply IH].
  run_step. unfold os.Info. cbn [fs add_log].
  destruct (fs s !! entryPath e) as [n|]; cbn; [|done].
  by rewrite IH.
Qed.

(** [cleanImages] on a readable directory with a retention count other
    than 0, up to the second loop. *)
Lemma cleanImages_readable (k : Z) (s : State) (t : Z) :
  k ≠ 0 →
  os.lookup_path (fs s) (dir a) = Some (Directory t) →
  ∃ files s1,
    files ≡ₚ fileOf <$> managed (fs s) (dir a)
    ∧ fs s1 = fs s ∧ calls s1 = calls s
    ∧ cleanImages a k s =
        if Z.of_nat (length files) <=? int_wrap k then (Ret tt, s1)
        else
          match slice_to (slices_SortFunc (λ f g, ModTime f ?= ModTime g) files)
                  (append_cap (length files))
                  (int_wrap (Z.of_nat (length files) - int_wrap k)) with
          | None => (Panic "slice bounds out of range", deletingLogged k files s1)
          | Some oldest => removeFiles a oldest (deletingLogged k files s1)
          end.
Proof.
  intros Hk Hdir. unfold cleanImages.
  destruct (Z.eqb_spec k 0) as [?|_]; [done|].
  unfold bind at 1, os.ReadDir. rewrite Hdir.
  set (entries := merge_sort os.name_le (os.children (fs s) (dir a))).
  destruct (collectManaged_ok entries [] s) as (s1 & Hrun & Hfs).
  { intros e He. by apply listing_in_tree in He. }
  pose proof (collectManaged_calls entries [] s) as Hcalls.
  rewrite Hrun in Hcalls. cbn [snd] in Hcalls.
  unfold bind at 1. rewrite Hrun. cbn [app].
  exists (omap (infoAt (fs s)) (filter hasPrefix entries)), s1.
  split; [apply files_of_listing|]. split; [exact Hfs|]. split; [exact Hcalls|].
  destruct (_ <=? _); [done|]. run_step. unfold deletingLogged.
  by destruct (slice_to _ _ _).
Qed.

End cleanup_more.

Section cleanup_frame.
Context `{GoLib} (a : Application).

Lemma slice_to_elem {A : Type} (l : list A) (cap : nat) (hi : Z)
    (oldest : list (option A)) (x : A) :
  slice_to l cap hi = Some oldest → Some x ∈ oldest → x ∈ l.
Proof.
  unfold slice_to. destruct (_ && _); [|done]. intros [= <-] Hin.
  apply elem_of_take in Hin as (i & Hi & _).
  apply list_elem_of_lookup_2, elem_of_app in Hi as [Hi|Hi].
  - apply list_elem_of_fmap in Hi as (y & [= ->] & Hy). exact Hy.
  - by apply elem_of_replicate in Hi as [? _].
Qed.

(** However a cleanup ends, it has run no command, and a path either holds
    what it held or was a managed image and is gone. *)
Lemma cleanImages_touch (k : Z) (s : State) :
  calls (cleanImages a k s).2 = calls s
  ∧ ∀ j, fs (cleanImages a k s).2 !! j = fs s !! j
         ∨ (fs (cleanImages a k s).2 !! j = None
            ∧ isManaged (dir a) j = true).
Proof.
  destruct (Z.eq_dec k 0) as [->|Hk]; [split; [done|by left]|].
  destruct (os.lookup_path (fs s) (dir a)) as [[t c|t]|] eqn:Hdir.
  1,3: assert (cleanImages a k s = (Fail ErrReadDir, s)) as ->
         by (unfold cleanImages; destruct (Z.eqb_spec k 0) as [?|_]; [done|];
             unfold bind at 1, os.ReadDir; by rewrite Hdir);
       split; [done|by left].
  destruct (cleanImages_readable a k s t Hk Hdir)
    as (files & s1 & Hfiles & Hfs1 & Hcalls1 & ->).
  destruct (_ <=? _); [split; [done|left; cbn; by rewrite Hfs1]|].
  destruct (slice_to _ _ _) as [oldest|] eqn:Hslice;
    [|split; [done|left; cbn; by rewrite Hfs1]].
  destruct (removeFiles_frame a oldest (deletingLogged k files s1)) as [Hc Hf].
  split; [by rewrite Hc|].
  intros j. destruct (Hf j) as [Hj|(Hj & f & Hin & ->)].
  - left. rewrite Hj. cbn. by rewrite Hfs1.
  - right. split; [exact Hj|].
    apply (slice_to_elem _ _ _ _ _ Hslice) in Hin.
    rewrite SortFunc_Permutation, Hfiles in Hin.
    apply list_elem_of_fmap in Hin as ([p n] & -> & Hpn).
    rewrite (keyOf_fileOf (fs s) (dir a) (p, n) Hpn).
    unfold managed in Hpn. by apply list_elem_of_filter in Hpn as [? _].
Qed.

(** X11: however a cleanup ends (it returns, fails or panics), it has run
    no command, it has changed or added no entry of the file system, and
    the only paths it has deleted are managed images of the directory. *)
Theorem X11_cleanImages_frame (k : Z) (s : State) :
  calls (cleanImages a k s).2 = calls s
  ∧ (∀ p n, fs (cleanImages a k s).2 !! p = Some n → fs s !! p = Some n)
  ∧ (∀ p, isManaged (dir a) p = false →
          fs (cleanImages a k s).2 !! p = fs s !! p).
Proof.
  destruct (cleanImages_touch k s) as [Hcalls Hfs].
  split; [exact Hcalls|]. split.
  - intros p n Hp. destruct (Hfs p) as [<-|[Hnone _]]; [done|congruence].
  - intros p Hp. destruct (Hfs p) as [?|[_ ?]]; [done|congruence].
Qed.

(** X12: a retention count of 2^63 or more becomes negative when it is
    converted to [int]; a cleanup with such a count never returns: it fails
    or it panics. *)
Theorem X12_cleanImages_huge_count (k : Z) (s : State) :
  2 ^ 63 ≤ k < 2 ^ 64 →
  Z.of_nat (length (managed (fs s) (dir a))) < 2 ^ 63 →
  (cleanImages a k s).1 ≠ Ret tt.
Proof.
  intros Hk HN.
  destruct (os.lookup_path (fs s) (dir a)) as [[t c|t]|] eqn:Hdir.
  1,3: unfold cleanImages; destruct (Z.eqb_spec k 0) as [?|_]; [lia|];
       unfold bind at 1, os.ReadDir; by rewrite Hdir.
  destruct (cleanImages_readable a k s t ltac:(lia) Hdir)
    as (files & s1 & Hfiles & Hfs1 & Hcalls1 & ->).
  assert (length files = length (managed (fs s) (dir a))) as Hlen
    by (by rewrite Hfiles, length_fmap).
  set (N := length files) in *.
  rewrite (int_wrap_big k) by lia.
  destruct (Z.leb_spec (Z.of_nat N) (k - 2 ^ 64)) as [?|_]; [lia|].
  unfold slice_to.
  rewrite (Permutation_length (SortFunc_Permutation _ _ files)). fold N.
  pose proof (append_cap_ge N) as Hcap.
  destruct (Z.lt_ge_cases (Z.of_nat N - (k - 2 ^ 64)) (2 ^ 63)) as [Hs|Hb].
  - rewrite (int_wrap_small (_ - _)) by lia.
    destruct (_ && _) eqn:Hin; [|done].
    apply andb_true_iff in Hin as [_ Hhi%Z.leb_le].
    rewrite take_app_ge by (rewrite length_fmap, (Permutation_length
      (SortFunc_Permutation _ _ files)); fold N; lia).
    rewrite length_fmap, (Permutation_length (SortFunc_Permutation _ _ files)). fold N.
    destruct (append_cap N - N)%nat as [|room] eqn:Hroom; [lia|].
    destruct (Z.to_nat (Z.of_nat N - (k - 2 ^ 64)) - N)%nat as [|more] eqn:Hmore; [lia|].
    cbn [replicate take]. intros Hret.
    destruct (removeFiles a _ _) as [o s'] eqn:E. cbn [fst] in Hret. subst o.
    by apply removeFiles_nil in E.
  - rewrite (int_wrap_big (_ - _)) by lia.
    destruct (Z.leb_spec 0 (Z.of_nat N - (k - 2 ^ 64) - 2 ^ 64)) as [?|_]; [lia|].
    done.
Qed.

(** X13: with a retention count other than 0, a cleanup of a path that is
    not a directory of the file system fails with the error of reading the
    directory, and changes nothing, not even the log. *)
Theorem X13_cleanImages_unreadable (k : Z) (s : State) :
  k ≠ 0 →
  (∀ t, os.lookup_path (fs s) (dir a) ≠ Some (Directory t)) →
  cleanImages a k s = (Fail ErrReadDir, s).
Proof.
  intros Hk Hdir. unfold cleanImages.
  destruct (Z.eqb_spec k 0) as [?|_]; [done|].
  unfold bind at 1, os.ReadDir.
  destruct (os.lookup_path (fs s) (dir a)) as [[t c|t]|]; [done| |done].
  by destruct (Hdir t).
Qed.

End cleanup_frame.

(** X12, with the largest retention count the flag accepts. *)
Lemma X12_cleanImages_huge_count_witness :
  (cleanImages (H := reference.lib) example.app (2 ^ 64 - 1) example.fourImages).1
  ≠ Ret tt.
Proof.
  apply (X12_cleanImages_huge_count (H := reference.lib) example.app (2 ^ 64 - 1)
           example.fourImages).
  - lia.
  - vm_compute. reflexivity.
Defined.

(** X13, without the background directory. *)
Lemma X13_cleanImages_unreadable_witness :
  cleanImages (H := reference.lib) example.app 3 example.noDir
  = (Fail ErrReadDir, example.noDir).
Proof.
  apply (X13_cleanImages_unreadable (H := reference.lib) example.app 3 example.noDir).
  - lia.
  - intros t. vm_compute. discriminate.
Defined.

Section cleanup_ties.
Context `{GoLib} (a : Application).

(** What a cleanup that returns keeps, whether or not modification times
    repeat: the managed images split into a front that is gone and a back
    that is kept, no image of the front being newer than one of the back. *)
Lemma cleanImages_kept (k : Z) (s s' : State) :
  let N := length (managed (fs s) (dir a)) in
  1 ≤ k < 2 ^ 64 →
  Z.of_nat N < 2 ^ 63 →
  cleanImages a k s = (Ret tt, s') →
  ∃ front back,
    managed (fs s) (dir a) ≡ₚ front ++ back
    ∧ (∀ x y, x ∈ front → y ∈ back → node_mtime x.2 ≤ node_mtime y.2)
    ∧ length back = Nat.min N (Z.to_nat k)
    ∧ managed (fs s') (dir a) ≡ₚ back
    ∧ (∀ p n, (p, n) ∈ front → fs s' !! p = None)
    ∧ (∀ p, (¬ ∃ n, (p, n) ∈ front) → fs s' !! p = fs s !! p).
Proof.
  intros N Hk HN Hrun.
  destruct (cleanImages_Ret_inv a k s s' Hk HN Hrun)
    as [[Hle Hfs]|(Hlt & sorted & s1 & Hperm & Hsorted & Hfs & Hrm)].
  { exists [], (managed (fs s) (dir a)). rewrite Hfs. fold N.
    split; [done|]. split; [by intros x y ?%elem_of_nil|].
    split; [lia|]. split; [done|]. split; [by intros p n ?%elem_of_nil|done]. }
  set (ML := managed (fs s) (dir a)) in *.
  set (tkey := λ pn : string * Node, node_mtime pn.2).
  destruct (Permutation_map_inv fileOf ML Hperm) as (SP & Hsp & HML).
  change (map fileOf SP) with (fileOf <$> SP) in Hsp. subst sorted.
  apply (StronglySorted_of_fmap ModTime fileOf) in Hsorted.
  change (StronglySorted (λ x y, tkey x ≤ tkey y) SP) in Hsorted.
  assert (length SP = N) as HlenSP by (by rewrite <- HML).
  assert (NoDup SP) as HndSP.
  { rewrite <- HML. apply NoDup_filter, NoDup_map_to_list. }
  set (hi := (N - Z.to_nat k)%nat) in *.
  set (front := take hi SP). set (back := drop hi SP).
  assert (SP = front ++ back) as Hsplit by (symmetry; apply take_drop).
  rewrite <- fmap_take in Hrm. fold front in Hrm.
  apply removeFiles_Ret in Hrm as [Hlook0 _].
  assert (∀ j, fs s' !! j
               = if decide (j ∈ keyOf (dir a) <$> (fileOf <$> front))
                 then None else fs s !! j) as Hlook.
  { intros j. rewrite <- Hfs. exact (Hlook0 j). }
  clear Hlook0.
  assert (∀ p n, (p, n) ∈ SP ↔ isManaged (dir a) p = true ∧ fs s !! p = Some n) as HSP.
  { intros p n. rewrite <- HML. apply managed_spec. }
  assert (∀ p, p ∈ keyOf (dir a) <$> (fileOf <$> front) ↔ ∃ n, (p, n) ∈ front) as Hkeys.
  { intros p. rewrite <- list_fmap_compose, list_elem_of_fmap. split.
    - intros ([q n] & -> & Hq). exists n. cbn.
      rewrite (keyOf_fileOf (fs s) (dir a) (q, n)); [done|].
      fold ML. rewrite HML, Hsplit. apply elem_of_app. by left.
    - intros [n Hn]. exists (p, n). split; [|done]. cbn.
      rewrite (keyOf_fileOf (fs s) (dir a) (p, n)); [done|].
      fold ML. rewrite HML, Hsplit. apply elem_of_app. by left. }
  exists front, back.
  split; [by rewrite HML, Hsplit|].
  split.
  { intros x y Hx Hy. rewrite Hsplit in Hsorted.
    exact (StronglySorted_app_1_elem_of _ _ _ _ _ Hsorted Hx Hy). }
  split.
  { unfold back. rewrite length_drop, HlenSP. unfold hi. lia. }
  split.
  { apply NoDup_Permutation.
    - apply NoDup_filter, NoDup_map_to_list.
    - rewrite Hsplit in HndSP. by apply NoDup_app in HndSP as (_ & _ & ?).
    - intros [p n]. rewrite managed_spec, Hlook.
      destruct (decide (p ∈ keyOf (dir a) <$> (fileOf <$> front))) as [Hd|Hd];
        rewrite Hkeys in Hd.
      + split; [by intros [_ ?]|]. intros Hb. exfalso.
        destruct Hd as [n' Hn'].
        assert ((p, n) ∈ SP) as Hin by (rewrite Hsplit; apply elem_of_app; by right).
        assert ((p, n') ∈ SP) as Hin' by (rewrite Hsplit; apply elem_of_app; by left).
        apply HSP in Hin as [_ Hp]. apply HSP in Hin' as [_ Hp'].
        assert (n' = n) as -> by congruence.
        rewrite Hsplit in HndSP. apply NoDup_app in HndSP as (_ & Hdisj & _).
        by apply (Hdisj (p, n)).
      + rewrite <- HSP, Hsplit, elem_of_app. split; [|by right].
        intros [Hf|Hb]; [|done]. destruct Hd. eauto. }
  split.
  - intros p n Hpn. rewrite Hlook, decide_True; [done|]. apply Hkeys. eauto.
  - intros p Hp. rewrite Hlook, decide_False; [done|]. by rewrite Hkeys.
Qed.

(** X14: a cleanup that returns leaves min(N, k) managed images also when
    modification times repeat; which of several images with the same time
    go is the sort's choice, but no image that is gone is newer than one
    that is kept. *)
Theorem X14_cleanImages_with_ties (k : Z) (s s' : State) :
  let N := length (managed (fs s) (dir a)) in
  1 ≤ k < 2 ^ 64 →
  Z.of_nat N < 2 ^ 63 →
  cleanImages a k s = (Ret tt, s') →
  length (managed (fs s') (dir a)) = Nat.min N (Z.to_nat k)
  ∧ ∀ p n q m,
      (p, n) ∈ managed (fs s) (dir a) → fs s' !! p = None →
      (q, m) ∈ managed (fs s') (dir a) →
      node_mtime n ≤ node_mtime m.
Proof.
  intros N Hk HN Hrun.
  destruct (cleanImages_kept k s s' Hk HN Hrun)
    as (front & back & Hall & Hord & Hlen & Hkept & Hgone & _).
  split; [by rewrite Hkept|].
  intros p n q m Hp Hnone Hq.
  rewrite Hall in Hp. rewrite Hkept in Hq.
  apply elem_of_app in Hp as [Hp|Hp]; [exact (Hord _ _ Hp Hq)|].
  rewrite <- Hkept in Hp. apply managed_spec in Hp as [_ Hp]. congruence.
Qed.

End cleanup_ties.

(** X14, with retention count 2 on two images of the same time and an
    older one. *)
Lemma X14_cleanImages_with_ties_witness :
  let s := example.twins in
  let s' := (cleanImages (H := reference.lib) example.app 2 s).2 in
  length (managed (fs s') "/bg") = Nat.min (length (managed (fs s) "/bg")) 2
  ∧ ∀ p n q m,
      (p, n) ∈ managed (fs s) "/bg" → fs s' !! p = None →
      (q, m) ∈ managed (fs s') "/bg" →
      node_mtime n ≤ node_mtime m.
Proof.
  intros s s'.
  apply (X14_cleanImages_with_ties (H := reference.lib) example.app 2 s s').
  - lia.
  - vm_compute. reflexivity.
  - assert ((cleanImages (H := reference.lib) example.app 2 s).1 = Ret tt) as E
      by (vm_compute; reflexivity).
    unfold s'. destruct (cleanImages (H := reference.lib) example.app 2 s) as [o s2].
    cbn [fst snd] in *. by subst o.
Defined.

(** ** Paths: where the acquirer writes and what the retention manager
    lists *)

Section paths.

Lemma clean_elem_name (rooted : bool) (out : list string) (e : string) :
  pathElem e → path.clean_elem rooted out e = e :: out.
Proof.
  intros (H1 & H2 & H3 & _). unfold path.clean_elem.
  destruct (String.eqb_spec e EmptyString); [done|].
  destruct (String.eqb_spec e "."); [done|].
  by destruct (String.eqb_spec e "..").
Qed.

Lemma clean_elem_stack (rooted : bool) (out : list string) (e : string) :
  strings.ContainsByte e path.slash = false →
  cleanStack rooted out → cleanStack rooted (path.clean_elem rooted out e).
Proof.
  intros Hfree (names & n & -> & Hnames & Hroot). unfold path.clean_elem.
  destruct (String.eqb_spec e EmptyString) as [->|He1]; [by exists names, n|].
  destruct (String.eqb_spec e ".") as [->|He2]; [by exists names, n|].
  destruct (String.eqb_spec e "..") as [->|He3].
  - destruct names as [|x names].
    + destruct n as [|n]; cbn [app replicate].
      * destruct rooted; [by exists [], 0%nat|].
        exists [], 1%nat. by repeat split.
      * cbn. exists [], (S (S n)). repeat split; [done|].
        intros Hr. by specialize (Hroot Hr).
    + apply Forall_cons in Hnames as [(_ & _ & Hx & _) Hnames]. cbn [app].
      destruct (String.eqb_spec x ".."); [done|]. by exists names, n.
  - exists (e :: names), n. repeat split; [|done].
    apply Forall_cons. by repeat split.
Qed.

Lemma fold_clean_stack (rooted : bool) (l out : list string) :
  (∀ e, e ∈ l → strings.ContainsByte e path.slash = false) →
  cleanStack rooted out →
  cleanStack rooted (fold_left (path.clean_elem rooted) l out).
Proof.
  revert out. induction l as [|e l IH]; intros out Hfree Hout; [done|].
  cbn [fold_left]. apply IH.
  - intros x Hx. apply Hfree. by right.
  - apply clean_elem_stack; [|done]. apply Hfree. by left.
Qed.

(** Names are pushed one after the other. *)
Lemma fold_clean_names (rooted : bool) (l out : list string) :
  Forall pathElem l →
  fold_left (path.clean_elem rooted) l out = rev l ++ out.
Proof.
  revert out. induction l as [|e l IH]; intros out Hl; [done|].
  apply Forall_cons in Hl as [He Hl]. cbn [fold_left rev].
  rewrite (clean_elem_name _ _ _ He), (IH _ Hl). by rewrite <- app_assoc.
Qed.

Lemma fold_clean_dots (n m : nat) :
  fold_left (path.clean_elem false) (replicate n "..") (replicate m "..")
  = replicate (n + m) "..".
Proof.
  revert m. induction n as [|n IH]; intros m; [done|].
  cbn [replicate fold_left].
  replace (path.clean_elem false (replicate m "..") "..") with (replicate (S m) "..").
  - rewrite IH. f_equal. lia.
  - by destruct m.
Qed.

(** Cleaning the elements of a stack again gives the stack back. *)
Lemma fold_clean_again (rooted : bool) (out : list string) :
  cleanStack rooted out →
  fold_left (path.clean_elem rooted) (rev out) [] = out.
Proof.
  intros (names & n & -> & Hnames & Hroot).
  rewrite rev_app_distr, fold_left_app.
  assert (rev (replicate n "..") = replicate n "..") as ->.
  { clear. induction n as [|n IH]; [done|]. cbn [replicate rev]. rewrite IH.
    clear. induction n as [|n IH]; [done|]. cbn. by rewrite IH. }
  assert (fold_left (path.clean_elem rooted) (replicate n "..") [] = replicate n "..")
    as ->.
  { destruct rooted.
    - by rewrite (Hroot eq_refl).
    - pose proof (fold_clean_dots n 0) as Hd. cbn [replicate] in Hd.
      rewrite Hd. f_equal. lia. }
  rewrite fold_clean_names.
  - by rewrite rev_involutive.
  - apply Forall_forall. intros x Hx%list_elem_of_In%in_rev%list_elem_of_In.
    by apply (proj1 (Forall_forall _ _) Hnames).
Qed.

Lemma stack_free (rooted : bool) (out : list string) (e : string) :
  cleanStack rooted out → e ∈ out →
  e ≠ EmptyString ∧ strings.ContainsByte e path.slash = false.
Proof.
  intros (names & n & -> & Hnames & _) [Hin|Hin]%elem_of_app.
  - apply (proj1 (Forall_forall _ _) Hnames) in Hin as (? & _ & _ & ?). done.
  - apply elem_of_replicate in Hin as [-> _]. done.
Qed.

End paths.

Section clean_again.

Lemma Clean_render (p : string) :
  p ≠ EmptyString → path.Clean p = render (isRooted p) (cleanOut p).
Proof. by destruct p. Qed.

Lemma cleanOut_stack (p : string) : cleanStack (isRooted p) (cleanOut p).
Proof.
  apply fold_clean_stack.
  - intros e He. by apply (Split_segment_free p).
  - by exists [], 0%nat.
Qed.

Lemma Split_Join (l : list string) :
  l ≠ [] →
  (∀ x, x ∈ l → strings.ContainsByte x path.slash = false) →
  strings.Split (strings.Join l "/") path.slash = l.
Proof.
  induction l as [|x l IH]; [done|]. intros _ Hfree.
  destruct l as [|y l].
  - apply Split_absent, Hfree. by left.
  - rewrite Join_cons2.
    change (x ++ "/" ++ strings.Join (y :: l) "/")%string
      with (x ++ String path.slash (strings.Join (y :: l) "/"))%string.
    rewrite Split_app, (Split_absent x) by (apply Hfree; by left).
    rewrite IH; [done|done|]. intros z Hz. apply Hfree. by right.
Qed.

Lemma Join_head (x : string) (l : list string) (sep : string) :
  ∃ r, strings.Join (x :: l) sep = (x ++ r)%string.
Proof.
  destruct l as [|y l].
  - exists EmptyString. cbn. clear. induction x as [|c x IH]; cbn; [done|by rewrite <- IH].
  - eexists. by rewrite Join_cons2.
Qed.

(** The text of a stack that is not empty starts with its bottom
    element. *)
Lemma Join_stack_head (rooted : bool) (out : list string) :
  cleanStack rooted out → out ≠ [] →
  ∃ c body, strings.Join (rev out) "/" = String c body ∧ Ascii.eqb c path.slash = false.
Proof.
  intros Hst Hne.
  destruct (rev out) as [|x l] eqn:E.
  { apply (f_equal (@rev string)) in E. rewrite rev_involutive in E. done. }
  assert (x ∈ out) as Hx.
  { apply list_elem_of_In, in_rev. rewrite E. by left. }
  destruct (stack_free _ _ _ Hst Hx) as [Hx1 Hx2].
  destruct (Join_head x l "/") as [r ->].
  destruct x as [|c x]; [done|]. cbn in Hx2 |- *.
  apply orb_false_iff in Hx2 as [Hc _]. eauto.
Qed.

Lemma Split_stack (rooted : bool) (out : list string) :
  cleanStack rooted out → out ≠ [] →
  strings.Split (strings.Join (rev out) "/") path.slash = rev out.
Proof.
  intros Hst Hne. apply Split_Join.
  - intros E. apply (f_equal (@rev string)) in E. rewrite rev_involutive in E. done.
  - intros x Hx%list_elem_of_In%in_rev%list_elem_of_In.
    by destruct (stack_free _ _ _ Hst Hx).
Qed.

(** The text of a stack is rooted as the stack is, and has the stack as
    its elements. *)
Lemma render_again (rooted : bool) (out : list string) :
  cleanStack rooted out →
  isRooted (render rooted out) = rooted ∧ cleanOut (render rooted out) = out.
Proof.
  intros Hst. unfold render. cbv zeta.
  destruct (decide (out = [])) as [->|Hne].
  { by destruct rooted. }
  destruct (Join_stack_head rooted out Hst Hne) as (c & body & Hbody & Hc).
  pose proof (Split_stack rooted out Hst Hne) as Hsplit.
  destruct rooted.
  - split; [done|]. unfold cleanOut. cbn [isRooted strings.Split].
    rewrite Ascii.eqb_refl. cbn [fold_left]. rewrite Hsplit.
    change (path.clean_elem true [] EmptyString) with (@nil string).
    by apply fold_clean_again.
  - rewrite Hbody. cbn [String.eqb]. rewrite <- Hbody.
    assert (isRooted (strings.Join (rev out) "/") = false) as Hr
      by (by rewrite Hbody).
    split; [exact Hr|]. unfold cleanOut. rewrite Hr, Hsplit.
    by apply fold_clean_again.
Qed.

(** [path.Clean] changes nothing in a path it has cleaned. *)
Lemma Clean_idem (p : string) : path.Clean (path.Clean p) = path.Clean p.
Proof.
  destruct (decide (p = EmptyString)) as [->|Hp]; [done|].
  rewrite (Clean_render (path.Clean p)) by apply Clean_nonempty.
  rewrite (Clean_render p Hp).
  by destruct (render_again _ _ (cleanOut_stack p)) as [-> ->].
Qed.

End clean_again.

Section image_path.

Lemma append_nil_r (s : string) : (s ++ EmptyString)%string = s.
Proof. induction s as [|c s IH]; cbn; [done|by rewrite IH]. Qed.

Lemma pathElem_unrooted (e rest : string) :
  pathElem e → isRooted (e ++ rest) = false.
Proof.
  intros (He & _ & _ & Hfree). destruct e as [|c e]; [done|].
  cbn in Hfree |- *. by apply orb_false_iff in Hfree as [? _].
Qed.

(** The elements of a name, with or without a slash behind it. *)
Lemma Split_name (e : string) (trail : bool) :
  pathElem e →
  strings.Split (e ++ (if trail then "/" else EmptyString)) path.slash
  = if trail then [e; EmptyString] else [e].
Proof.
  intros (_ & _ & _ & Hfree). destruct trail.
  - change (e ++ "/")%string with (e ++ String path.slash EmptyString)%string.
    by rewrite Split_app, (Split_absent e).
  - by rewrite append_nil_r, (Split_absent e).
Qed.

(** Joining a directory and a name pushes the name on the elements of the
    directory; a slash behind the name is dropped. *)
Lemma Join_dir_name (d e : string) (trail : bool) :
  pathElem e →
  path.Join [d; (e ++ (if trail then "/" else EmptyString))%string]
  = render (dirRooted d) (e :: dirOut d).
Proof.
  intros He. pose proof He as (He1 & _ & _ & Hfree).
  set (name := (e ++ (if trail then "/" else EmptyString))%string).
  assert (name ≠ EmptyString) as Hname.
  { unfold name. destruct e; [done|]. by cbn. }
  assert (fold_left (path.clean_elem (dirRooted d))
            (strings.Split name path.slash) (dirOut d) = e :: dirOut d) as Hfold.
  { unfold name. rewrite (Split_name e trail He).
    destruct trail; cbn [fold_left]; by rewrite (clean_elem_name _ _ _ He). }
  unfold path.Join, dirRooted, dirOut in *. rewrite !filter_cons, filter_nil.
  rewrite (decide_True (P := name ≠ EmptyString)) by done.
  destruct (String.eqb_spec d EmptyString) as [->|Hd].
  - rewrite decide_False by (by intros ?).
    change (strings.Join [name] "/") with name.
    rewrite (Clean_render name Hname).
    assert (isRooted name = false) as Hr by (by apply pathElem_unrooted).
    unfold cleanOut. by rewrite Hr, Hfold.
  - rewrite decide_True by done. rewrite Join_cons2.
    change (strings.Join [name] "/") with name.
    change (d ++ "/" ++ name)%string with (d ++ String path.slash name)%string.
    assert (isRooted (d ++ String path.slash name) = isRooted d) as Hr
      by (by destruct d).
    rewrite Clean_render by (by destruct d).
    unfold cleanOut. rewrite Hr, Split_app, fold_left_app.
    fold (cleanOut d). by rewrite Hfold.
Qed.

Lemma dir_stack (d : string) : cleanStack (dirRooted d) (dirOut d).
Proof.
  unfold dirRooted, dirOut. destruct (String.eqb d EmptyString).
  - by exists [], 0%nat.
  - apply cleanOut_stack.
Qed.

Lemma push_stack (rooted : bool) (out : list string) (e : string) :
  pathElem e → cleanStack rooted out → cleanStack rooted (e :: out).
Proof.
  intros He (names & n & -> & Hnames & Hroot).
  exists (e :: names), n. repeat split; [|done]. by apply Forall_cons.
Qed.

Lemma Base_unfold (p : string) :
  p ≠ EmptyString →
  path.Base p = match filter (λ x, x ≠ EmptyString) (rev (strings.Split p path.slash)) with
                | [] => "/"
                | e :: _ => e
                end.
Proof. by destruct p. Qed.

(** The last element of the text of a stack is the top of the stack. *)
Lemma Base_render (rooted : bool) (out : list string) (e : string) :
  cleanStack rooted (e :: out) → path.Base (render rooted (e :: out)) = e.
Proof.
  intros Hst.
  destruct (Join_stack_head rooted (e :: out) Hst ltac:(done)) as (c & body & Hbody & Hc).
  pose proof (Split_stack rooted (e :: out) Hst ltac:(done)) as Hsplit.
  destruct (stack_free rooted (e :: out) e Hst ltac:(by left)) as [He _].
  assert (∀ l : list string,
            filter (λ x, x ≠ EmptyString) (rev (rev (e :: out)) ++ l)
            = e :: filter (λ x, x ≠ EmptyString) (out ++ l)) as Hfilter.
  { intros l. rewrite rev_involutive. cbn [app]. by rewrite filter_cons_True. }
  set (J := strings.Join (rev (e :: out)) "/") in *.
  assert (render rooted (e :: out) = if rooted then String path.slash J else J) as ->.
  { unfold render. fold J. cbv zeta. destruct rooted; [done|]. by rewrite Hbody. }
  destruct rooted.
  - rewrite Base_unfold by done. cbn [strings.Split].
    rewrite Ascii.eqb_refl, Hsplit.
    change (rev (EmptyString :: rev (e :: out)))
      with (rev (rev (e :: out)) ++ [EmptyString]).
    by rewrite Hfilter.
  - rewrite Base_unfold by (by rewrite Hbody). rewrite Hsplit.
    rewrite <- (app_nil_r (rev (rev (e :: out)))).
    by rewrite Hfilter.
Qed.

Lemma Base_cases (url : string) :
  path.Base url = "/"
  ∨ (path.Base url ≠ EmptyString
     ∧ strings.ContainsByte (path.Base url) path.slash = false).
Proof.
  unfold path.Base. destruct url as [|c url]; [by right|].
  destruct (filter _ _) as [|e l] eqn:E; [by left|]. right.
  assert (e ∈ filter (λ x, x ≠ EmptyString)
                (rev (strings.Split (String c url) path.slash))) as Hin
    by (rewrite E; by left).
  apply list_elem_of_filter in Hin as [He Hin]. split; [done|].
  apply list_elem_of_In, in_rev, list_elem_of_In in Hin.
  by apply (Split_segment_free (String c url)).
Qed.

Lemma imageName_elem (url : string) : pathElem (imageName url).
Proof.
  unfold imageName.
  destruct (String.eqb_spec (path.Base url) "/") as [_|Hne].
  { by repeat split. }
  destruct (Base_cases url) as [?|[_ Hfree]]; [done|].
  repeat split; done.
Qed.

(** The path of the image is the directory's elements with the name of the
    image on top. *)
Lemma imagePath_render (a : Application) (url : string) :
  imagePath a url = render (dirRooted (dir a)) (imageName url :: dirOut (dir a)).
Proof.
  unfold imagePath, imageName.
  destruct (String.eqb_spec (path.Base url) "/") as [->|Hne].
  - apply (Join_dir_name (dir a) imagePrefix true). by repeat split.
  - pose proof (imageName_elem url) as He. unfold imageName in He.
    destruct (String.eqb_spec (path.Base url) "/"); [done|].
    rewrite <- (Join_dir_name (dir a) _ false He). by rewrite append_nil_r.
Qed.

Lemma prefix_append (s t : string) : String.prefix s (s ++ t) = true.
Proof.
  induction s as [|c s IH]; cbn; [by destruct t|].
  by destruct (ascii_dec c c).
Qed.

End image_path.

(** The path of the image is cleaned, named after the URL, and managed. *)
Lemma imagePath_facts (a : Application) (url : string) :
  path.Clean (imagePath a url) = imagePath a url
  ∧ path.Base (imagePath a url)
    = (if String.eqb (path.Base url) "/" then imagePrefix
       else (imagePrefix ++ path.Base url)%string)
  ∧ isManaged (dir a) (imagePath a url) = true.
Proof.
  pose proof (imageName_elem url) as He.
  pose proof (push_stack _ _ _ He (dir_stack (dir a))) as Hst.
  assert (path.Clean (imagePath a url) = imagePath a url) as Hclean.
  { rewrite Clean_render by apply imagePath_nonempty.
    rewrite (imagePath_render a url).
    by destruct (render_again _ _ Hst) as [-> ->]. }
  assert (path.Base (imagePath a url) = imageName url) as Hbase.
  { rewrite imagePath_render. by apply Base_render. }
  split; [exact Hclean|]. split; [exact Hbase|].
  unfold isManaged, os.is_child. rewrite Hbase.
  apply andb_true_iff. split; [apply andb_true_iff; split|].
  - destruct He as (_ & H2 & H3 & Hfree). unfold os.is_name.
    destruct (String.eqb_spec (imageName url) "."); [done|].
    destruct (String.eqb_spec (imageName url) ".."); [done|].
    destruct (String.eqb_spec (imageName url) "/") as [E|_]; [|done].
    by rewrite E in Hfree.
  - apply String.eqb_eq.
    pose proof (Join_dir_name (dir a) (imageName url) false He) as HJ.
    rewrite append_nil_r in HJ. rewrite HJ, <- imagePath_render. exact Hclean.
  - unfold strings.HasPrefix, imageName.
    destruct (String.eqb (path.Base url) "/"); [|apply prefix_append].
    rewrite <- (append_nil_r imagePrefix) at 2. apply prefix_append.
Qed.

(** X15: the path [newImage] writes to, whatever the directory and the
    URL, is a cleaned path, its last element is the prefix followed by the
    last element of the URL (the prefix alone for a URL of slashes), and it
    is one of the managed images of the directory: an entry of the
    directory whose name starts with the prefix, which [cleanImages] lists
    and counts. *)
Theorem X15_image_path_is_managed (a : Application) (url : string) :
  path.Clean (imagePath a url) = imagePath a url
  ∧ path.Base (imagePath a url)
    = (if String.eqb (path.Base url) "/" then imagePrefix
       else (imagePrefix ++ path.Base url)%string)
  ∧ isManaged (dir a) (imagePath a url) = true.
Proof. exact (imagePath_facts a url). Qed.

(** ** The whole run *)

Section run.
Context `{GoLib}.

(** A run that returns has gone through its three stages. *)
Lemma Run_Ret_inv (w : World) (a : Application) (s s' : State) :
  Run w a s = (Ret tt, s') →
  ∃ p s1 s2,
    newImage w a s = (Ret p, s1)
    ∧ writeToDconf w p s1 = (Ret tt, s2)
    ∧ cleanImages a (preserve a) s2 = (Ret tt, s').
Proof.
  unfold Run, wrap, bind. cbn beta.
  destruct (newImage w a s) as [[p|e|r] s1] eqn:E1; cbn beta iota; [|done..].
  destruct (writeToDconf w p s1) as [[[]|e|r] s2] eqn:E2; cbn beta iota; [|done..].
  destruct (cleanImages a (preserve a) s2) as [[[]|e|r] s3] eqn:E3;
    cbn beta iota; [|done..].
  intros [= <-]. by exists p, s1, s2.
Qed.

(** What [writeToDconf] has done when it returns. *)
Lemma writeToDconf_Ret (w : World) (p : string) (s s2 : State) :
  writeToDconf w p s = (Ret tt, s2) →
  fs s2 = fs s ∧ calls s2 = calls s ++ (dconfWrite p <$> dconfKeys).
Proof.
  intros Hrun. pose proof (writeKeys_calls w p dconfKeys s) as Hw.
  unfold writeToDconf in Hrun. rewrite Hrun in Hw. exact Hw.
Qed.

(** What [newImage] has done when it returns. *)
Lemma newImage_Ret_state (w : World) (a : Application) (s s1 : State) (p : string) :
  newImage w a s = (Ret p, s1) →
  ∃ url res t,
    (api.microsoft_Get w s).1 = Ret url
    ∧ http_Get w url = inr res
    ∧ os.lookup_path (fs s) (dir a) = Some (Directory t)
    ∧ p = imagePath a url
    ∧ fs s !! p = None
    ∧ fs s1 = <[p := File (clock_now w) (data (Body res))]> (fs s)
    ∧ calls s1 = calls s.
Proof.
  intros Hrun.
  destruct (newImage_Ret_inv w a s s1 p Hrun)
    as (url & s0 & res & t & HGet & Hhttp & Hok & Hdir).
  pose proof (Get_frame w s) as [Hfs Hcalls]. rewrite HGet in Hfs, Hcalls.
  cbn [snd] in Hfs, Hcalls.
  exists url, res, t. rewrite HGet. split; [done|]. split; [done|]. split; [done|].
  destruct (imagePath_facts a url) as (Hclean & _ & _).
  destruct (os.lookup_path (fs s) (imagePath a url)) as [node|] eqn:Hp.
  { by rewrite (newImage_exists w a s s0 url res t node HGet Hhttp Hok Hdir Hp) in Hrun. }
  rewrite (newImage_copy w a s s0 url res t HGet Hhttp Hok Hdir Hp) in Hrun.
  destruct (copyComplete w (Body res)) eqn:Hc; [|done].
  rewrite (copyComplete_written _ _ Hc), Hclean in Hrun.
  injection Hrun as <- <-.
  rewrite lookup_imagePath, Hclean in Hp.
  split; [done|]. split; [exact Hp|].
  cbn [fs calls set_fs add_log beforeStat]. by rewrite Hfs, Hcalls.
Qed.

(** A new managed image is one more managed image. *)
Lemma managed_insert (tree : gmap string Node) (d p : string) (f : Node) :
  tree !! p = None → isManaged d p = true →
  managed (<[p := f]> tree) d ≡ₚ (p, f) :: managed tree d.
Proof.
  intros Hnone Hm. unfold managed.
  rewrite (map_to_list_insert tree p f Hnone).
  by rewrite filter_cons_True.
Qed.

(** The new image is still there after the cleanup when the images that
    were there are older. *)
Lemma Run_keeps_new (w : World) (a : Application) (s s' : State) :
  1 ≤ preserve a < 2 ^ 64 →
  Z.of_nat (length (managed (fs s) (dir a))) + 1 < 2 ^ 63 →
  (∀ p n, (p, n) ∈ managed (fs s) (dir a) → node_mtime n < clock_now w) →
  Run w a s = (Ret tt, s') →
  ∃ url res,
    (api.microsoft_Get w s).1 = Ret url
    ∧ http_Get w url = inr res
    ∧ fs s' !! imagePath a url = Some (File (clock_now w) (data (Body res))).
Proof.
  intros Hk HN Hold Hrun.
  destruct (Run_Ret_inv w a s s' Hrun) as (p & s1 & s2 & Hnew & Hwrite & Hclean).
  destruct (newImage_Ret_state w a s s1 p Hnew)
    as (url & res & t & HGet & Hhttp & _ & -> & Hfree & Hfs1 & _).
  destruct (writeToDconf_Ret w _ s1 s2 Hwrite) as [Hfs2 _].
  destruct (imagePath_facts a url) as (_ & _ & Hm).
  set (f := File (clock_now w) (data (Body res))) in *.
  assert (managed (fs s2) (dir a) ≡ₚ (imagePath a url, f) :: managed (fs s) (dir a))
    as Hall by (by rewrite Hfs2, Hfs1, (managed_insert _ _ _ _ Hfree Hm)).
  destruct (cleanImages_kept a (preserve a) s2 s' Hk)
    as (front & back & Hsplit & Hord & Hlen & Hkept & _);
    [rewrite Hall; cbn [length]; lia|exact Hclean|].
  exists url, res. split; [exact HGet|]. split; [exact Hhttp|].
  apply (managed_spec a (fs s') (imagePath a url) f). rewrite Hkept.
  assert ((imagePath a url, f) ∈ front ++ back) as Hin
    by (rewrite <- Hsplit, Hall; by left).
  apply elem_of_app in Hin as [Hfront|Hback]; [exfalso|exact Hback].
  assert (NoDup (front ++ back)) as Hnd.
  { rewrite <- Hsplit. apply NoDup_filter, NoDup_map_to_list. }
  rewrite Hall in Hlen. cbn [length] in Hlen.
  destruct back as [|y back]; [cbn [length] in Hlen; lia|].
  pose proof (Hord _ y Hfront ltac:(by left)) as Hle. cbn [snd f node_mtime] in Hle.
  assert (y ∈ (imagePath a url, f) :: managed (fs s) (dir a)) as Hy.
  { rewrite <- Hall, Hsplit. apply elem_of_app. right. by left. }
  apply elem_of_cons in Hy as [->|Hy].
  - apply NoDup_app in Hnd as (_ & Hdisj & _).
    apply (Hdisj _ Hfront). by left.
  - destruct y as [q m]. specialize (Hold q m Hy). cbn [snd] in Hle. lia.
Qed.

End run.

Section run_properties.
Context `{GoLib}.

(** X16: a run that returns with a retention count k of at least 1 has
    written the three dconf entries for the path of the new image and
    nothing else, and leaves min(N + 1, k) managed images, where N is their
    number before the run: never more than k. *)
Theorem X16_Run_bounds_images (w : World) (a : Application) (s s' : State) :
  let N := length (managed (fs s) (dir a)) in
  1 ≤ preserve a < 2 ^ 64 →
  Z.of_nat N + 1 < 2 ^ 63 →
  Run w a s = (Ret tt, s') →
  ∃ url,
    (api.microsoft_Get w s).1 = Ret url
    ∧ length (managed (fs s') (dir a)) = Nat.min (S N) (Z.to_nat (preserve a))
    ∧ calls s' = calls s ++ (dconfWrite (imagePath a url) <$> dconfKeys).
Proof.
  intros N Hk HN Hrun.
  destruct (Run_Ret_inv w a s s' Hrun) as (p & s1 & s2 & Hnew & Hwrite & Hclean).
  destruct (newImage_Ret_state w a s s1 p Hnew)
    as (url & res & t & HGet & _ & _ & -> & Hfree & Hfs1 & Hcalls1).
  destruct (writeToDconf_Ret w _ s1 s2 Hwrite) as [Hfs2 Hcalls2].
  destruct (imagePath_facts a url) as (_ & _ & Hm).
  assert (length (managed (fs s2) (dir a)) = S N) as HN2.
  { by rewrite Hfs2, Hfs1, (managed_insert _ _ _ _ Hfree Hm). }
  exists url. split; [exact HGet|]. split.
  - destruct (cleanImages_kept a (preserve a) s2 s' Hk) as (front & back & _ & _ & Hlen & Hkept & _);
      [rewrite HN2; lia|exact Hclean|].
    by rewrite Hkept, Hlen, HN2.
  - pose proof (cleanImages_touch a (preserve a) s2) as [Hc _].
    rewrite Hclean in Hc. cbn [snd] in Hc. by rewrite Hc, Hcalls2, Hcalls1.
Qed.

(** X17: with retention count 0 a run that returns has added the new image
    at a path that was free and has changed nothing else in the file
    system: no image is ever deleted. *)
Theorem X17_Run_keeps_all (w : World) (a : Application) (s s' : State) :
  preserve a = 0 →
  Run w a s = (Ret tt, s') →
  ∃ url res,
    (api.microsoft_Get w s).1 = Ret url
    ∧ http_Get w url = inr res
    ∧ fs s !! imagePath a url = None
    ∧ fs s' = <[imagePath a url := File (clock_now w) (data (Body res))]> (fs s).
Proof.
  intros Hzero Hrun.
  destruct (Run_Ret_inv w a s s' Hrun) as (p & s1 & s2 & Hnew & Hwrite & Hclean).
  destruct (newImage_Ret_state w a s s1 p Hnew)
    as (url & res & t & HGet & Hhttp & _ & -> & Hfree & Hfs1 & _).
  destruct (writeToDconf_Ret w _ s1 s2 Hwrite) as [Hfs2 _].
  rewrite Hzero in Hclean. injection Hclean as <-.
  exists url, res. by rewrite Hfs2, Hfs1.
Qed.

(** X18: when every managed image in the directory is older than the clock
    that stamps the new file, a run that returns with a retention count of
    at least 1 still has the new image: the cleanup does not delete the
    image the run has just set. *)
Theorem X18_Run_keeps_new_image (w : World) (a : Application) (s s' : State) :
  1 ≤ preserve a < 2 ^ 64 →
  Z.of_nat (length (managed (fs s) (dir a))) + 1 < 2 ^ 63 →
  (∀ p n, (p, n) ∈ managed (fs s) (dir a) → node_mtime n < clock_now w) →
  Run w a s = (Ret tt, s') →
  ∃ url res,
    (api.microsoft_Get w s).1 = Ret url
    ∧ http_Get w url = inr res
    ∧ fs s' !! imagePath a url = Some (File (clock_now w) (data (Body res))).
Proof. exact (Run_keeps_new w a s s'). Qed.

End run_properties.

(** ** Runs that fail, and runs after a run *)

Section run_more.
Context `{GoLib}.

(** [Run], stage by stage. *)
Lemma Run_unfold (w : World) (a : Application) (s : State) :
  Run w a s =
    match newImage w a s with
    | (Ret p, s1) =>
        match writeToDconf w p s1 with
        | (Ret _, s2) =>
            match cleanImages a (preserve a) s2 with
            | (Fail e, s3) => (Fail (ErrCleanImages e), s3)
            | r => r
            end
        | (Fail e, s2) => (Fail (ErrWriteDconf e), s2)
        | (Panic r, s2) => (Panic r, s2)
        end
    | (Fail e, s1) => (Fail (ErrNewImage e), s1)
    | (Panic r, s1) => (Panic r, s1)
    end.
Proof.
  unfold Run, wrap, bind.
  destruct (newImage w a s) as [[p|e|r] s1]; [|done..].
  destruct (writeToDconf w p s1) as [[[]|e|r] s2]; done.
Qed.

Lemma render_nonempty (rooted : bool) (out : list string) :
  render rooted out ≠ EmptyString.
Proof.
  unfold render. destruct rooted; [done|].
  destruct (String.eqb _ EmptyString) eqn:E; [done|].
  by apply String.eqb_neq in E.
Qed.

(** A directory is not one of its own managed images. *)
Lemma managed_not_dir (d : string) :
  d ≠ EmptyString → isManaged d (path.Clean d) = false.
Proof.
  intros Hd. destruct (isManaged d (path.Clean d)) eqn:E; [exfalso|done].
  unfold isManaged, os.is_child in E.
  apply andb_prop in E as [E Hpre]. apply andb_prop in E as [_ Heq].
  apply String.eqb_eq in Heq.
  pose proof (Base_cases (path.Clean d)) as Hbase.
  remember (path.Base (path.Clean d)) as e eqn:He.
  assert (pathElem e) as Helem.
  { destruct Hbase as [->|[Hne Hfree]]; [by vm_compute in Hpre|].
    split; [exact Hne|]. split; [|split; [|exact Hfree]].
    - intros ->. by vm_compute in Hpre.
    - intros ->. by vm_compute in Hpre. }
  pose proof (Join_dir_name d e false Helem) as Hjoin.
  cbv iota in Hjoin. rewrite append_nil_r in Hjoin.
  pose proof (push_stack _ _ _ Helem (dir_stack d)) as Hst.
  rewrite Hjoin in Heq.
  rewrite (Clean_render (render _ _)) in Heq by apply render_nonempty.
  destruct (render_again _ _ Hst) as [Hr Ho]. rewrite Hr, Ho in Heq.
  rewrite (Clean_render d Hd) in Heq.
  assert (dirRooted d = isRooted d ∧ dirOut d = cleanOut d) as [Hdr Hdo].
  { unfold dirRooted, dirOut. destruct (String.eqb_spec d EmptyString); done. }
  rewrite Hdr, Hdo in Heq, Hst.
  apply (f_equal cleanOut) in Heq.
  destruct (render_again _ _ Hst) as [_ Ho1].
  destruct (render_again _ _ (cleanOut_stack d)) as [_ Ho2].
  rewrite Ho1, Ho2 in Heq.
  apply (f_equal length) in Heq. cbn [length] in Heq. lia.
Qed.

(** A new file does not change what the directory is. *)
Lemma dir_after_insert (tree : gmap string Node) (d p : string) (f : Node) (t : Z) :
  os.lookup_path tree d = Some (Directory t) →
  tree !! p = None →
  os.lookup_path (<[p := f]> tree) d = Some (Directory t).
Proof.
  unfold os.lookup_path. intros Hdir Hnone.
  destruct (String.eqb d EmptyString); [done|].
  rewrite lookup_insert_ne; [exact Hdir|]. intros ->. congruence.
Qed.

(** A cleanup does not change what the directory is. *)
Lemma dir_after_clean (a : Application) (k : Z) (s : State) (t : Z) :
  os.lookup_path (fs s) (dir a) = Some (Directory t) →
  os.lookup_path (fs (cleanImages a k s).2) (dir a) = Some (Directory t).
Proof.
  unfold os.lookup_path. intros Hdir.
  destruct (String.eqb_spec (dir a) EmptyString) as [|Hd]; [done|].
  destruct (cleanImages_touch a k s) as [_ Hfs].
  destruct (Hfs (path.Clean (dir a))) as [->|[_ Hm]]; [exact Hdir|].
  by rewrite (managed_not_dir _ Hd) in Hm.
Qed.

(** A run from a directory that holds the image of the URL's name. *)
Lemma rerun_blocked (w : World) (a : Application) (s : State)
    (url url' : string) (res : Response) (t : Z) (node : Node) :
  os.lookup_path (fs s) (dir a) = Some (Directory t) →
  fs s !! imagePath a url = Some node →
  (api.microsoft_Get w s).1 = Ret url' →
  path.Base url' = path.Base url →
  http_Get w url' = inr res →
  StatusCode res = StatusOK →
  (Run w a s).1 = Fail (ErrNewImage ErrImageExists)
  ∧ fs (Run w a s).2 = fs s
  ∧ calls (Run w a s).2 = calls s.
Proof.
  intros Hdir Hnode HGet Hbase Hhttp Hok.
  pose proof (Get_frame w s) as [Hfs Hcalls].
  destruct (api.microsoft_Get w s) as [o s1] eqn:E. cbn [fst snd] in *. subst o.
  assert (imagePath a url' = imagePath a url) as Hpath
    by (unfold imagePath; by rewrite Hbase).
  destruct (imagePath_facts a url) as (Hclean & _ & _).
  rewrite Run_unfold.
  rewrite (newImage_exists w a s s1 url' res t node E Hhttp Hok Hdir).
  - cbn [fst snd fs calls beforeStat add_log]. by rewrite Hfs, Hcalls.
  - by rewrite Hpath, lookup_imagePath, Hclean.
Qed.


(** X20: a run that fails at a write to dconf leaves the image it has
    downloaded.  A later run for which the service names a URL with the
    same last element then fails with the error that the image already
    exists, before any command is run, and changes nothing: the failed
    setting is not retried. *)
Theorem X20_Run_after_failed_write
    (w w' : World) (a : Application) (s s' : State) (e : error)
    (url url' : string) (res' : Response) :
  Run w a s = (Fail (ErrWriteDconf e), s') →
  (api.microsoft_Get w s).1 = Ret url →
  (api.microsoft_Get w' s').1 = Ret url' →
  path.Base url' = path.Base url →
  http_Get w' url' = inr res' →
  StatusCode res' = StatusOK →
  (Run w' a s').1 = Fail (ErrNewImage ErrImageExists)
  ∧ fs (Run w' a s').2 = fs s'
  ∧ calls (Run w' a s').2 = calls s'.
Proof.
  intros Hrun HGet HGet' Hbase Hhttp' Hok'.
  rewrite Run_unfold in Hrun.
  destruct (newImage w a s) as [[p|e1|r1] s1] eqn:Enew; [|done..].
  destruct (newImage_Ret_state w a s s1 p Enew)
    as (url0 & res & t & HGet0 & _ & Hdir & -> & Hfree & Hfs1 & _).
  assert (url0 = url) as -> by congruence.
  pose proof (writeKeys_calls w (imagePath a url) dconfKeys s1) as [Hfs2 _].
  fold (writeToDconf w (imagePath a url)) in Hfs2.
  destruct (writeToDconf w (imagePath a url) s1) as [[[]|e2|r2] s2] eqn:Ewrite.
  - by destruct (cleanImages a (preserve a) s2) as [[[]|?|?] ?].
  - injection Hrun as _ <-. cbn [snd] in Hfs2.
    apply (rerun_blocked w' a s2 url url' res' t
             (File (clock_now w) (data (Body res)))); try done.
    + rewrite Hfs2, Hfs1. by apply dir_after_insert.
    + by rewrite Hfs2, Hfs1, lookup_insert_eq.
  - done.
Qed.

(** X21: a second run after a run that returned, for which the service
    names a URL with the same last element as for the first, fails with the
    error that the image already exists and changes nothing, whenever the
    first run has kept its image: the retention count is 0, or the images
    that were in the directory are older than the clock of the first run. *)
Theorem X21_Run_twice_same_image
    (w w' : World) (a : Application) (s s' : State)
    (url url' : string) (res' : Response) :
  0 ≤ preserve a < 2 ^ 64 →
  Z.of_nat (length (managed (fs s) (dir a))) + 1 < 2 ^ 63 →
  (preserve a ≠ 0 →
   ∀ p n, (p, n) ∈ managed (fs s) (dir a) → node_mtime n < clock_now w) →
  Run w a s = (Ret tt, s') →
  (api.microsoft_Get w s).1 = Ret url →
  (api.microsoft_Get w' s').1 = Ret url' →
  path.Base url' = path.Base url →
  http_Get w' url' = inr res' →
  StatusCode res' = StatusOK →
  (Run w' a s').1 = Fail (ErrNewImage ErrImageExists)
  ∧ fs (Run w' a s').2 = fs s'
  ∧ calls (Run w' a s').2 = calls s'.
Proof.
  intros Hk HN Hold Hrun HGet HGet' Hbase Hhttp' Hok'.
  destruct (Run_Ret_inv w a s s' Hrun) as (p & s1 & s2 & Hnew & Hwrite & Hclean).
  destruct (newImage_Ret_state w a s s1 p Hnew)
    as (url0 & res & t & HGet0 & Hhttp & Hdir & -> & Hfree & Hfs1 & _).
  assert (url0 = url) as -> by congruence.
  destruct (writeToDconf_Ret w _ s1 s2 Hwrite) as [Hfs2 _].
  assert (os.lookup_path (fs s') (dir a) = Some (Directory t)) as Hdir'.
  { pose proof (dir_after_clean a (preserve a) s2 t) as Hd.
    rewrite Hclean in Hd. apply Hd. rewrite Hfs2, Hfs1. by apply dir_after_insert. }
  assert (fs s' !! imagePath a url = Some (File (clock_now w) (data (Body res))))
    as Hnode.
  { destruct (Z.eq_dec (preserve a) 0) as [Hz|Hnz].
    - rewrite Hz in Hclean. injection Hclean as <-.
      by rewrite Hfs2, Hfs1, lookup_insert_eq.
    - destruct (Run_keeps_new w a s s') as (u & r & Hu & Hr & Hfile);
        [lia|exact HN|by apply Hold|exact Hrun|].
      assert (u = url) as -> by congruence.
      assert (r = res) as -> by congruence.
      exact Hfile. }
  by apply (rerun_blocked w' a s' url url' res' t _ Hdir' Hnode).
Qed.

End run_more.

Ltac run_returns w a s :=
  let E := fresh "E" in
  assert ((Run (H := reference.lib) w a s).1 = Ret tt) as E
    by (vm_compute; reflexivity);
  destruct (Run (H := reference.lib) w a s) as [? ?];
  cbn [fst snd] in *; by subst.

(** X16, run with retention count 3 on four images: three are left. *)
Lemma X16_Run_bounds_images_witness :
  let s := example.fourImages in
  let s' := (Run (H := reference.lib) example.usual example.app s).2 in
  ∃ url,
    (api.microsoft_Get (H := reference.lib) example.usual s).1 = Ret url
    ∧ length (managed (fs s') "/bg") = Nat.min (S (length (managed (fs s) "/bg"))) 3
    ∧ calls s' = calls s ++ (dconfWrite (imagePath example.app url) <$> dconfKeys).
Proof.
  intros s s'.
  apply (X16_Run_bounds_images (H := reference.lib) example.usual example.app s s').
  - cbn. lia.
  - vm_compute. reflexivity.
  - unfold s'. run_returns example.usual example.app s.
Defined.

(** X17, run with retention count 0 on four images. *)
Lemma X17_Run_keeps_all_witness :
  let s := example.fourImages in
  let s' := (Run (H := reference.lib) example.usual example.keepAll s).2 in
  ∃ url res,
    (api.microsoft_Get (H := reference.lib) example.usual s).1 = Ret url
    ∧ http_Get example.usual url = inr res
    ∧ fs s !! imagePath example.keepAll url = None
    ∧ fs s' = <[imagePath example.keepAll url :=
                  File (clock_now example.usual) (data (Body res))]> (fs s).
Proof.
  intros s s'.
  apply (X17_Run_keeps_all (H := reference.lib) example.usual example.keepAll s s').
  - reflexivity.
  - unfold s'. run_returns example.usual example.keepAll s.
Defined.

(** X18, run at time 100 on four images written between 10 and 40. *)
Lemma X18_Run_keeps_new_image_witness :
  let s := example.fourImages in
  let s' := (Run (H := reference.lib) example.usual example.app s).2 in
  ∃ url res,
    (api.microsoft_Get (H := reference.lib) example.usual s).1 = Ret url
    ∧ http_Get example.usual url = inr res
    ∧ fs s' !! imagePath example.app url
      = Some (File (clock_now example.usual) (data (Body res))).
Proof.
  intros s s'.
  apply (X18_Run_keeps_new_image (H := reference.lib) example.usual example.app s s').
  - cbn. lia.
  - vm_compute. reflexivity.
  - assert (Forall (λ pn : string * Node, node_mtime pn.2 < clock_now example.usual)
              (managed (fs s) (dir example.app))) as Hall
      by (vm_compute; repeat constructor).
    intros p n Hin. exact (proj1 (Forall_forall _ _) Hall (p, n) Hin).
  - unfold s'. run_returns example.usual example.app s.
Defined.

(** A run whose second write to dconf fails: the image is in the directory
    and two commands have been run. *)
Example Run_dconf_down :
  let r := Run (H := reference.lib) example.dconfDown example.app example.emptyDir in
  r.1 = Fail (ErrWriteDconf (ErrDconfExit "error: Could not connect"))
  ∧ fs r.2 !! "/bg/gnome-spotlight_img.jpg" = Some (File 100 "JPEGDATA")
  ∧ calls r.2 = dconfWrite "/bg/gnome-spotlight_img.jpg" <$> take 2 dconfKeys.
Proof. vm_compute. done. Qed.

(** When the images in the directory are stamped later than the clock, the
    run deletes the image it has just set as background. *)
Example Run_clock_behind :
  let r := Run (H := reference.lib) example.usual example.app example.futureImages in
  r.1 = Ret tt
  ∧ fs r.2 !! "/bg/gnome-spotlight_img.jpg" = None
  ∧ calls r.2 = dconfWrite "/bg/gnome-spotlight_img.jpg" <$> dconfKeys.
Proof. vm_compute. done. Qed.

(** X20, a run with a dconf that fails, then a run with one that works. *)
Lemma X20_Run_after_failed_write_witness :
  let s' := (Run (H := reference.lib) example.dconfDown example.app example.emptyDir).2 in
  (Run (H := reference.lib) example.usual example.app s').1
  = Fail (ErrNewImage ErrImageExists)
  ∧ fs (Run (H := reference.lib) example.usual example.app s').2 = fs s'
  ∧ calls (Run (H := reference.lib) example.usual example.app s').2 = calls s'.
Proof.
  intros s'.
  apply (X20_Run_after_failed_write (H := reference.lib)
           example.dconfDown example.usual example.app example.emptyDir s'
           (ErrDconfExit "error: Could not connect")
           "http://x/img.jpg" "http://x/img.jpg"
           {| StatusCode := StatusOK; Body := NewReader "JPEGDATA" |}).
  - unfold s'.
    assert ((Run (H := reference.lib) example.dconfDown example.app example.emptyDir).1
            = Fail (ErrWriteDconf (ErrDconfExit "error: Could not connect"))) as E
      by (vm_compute; reflexivity).
    destruct (Run (H := reference.lib) example.dconfDown example.app example.emptyDir).
    cbn [fst snd] in *. by subst.
  - vm_compute. reflexivity.
  - vm_compute. reflexivity.
  - reflexivity.
  - vm_compute. reflexivity.
  - reflexivity.
Defined.

(** X21, two runs in a row on four older images. *)
Lemma X21_Run_twice_same_image_witness :
  let s' := (Run (H := reference.lib) example.usual example.app example.fourImages).2 in
  (Run (H := reference.lib) example.usual example.app s').1
  = Fail (ErrNewImage ErrImageExists)
  ∧ fs (Run (H := reference.lib) example.usual example.app s').2 = fs s'
  ∧ calls (Run (H := reference.lib) example.usual example.app s').2 = calls s'.
Proof.
  intros s'.
  apply (X21_Run_twice_same_image (H := reference.lib)
           example.usual example.usual example.app example.fourImages s'
           "http://x/img.jpg" "http://x/img.jpg"
           {| StatusCode := StatusOK; Body := NewReader "JPEGDATA" |}).
  - cbn. lia.
  - vm_compute. reflexivity.
  - intros _.
    assert (Forall (λ pn : string * Node, node_mtime pn.2 < clock_now example.usual)
              (managed (fs example.fourImages) (dir example.app))) as Hall
      by (vm_compute; repeat constructor).
    intros p n Hin. exact (proj1 (Forall_forall _ _) Hall (p, n) Hin).
  - unfold s'. run_returns example.usual example.app example.fourImages.
  - vm_compute. reflexivity.
  - vm_compute. reflexivity.
  - reflexivity.
  - vm_compute. reflexivity.
  - reflexivity.
Defined.
